(** * Permuted-MNIST continual-learning driver (fc_permute_mnist.py)

    A shallow embedding of the training script of the Hindsight-Anchor
    experiment: [normalize_tensors], [train_task_sequence],
    [test_task_sequence] and [main].

    The script drives three collaborators whose code lives in other modules:
    the TensorFlow model and session ([model.py]), NumPy's global random
    generator, and the episodic-memory helpers of [utils/].  They are
    interfaces here (type classes); the script itself is translated
    statement by statement into a small state-and-exception monad that also
    records, in order, every call made across those interfaces. *)

From Stdlib Require Import String ZArith List Bool Arith Lia Permutation.
From Stdlib Require Import Floats.SpecFloat.
Import ListNotations.

Set Implicit Arguments.

(* ================================================================= *)
(** ** IEEE-754 binary64 values, as NumPy and Python hold them *)

Module F64.

Definition prec : Z := 53.
Definition emax : Z := 1024.

Definition float := spec_float.

Definition zero : float := S754_zero false.
Definition of_Z (z : Z) : float := binary_normalize prec emax z 0 false.
Definition one : float := of_Z 1.

Definition sub : float -> float -> float := SFsub prec emax.
Definition div : float -> float -> float := SFdiv prec emax.
Definition mul : float -> float -> float := SFmul prec emax.
Definition ltb : float -> float -> bool := SFltb.

(** [math.isnan] *)
Definition isnan (x : float) : bool :=
  match x with S754_nan => true | _ => false end.

(** A value is finite when it is neither an infinity nor a NaN. *)
Definition is_finite (x : float) : bool :=
  match x with
  | S754_zero _ | S754_finite _ _ _ => true
  | S754_infinity _ | S754_nan => false
  end.

Definition is_zero (x : float) : bool :=
  match x with S754_zero _ => true | _ => false end.

(** The literals of the script. *)
Definition half : float := div one (of_Z 2).           (* 0.5 *)
Definition point_nine : float := div (of_Z 9) (of_Z 10). (* 0.9 *)
Definition point_one : float := div one (of_Z 10).     (* 0.1 *)

End F64.

Abbreviation float := F64.float.

(* ================================================================= *)
(** ** Arrays

    A two-dimensional [ndarray] is the list of its rows.  Shapes are the
    collaborators' business: the dataset hands out N x 784 images and
    N x 10 one-hot labels, and nothing here re-checks a row's width. *)

Definition Vector := list float.
Definition Matrix := list Vector.

(** [np.zeros([n, d])] *)
Definition np_zeros2 (n d : nat) : Matrix := repeat (repeat F64.zero d) n.

(** [np.zeros(n, dtype=np.int32)] *)
Definition np_zeros_int (n : nat) : list nat := repeat 0 n.

(** [np.ones(n)] *)
Definition np_ones (n : nat) : Vector := repeat F64.one n.

(** [np.arange(n)] *)
Definition np_arange (n : nat) : list nat := seq 0 n.

(** [a[lo:lo+len]]: a slice never raises, it is clipped to the array. *)
Definition slice {A} (a : list A) (lo len : nat) : list A :=
  firstn len (skipn lo a).

(** [a[idx]] for an index array: [None] stands for NumPy's [IndexError]. *)
Fixpoint take {A} (a : list A) (idx : list nat) : option (list A) :=
  match idx with
  | [] => Some []
  | i :: rest =>
      match nth_error a i, take a rest with
      | Some v, Some vs => Some (v :: vs)
      | _, _ => None
      end
  end.

(** [a[i] = v]: [None] stands for [IndexError]. *)
Fixpoint set_item {A} (a : list A) (i : nat) (v : A) : option (list A) :=
  match a, i with
  | [], _ => None
  | _ :: rest, 0 => Some (v :: rest)
  | h :: rest, S j =>
      match set_item rest j v with
      | Some rest' => Some (h :: rest')
      | None => None
      end
  end.

(** [a[lo:lo+len] = rows]: the slice is clipped to the array; the rows
    must fill it exactly, or be a single row that NumPy repeats, otherwise
    NumPy cannot broadcast and raises [ValueError] ([None]). *)
Definition set_slice {A} (a : list A) (lo len : nat) (rows : list A)
  : option (list A) :=
  let n := Nat.min len (length a - lo) in
  if length rows =? n
  then Some (firstn lo a ++ rows ++ skipn (lo + n) a)
  else match rows with
       | [r] => Some (firstn lo a ++ repeat r n ++ skipn (lo + n) a)
       | _ => None
       end.

(** [a.min()] and [a.max()]: NumPy propagates NaN, and an empty array has
    no minimum ([ValueError], here [None]). *)
Definition np_min2 (acc y : float) : float :=
  if F64.isnan acc then acc
  else if F64.isnan y then y
  else if F64.ltb y acc then y else acc.

Definition np_max2 (acc y : float) : float :=
  if F64.isnan acc then acc
  else if F64.isnan y then y
  else if F64.ltb acc y then y else acc.

Definition ndarray_min (a : Vector) : option float :=
  match a with
  | [] => None
  | x :: rest => Some (fold_left np_min2 rest x)
  end.

Definition ndarray_max (a : Vector) : option float :=
  match a with
  | [] => None
  | x :: rest => Some (fold_left np_max2 rest x)
  end.

(** One row of [normalize_tensors]:
    [(a[i] - a[i].min()) / (a[i].max() - a[i].min())]. *)
Definition normalize_row (row : Vector) : option Vector :=
  match ndarray_min row, ndarray_max row with
  | Some lo, Some hi =>
      Some (map (fun v => F64.div (F64.sub v lo) (F64.sub hi lo)) row)
  | _, _ => None
  end.

(** [normalize_tensors(a)], lines 80-84: every row is rescaled in turn. *)
Fixpoint normalize_tensors (a : Matrix) : option Matrix :=
  match a with
  | [] => Some []
  | row :: rest =>
      match normalize_row row, normalize_tensors rest with
      | Some row', Some rest' => Some (row' :: rest')
      | _, _ => None
      end
  end.

(* ================================================================= *)
(** ** Module-level options (lines 34-78) *)

Definition VALID_OPTIMS : list string := ["SGD"; "MOMENTUM"; "ADAM"]%string.
Definition VALID_ARCHS : list string := ["FC-S"; "FC-B"]%string.
Definition MODELS : list string :=
  ["VAN"; "PI"; "EWC"; "MAS"; "RWALK"; "A-GEM"; "S-GEM"; "FTR_EXT"; "MER";
   "ER-Reservoir"; "ER-Ring"; "ER-Hindsight-Anchors"]%string.

Definition SAMPLES_PER_CLASS : nat := 25.
Definition INPUT_FEATURE_SIZE : nat := 784.
Definition TOTAL_CLASSES : nat := 10.
Definition K_FOR_CROSS_VAL : nat := 3.
Definition NUM_TASKS : nat := 23.
Definition MER_S : float := F64.of_Z 10.
Definition MER_BETA : float := F64.point_one.

(** Debugging switches.  No command-line option sets them, so they keep
    these values in every execution.  The branches guarded by
    [COUNT_VIOLATIONS] (an extra fetch in the A-GEM step and a counter
    printed after each task) are unreachable and are left out below; the
    other three switches are tested where the script tests them. *)
Definition TIME_MY_METHOD : bool := false.
Definition COUNT_VIOLATIONS : bool := false.
Definition MEASURE_PERF_ON_EPS_MEMORY : bool := false.
Definition MULTI_TASK : bool := false.

(** The parsed command line ([get_arguments], lines 87-136).  Counts and
    sizes are natural numbers. *)
Record Args := {
  cross_validate_mode : bool;
  online_cross_val : bool;
  train_single_epoch : bool;
  eval_single_head : bool;
  arch : string;
  num_runs : nat;
  train_iters : nat;
  batch_size : nat;
  random_seed : Z;
  learning_rate : float;
  optim : string;
  imp_method : string;
  synap_stgth : float;
  fisher_ema_decay : float;
  fisher_update_after : nat;
  mem_size : nat;
  eps_mem_batch : nat;
  examples_per_task : nat;
  anchor_eta : float;
  log_dir : string
}.

(** The attributes of the [Model] object that the training loop reads. *)
Record Model := {
  model_num_tasks : nat;
  model_imp_method : string;
  model_fisher_update_after : nat
}.

(** ['ER-' in model.imp_method]: substring test. *)
Fixpoint str_in (sub s : string) : bool :=
  String.prefix sub s
  || match s with
     | EmptyString => false
     | String _ rest => str_in sub rest
     end.

(* ================================================================= *)
(** ** Data handed over by the dataset collaborator *)

Record Split := { images : Matrix; labels : Matrix }.
Record TaskData := { train : Split; test : Split }.

Definition empty_split : Split := {| images := []; labels := [] |}.
Definition empty_task : TaskData :=
  {| train := empty_split; test := empty_split |}.

(* ================================================================= *)
(** ** The session interface

    The graph nodes of [model.py] that the script fetches, and the
    placeholders it feeds. *)

Inductive Fetch :=
| model_train | model_reg_loss | model_train_classifier
| model_set_initial_running_fisher | model_set_running_fisher
| model_reset_tmp_fisher | model_set_tmp_fisher
| model_weights_old_ops_grouped | model_update_small_omega
| model_train_first_task | model_agem_loss | model_store_ref_grads
| model_train_subseq_tasks
| model_weights_delta_old_grouped | model_update_big_omega_riemann
| model_reset_small_omega
| model_store_theta_i_not_w | model_with_in_batch_reptile_update
| model_phi_hat | model_train_anchor | model_anchor_loss | model_task_loss
| model_final_anchor_loss.

Record FeedDict := {
  feed_x : option Matrix;
  feed_y_ : option Matrix;
  feed_sample_weights : option Vector;
  feed_training_iters : option nat;
  feed_train_step : option nat;
  feed_keep_prob : option float;
  feed_output_mask : option Vector;
  feed_learning_rate : option float;
  feed_phi_hat_alpha : option float;
  feed_anchor_points : option Matrix;
  feed_mer_beta : option float
}.

Definition no_feed : FeedDict :=
  {| feed_x := None; feed_y_ := None; feed_sample_weights := None;
     feed_training_iters := None; feed_train_step := None;
     feed_keep_prob := None; feed_output_mask := None;
     feed_learning_rate := None; feed_phi_hat_alpha := None;
     feed_anchor_points := None; feed_mer_beta := None |}.

(** The feed of an ordinary training step (lines 290-293, 372-374, ...). *)
Definition train_feed (x y : Matrix) (w : option Vector)
    (num_iters iters : nat) (mask : Vector) (lr : float) : FeedDict :=
  {| feed_x := Some x; feed_y_ := Some y; feed_sample_weights := w;
     feed_training_iters := Some num_iters; feed_train_step := Some iters;
     feed_keep_prob := Some F64.one; feed_output_mask := Some mask;
     feed_learning_rate := Some lr; feed_phi_hat_alpha := None;
     feed_anchor_points := None; feed_mer_beta := None |}.

(** The feed of the reference-gradient pass (lines 334-335). *)
Definition ref_feed (x y : Matrix) (mask : Vector) (lr : float) : FeedDict :=
  {| feed_x := Some x; feed_y_ := Some y; feed_sample_weights := None;
     feed_training_iters := None; feed_train_step := None;
     feed_keep_prob := Some F64.one; feed_output_mask := Some mask;
     feed_learning_rate := Some lr; feed_phi_hat_alpha := None;
     feed_anchor_points := None; feed_mer_beta := None |}.

(** The feed of an evaluation (lines 537-539, 546-548). *)
Definition eval_feed (x y : Matrix) (mask : Vector) : FeedDict :=
  {| feed_x := Some x; feed_y_ := Some y; feed_sample_weights := None;
     feed_training_iters := None; feed_train_step := None;
     feed_keep_prob := Some F64.one; feed_output_mask := Some mask;
     feed_learning_rate := None; feed_phi_hat_alpha := None;
     feed_anchor_points := None; feed_mer_beta := None |}.

(** [feed_dict[model.phi_hat_alpha] = v] *)
Definition with_phi_hat_alpha (v : float) (f : FeedDict) : FeedDict :=
  {| feed_x := feed_x f; feed_y_ := feed_y_ f;
     feed_sample_weights := feed_sample_weights f;
     feed_training_iters := feed_training_iters f;
     feed_train_step := feed_train_step f;
     feed_keep_prob := feed_keep_prob f;
     feed_output_mask := feed_output_mask f;
     feed_learning_rate := feed_learning_rate f;
     feed_phi_hat_alpha := Some v;
     feed_anchor_points := feed_anchor_points f;
     feed_mer_beta := feed_mer_beta f |}.

(** [feed_dict[model.anchor_points] = v] *)
Definition with_anchor_points (v : Matrix) (f : FeedDict) : FeedDict :=
  {| feed_x := feed_x f; feed_y_ := feed_y_ f;
     feed_sample_weights := feed_sample_weights f;
     feed_training_iters := feed_training_iters f;
     feed_train_step := feed_train_step f;
     feed_keep_prob := feed_keep_prob f;
     feed_output_mask := feed_output_mask f;
     feed_learning_rate := feed_learning_rate f;
     feed_phi_hat_alpha := feed_phi_hat_alpha f;
     feed_anchor_points := Some v;
     feed_mer_beta := feed_mer_beta f |}.

(** [{model.mer_beta: v}] *)
Definition mer_feed (v : float) : FeedDict :=
  {| feed_x := None; feed_y_ := None; feed_sample_weights := None;
     feed_training_iters := None; feed_train_step := None;
     feed_keep_prob := None; feed_output_mask := None;
     feed_learning_rate := None; feed_phi_hat_alpha := None;
     feed_anchor_points := None; feed_mer_beta := Some v |}.

(** What a [sess.run] hands back to the script: the loss among the
    fetches, and [phi_hat] when it is fetched. *)
Record Fetched := { fetched_loss : float; fetched_phi_hat : Matrix }.

(** The TensorFlow side: a session state of type [M] and the operations on
    it that the script invokes. *)
Class Session (M : Type) := {
  (** [Model(...)] followed by [tf.Session(...)] in [main] *)
  build_model : Args -> nat -> M -> M;
  (** [sess.run(fetches, feed_dict)] *)
  sess_run : list Fetch -> FeedDict -> M -> M * Fetched;
  (** [sess.run(tf.global_variables_initializer())] *)
  global_variables_initializer : M -> M;
  (** [model.init_updates(sess)] *)
  init_updates : M -> M;
  (** [model.restore(sess)] *)
  restore : M -> M;
  (** [model.task_updates(sess, task, images, labels)] *)
  task_updates : nat -> Matrix -> list nat -> M -> M;
  (** [model.reset_optimizer(sess)] *)
  reset_optimizer : M -> M;
  (** [model.accuracy.eval(feed_dict)]: reads the session, changes nothing *)
  accuracy_eval : FeedDict -> M -> float
}.

(** NumPy's global generator, with state of type [R].  [shuffle] and
    [choice] are used on index arrays only. *)
Class NumpyRandom (R : Type) := {
  (** [np.random.seed(s)]: the new state depends on [s] alone *)
  np_random_seed : Z -> R;
  (** [np.random.shuffle(a)] *)
  np_random_shuffle : list nat -> R -> list nat * R;
  (** [np.random.choice(n, k, replace=False)] *)
  np_random_choice : nat -> nat -> R -> list nat * R;
  (** [np.random.randint(lo, hi)] *)
  np_random_randint : nat -> nat -> R -> nat * R
}.

(** What the script relies on from NumPy: a shuffle permutes, and a choice
    without replacement of [k <= n] returns [k] distinct indices below [n]. *)
Record NumpyRandomSpec (R : Type) `{NumpyRandom R} : Prop := {
  shuffle_perm : forall a g, Permutation (fst (np_random_shuffle a g)) a;
  choice_length : forall n k g, k <= n ->
      length (fst (np_random_choice n k g)) = k;
  choice_nodup : forall n k g, k <= n ->
      NoDup (fst (np_random_choice n k g));
  choice_range : forall n k g i, k <= n ->
      In i (fst (np_random_choice n k g)) -> i < n
}.
Arguments NumpyRandomSpec R {_}.

(** The helpers of [utils/] whose results the script only passes along. *)
Class ErUtils (M R : Type) := {
  (** [construct_permute_mnist(num_tasks)] *)
  construct_permute_mnist : nat -> R -> list TaskData * R;
  (** [update_avg_image_vectors(x, y, avg_img_vectors, running_alpha)],
      returning the updated [avg_img_vectors] *)
  update_avg_image_vectors : Matrix -> Matrix -> Matrix -> float -> Matrix;
  (** [er_mem_update_hindsight(model, sess, anchor_x, anchor_y,
      episodic_images, episodic_labels, episodic_filled_counter,
      task_labels, logit_mask, phi_hat, avg_img_vectors, args)] *)
  er_mem_update_hindsight :
    Model -> Matrix -> Matrix -> Matrix -> Matrix -> nat -> list nat ->
    Vector -> Matrix -> Matrix -> Args -> M -> R ->
    (Matrix * Matrix) * M * R
}.

(* ================================================================= *)
(** ** The buffers of [utils/er_utils.py] *)

(** The class of a one-hot label: the position of its non-zero entry. *)
Fixpoint label_class (y : Vector) : option nat :=
  match y with
  | [] => None
  | v :: rest =>
      if F64.is_zero v
      then match label_class rest with Some c => Some (S c) | None => None end
      else Some 0
  end.

Fixpoint index_of (c : nat) (l : list nat) : option nat :=
  match l with
  | [] => None
  | h :: rest =>
      if h =? c then Some 0
      else match index_of c rest with Some i => Some (S i) | None => None end
  end.

(** Modelled from the spec: [update_fifo_buffer] of [utils/er_utils.py] is
    not among the sources; only its call sites are (lines 343, 413, 433,
    444).  The spec (4.1, "FIFO ring.offer") has each example routed to the
    ring of its label's class: "if that class's ring has a free slot, append
    and increment its fill counter; else overwrite at the class's current
    write cursor and advance the cursor modulo [mem_per_class]"; the buffer
    is "partitioned into one fixed-size ring per class" (3).

    The call sites pass one integer per class ([count_cls]) and the index
    at which the block of rings starts.  [count_cls[c]] counts the examples
    offered to class [c]: the ring's fill counter is that count capped at
    [mem_per_class], its write cursor is the count modulo [mem_per_class].
    The ring of the class at position [j] of [task_labels] occupies the
    slots [offset + j * mem_per_class ..+ mem_per_class].  The function
    returns the three arrays it updates in place; [None] stands for an
    exception (an index outside the arrays, a label without a class, a
    ring of size zero). *)
Fixpoint update_fifo_buffer (current_images current_labels : Matrix)
    (episodic_images episodic_labels : Matrix) (task_labels : list nat)
    (mem_per_class : nat) (count_cls : list nat)
    (episodic_filled_counter : nat)
  : option (Matrix * Matrix * list nat) :=
  match current_images, current_labels with
  | er_x :: xs, er_y :: ys =>
      match label_class er_y with
      | None => None
      | Some cls =>
          match index_of cls task_labels, nth_error count_cls cls with
          | Some j, Some n =>
              let fill := Nat.min n mem_per_class in
              let in_ring :=
                if fill <? mem_per_class then Some fill
                else match mem_per_class with
                     | 0 => None
                     | _ => Some (n mod mem_per_class)
                     end in
              match in_ring with
              | None => None
              | Some k =>
                  let mem_index :=
                    episodic_filled_counter + j * mem_per_class + k in
                  match set_item episodic_images mem_index er_x,
                        set_item episodic_labels mem_index er_y,
                        set_item count_cls cls (S n) with
                  | Some imgs, Some lbls, Some cnt =>
                      update_fifo_buffer xs ys imgs lbls task_labels
                        mem_per_class cnt episodic_filled_counter
                  | _, _, _ => None
                  end
              end
          | _, _ => None
          end
      end
  | _, _ => Some (episodic_images, episodic_labels, count_cls)
  end.

(* ================================================================= *)
(** ** Program state, outcomes and the calls that are recorded *)

(** The episodic memory and its counters (lines 185-189). *)
Record Episodic := {
  episodic_images : Matrix;
  episodic_labels : Matrix;
  count_cls : list nat;
  episodic_filled_counter : nat;
  examples_seen_so_far : nat
}.

(** The hindsight-anchor buffers (lines 191-194). *)
Record Anchors := {
  avg_img_vectors : Matrix;
  anchor_images : Matrix;
  anchor_labels : Matrix;
  anchor_count_cls : list nat
}.

(** Everything that outlives a statement: the session (of type [M]), the
    generator (of type [R]), the directories that exist, and the locals of
    [train_task_sequence] that are updated from one iteration to the next.
    [phi_hat] is [None] until an iteration binds it. *)
Record State (M R : Type) := {
  sess : M;
  rng : R;
  dirs : list string;
  mem : Episodic;
  anc : Anchors;
  phi_hat : option Matrix
}.
Arguments sess {M R} _.
Arguments rng {M R} _.
Arguments dirs {M R} _.
Arguments mem {M R} _.
Arguments anc {M R} _.
Arguments phi_hat {M R} _.

Inductive Buffer := episodic_buffer | anchor_buffer.

(** The calls made across the interfaces, as they appear in the trace. *)
Inductive Event :=
| ev_np_random_seed (s : Z)
| ev_construct_permute_mnist (num_tasks : nat)
| ev_global_variables_initializer
| ev_init_updates
| ev_restore
| ev_sess_run (fetches : list Fetch) (feed : FeedDict)
| ev_update_fifo_buffer (b : Buffer) (x y : Matrix)
    (mem_per_class offset : nat)
| ev_update_reservior (x y : Matrix)
| ev_update_avg_image_vectors (x y : Matrix)
| ev_er_mem_update_hindsight
| ev_task_updates (task : nat)
| ev_accuracy_eval (feed : FeedDict)
| ev_reset_optimizer
| ev_print_step (iters : nat) (loss : float)
| ev_print_nan
| ev_makedirs (dir : string)
| ev_snapshot_experiment_meta_data
| ev_build_model (num_tasks : nat)
| ev_cross_validate_dump
| ev_snapshot_experiment_eval.

Inductive PyExc :=
| ValueError (msg : string)
| IndexError
| ZeroDivisionError
| UnboundLocalError (name : string)
| TypeError.

(** How a statement ends: normally, by [sys.exit], or by an exception.
    Nothing in the script catches either of the last two. *)
Inductive Outcome (A : Type) :=
| Normal (a : A)
| SystemExit (code : Z)
| Raised (e : PyExc).
Arguments SystemExit {A} code.
Arguments Raised {A} e.

Record Result (M R A : Type) := {
  outcome : Outcome A;
  final : State M R;
  events : list Event
}.
Arguments outcome {M R A} _.
Arguments final {M R A} _.
Arguments events {M R A} _.

Definition Py (M R A : Type) : Type := State M R -> Result M R A.

Definition ret {M R A} (a : A) : Py M R A :=
  fun s => {| outcome := Normal a; final := s; events := [] |}.

Definition bind {M R A B} (m : Py M R A) (f : A -> Py M R B) : Py M R B :=
  fun s =>
    match m s with
    | {| outcome := Normal a; final := s1; events := e1 |} =>
        match f a s1 with
        | {| outcome := o; final := s2; events := e2 |} =>
            {| outcome := o; final := s2; events := e1 ++ e2 |}
        end
    | {| outcome := SystemExit c; final := s1; events := e1 |} =>
        {| outcome := SystemExit c; final := s1; events := e1 |}
    | {| outcome := Raised e; final := s1; events := e1 |} =>
        {| outcome := Raised e; final := s1; events := e1 |}
    end.

Definition raise {M R A} (e : PyExc) : Py M R A :=
  fun s => {| outcome := Raised e; final := s; events := [] |}.

(** [sys.exit(code)] *)
Definition sys_exit {M R A} (code : Z) : Py M R A :=
  fun s => {| outcome := SystemExit code; final := s; events := [] |}.

Definition emit {M R} (e : Event) : Py M R unit :=
  fun s => {| outcome := Normal tt; final := s; events := [e] |}.

Definition gets {M R A} (f : State M R -> A) : Py M R A :=
  fun s => {| outcome := Normal (f s); final := s; events := [] |}.

Definition modify {M R} (f : State M R -> State M R) : Py M R unit :=
  fun s => {| outcome := Normal tt; final := f s; events := [] |}.

(** An array operation that raises [e] where NumPy does. *)
Definition or_raise {M R A} (e : PyExc) (o : option A) : Py M R A :=
  match o with Some a => ret a | None => raise e end.

Declare Scope py_scope.
Delimit Scope py_scope with py.
Notation "x <- m ;; k" := (bind m (fun x => k))
  (at level 61, m at next level, right associativity) : py_scope.
Notation "m ;; k" := (bind m (fun _ => k))
  (at level 61, right associativity) : py_scope.
Notation "'when' b 'then' m" := (if b then m else ret tt)
  (at level 61, b at next level, right associativity) : py_scope.
Open Scope py_scope.

(** A [for] loop whose body appends to a list: the loop returns what the
    iterations appended, in order.  An exit or an exception in one
    iteration ends the loop there. *)
Fixpoint for_each {M R X Y} (xs : list X) (body : X -> Py M R (list Y))
  : Py M R (list Y) :=
  match xs with
  | [] => ret []
  | x :: rest =>
      ys <- body x ;;
      zs <- for_each rest body ;;
      ret (ys ++ zs)
  end.

(** Field updates. *)
Definition set_sess {M R} (v : M) (s : State M R) : State M R :=
  {| sess := v; rng := rng s; dirs := dirs s; mem := mem s; anc := anc s;
     phi_hat := phi_hat s |}.
Definition set_rng {M R} (v : R) (s : State M R) : State M R :=
  {| sess := sess s; rng := v; dirs := dirs s; mem := mem s; anc := anc s;
     phi_hat := phi_hat s |}.
Definition set_dirs {M R} (v : list string) (s : State M R) : State M R :=
  {| sess := sess s; rng := rng s; dirs := v; mem := mem s; anc := anc s;
     phi_hat := phi_hat s |}.
Definition set_mem {M R} (v : Episodic) (s : State M R) : State M R :=
  {| sess := sess s; rng := rng s; dirs := dirs s; mem := v; anc := anc s;
     phi_hat := phi_hat s |}.
Definition set_anc {M R} (v : Anchors) (s : State M R) : State M R :=
  {| sess := sess s; rng := rng s; dirs := dirs s; mem := mem s; anc := v;
     phi_hat := phi_hat s |}.
Definition set_phi_hat {M R} (v : option Matrix) (s : State M R)
  : State M R :=
  {| sess := sess s; rng := rng s; dirs := dirs s; mem := mem s;
     anc := anc s; phi_hat := v |}.

(** The accuracies recorded for one task: the learning curve of
    single-epoch mode ([np.array] of the snapshots) or one vector. *)
Inductive Ftask :=
| ftask_curve (snapshots : list (list float))
| ftask_acc (acc : list float).

(** What [test_task_sequence] is asked to evaluate: the datasets, or the
    dictionary built from the episodic memory (lines 497-500). *)
Inductive TestData :=
| test_datasets (datasets : list TaskData)
| test_eps_mem (imgs lbls : Matrix).

(** Integer [%] and [//]: Python raises on a zero divisor. *)
Definition py_mod {M R} (a b : nat) : Py M R nat :=
  match b with 0 => raise ZeroDivisionError | _ => ret (a mod b) end.

Definition py_floordiv {M R} (a b : nat) : Py M R nat :=
  match b with 0 => raise ZeroDivisionError | _ => ret (a / b) end.

(* ================================================================= *)
(** ** The script *)

Section Script.

Context {M R : Type}.
Context `{Session M} `{NumpyRandom R} `{ErUtils M R}.

Local Abbreviation Py := (Py M R).

(** Modelled from the spec: [update_reservior] of [utils/er_utils.py] is
    not among the sources.  The spec (4.1, "Reservoir.offer"): "for each
    example in the incoming batch, processed in batch order: if the buffer
    is not yet full, append; otherwise draw a uniform random index in
    [0, examples_seen_so_far] (examples_seen_so_far is incremented for
    every offered example including this one) and if that index falls
    inside [0, capacity) overwrite the buffer slot at that index with the
    new example."  Arguments as at the call sites (lines 378, 399): batch,
    buffers, capacity, examples seen so far; the result is the new count,
    with the buffers it updates in place and the generator. *)
Fixpoint update_reservior (current_image current_label : Matrix)
    (episodic_images episodic_labels : Matrix) (capacity N : nat) (g : R)
  : option (Matrix * Matrix * nat) * R :=
  match current_image, current_label with
  | er_x :: xs, er_y :: ys =>
      if N <? capacity then
        match set_item episodic_images N er_x,
              set_item episodic_labels N er_y with
        | Some imgs, Some lbls =>
            update_reservior xs ys imgs lbls capacity (S N) g
        | _, _ => (None, g)
        end
      else
        let jg := np_random_randint 0 N g in
        if fst jg <? capacity then
          match set_item episodic_images (fst jg) er_x,
                set_item episodic_labels (fst jg) er_y with
          | Some imgs, Some lbls =>
              update_reservior xs ys imgs lbls capacity (S N) (snd jg)
          | _, _ => (None, snd jg)
          end
        else update_reservior xs ys episodic_images episodic_labels
               capacity (S N) (snd jg)
  | _, _ => (Some (episodic_images, episodic_labels, N), g)
  end.

(** *** Calls across the interfaces *)

Definition do_sess_run (fetches : list Fetch) (feed : FeedDict)
  : Py Fetched :=
  emit (ev_sess_run fetches feed) ;;
  m <- gets sess ;;
  modify (set_sess (fst (sess_run fetches feed m))) ;;
  ret (snd (sess_run fetches feed m)).

Definition do_global_variables_initializer : Py unit :=
  emit ev_global_variables_initializer ;;
  m <- gets sess ;;
  modify (set_sess (global_variables_initializer m)).

Definition do_init_updates : Py unit :=
  emit ev_init_updates ;;
  m <- gets sess ;;
  modify (set_sess (init_updates m)).

Definition do_restore : Py unit :=
  emit ev_restore ;;
  m <- gets sess ;;
  modify (set_sess (restore m)).

Definition do_task_updates (task : nat) (imgs : Matrix) (lbls : list nat)
  : Py unit :=
  emit (ev_task_updates task) ;;
  m <- gets sess ;;
  modify (set_sess (task_updates task imgs lbls m)).

Definition do_reset_optimizer : Py unit :=
  emit ev_reset_optimizer ;;
  m <- gets sess ;;
  modify (set_sess (reset_optimizer m)).

Definition do_accuracy_eval (feed : FeedDict) : Py float :=
  emit (ev_accuracy_eval feed) ;;
  m <- gets sess ;;
  ret (accuracy_eval feed m).

Definition do_np_random_seed (s : Z) : Py unit :=
  emit (ev_np_random_seed s) ;;
  modify (set_rng (np_random_seed s)).

Definition do_np_random_shuffle (a : list nat) : Py (list nat) :=
  g <- gets rng ;;
  modify (set_rng (snd (np_random_shuffle a g))) ;;
  ret (fst (np_random_shuffle a g)).

Definition do_np_random_choice (n k : nat) : Py (list nat) :=
  g <- gets rng ;;
  modify (set_rng (snd (np_random_choice n k g))) ;;
  ret (fst (np_random_choice n k g)).

Definition do_construct_permute_mnist (num_tasks : nat)
  : Py (list TaskData) :=
  emit (ev_construct_permute_mnist num_tasks) ;;
  g <- gets rng ;;
  modify (set_rng (snd (construct_permute_mnist num_tasks g))) ;;
  ret (fst (construct_permute_mnist num_tasks g)).

(** [update_fifo_buffer(x, y, episodic_images, episodic_labels,
    np.arange(TOTAL_CLASSES), mem_per_class, count_cls,
    episodic_filled_counter)]: the arrays are updated in place, the
    counter is passed by value. *)
Definition do_update_fifo_episodic (x y : Matrix) (mem_per_class : nat)
  : Py unit :=
  m <- gets mem ;;
  emit (ev_update_fifo_buffer episodic_buffer x y mem_per_class
          (episodic_filled_counter m)) ;;
  r <- or_raise IndexError
         (update_fifo_buffer x y (episodic_images m) (episodic_labels m)
            (np_arange TOTAL_CLASSES) mem_per_class (count_cls m)
            (episodic_filled_counter m)) ;;
  modify (set_mem
    {| episodic_images := fst (fst r);
       episodic_labels := snd (fst r);
       count_cls := snd r;
       episodic_filled_counter := episodic_filled_counter m;
       examples_seen_so_far := examples_seen_so_far m |}).

(** [update_fifo_buffer(x, y, anchor_images, anchor_labels,
    np.arange(TOTAL_CLASSES), 1, anchor_count_cls, anchors_counter)] *)
Definition do_update_fifo_anchors (x y : Matrix) (anchors_counter : nat)
  : Py unit :=
  a <- gets anc ;;
  emit (ev_update_fifo_buffer anchor_buffer x y 1 anchors_counter) ;;
  r <- or_raise IndexError
         (update_fifo_buffer x y (anchor_images a) (anchor_labels a)
            (np_arange TOTAL_CLASSES) 1 (anchor_count_cls a)
            anchors_counter) ;;
  modify (set_anc
    {| avg_img_vectors := avg_img_vectors a;
       anchor_images := fst (fst r);
       anchor_labels := snd (fst r);
       anchor_count_cls := snd r |}).

(** [examples_seen_so_far = update_reservior(x, y, episodic_images,
    episodic_labels, episodic_mem_size, examples_seen_so_far)] *)
Definition do_update_reservior (x y : Matrix) (episodic_mem_size : nat)
  : Py unit :=
  emit (ev_update_reservior x y) ;;
  m <- gets mem ;;
  g <- gets rng ;;
  let r := update_reservior x y (episodic_images m) (episodic_labels m)
             episodic_mem_size (examples_seen_so_far m) g in
  modify (set_rng (snd r)) ;;
  b <- or_raise IndexError (fst r) ;;
  modify (set_mem
    {| episodic_images := fst (fst b);
       episodic_labels := snd (fst b);
       count_cls := count_cls m;
       episodic_filled_counter := episodic_filled_counter m;
       examples_seen_so_far := snd b |}).

(** [update_avg_image_vectors(x, y, avg_img_vectors, running_alpha=0.9)] *)
Definition do_update_avg_image_vectors (x y : Matrix) : Py unit :=
  emit (ev_update_avg_image_vectors x y) ;;
  a <- gets anc ;;
  modify (set_anc
    {| avg_img_vectors :=
         update_avg_image_vectors x y (avg_img_vectors a) F64.point_nine;
       anchor_images := anchor_images a;
       anchor_labels := anchor_labels a;
       anchor_count_cls := anchor_count_cls a |}).

(** *** Memory samples

    [np.arange(filled) if filled <= k else
     np.random.choice(filled, k, replace=False)]
    (lines 328-332, 368, 383, 404, 417, 420). *)
Definition sample_indices (filled k : nat) : Py (list nat) :=
  if filled <=? k then ret (np_arange filled)
  else do_np_random_choice filled k.

(** A-GEM, lines 328-332: the counter is used as it is. *)
Definition agem_mem_sample_mask (args : Args) : Py (list nat) :=
  m <- gets mem ;;
  sample_indices (episodic_filled_counter m) (eps_mem_batch args).

(** ER-Reservoir and MER, lines 367-369 and 382-384: the sample is
    shuffled before it is used. *)
Definition er_reservoir_mem_indices (args : Args) (episodic_mem_size : nat)
  : Py (list nat) :=
  m <- gets mem ;;
  let mem_filled_so_far :=
    if examples_seen_so_far m <=? episodic_mem_size
    then examples_seen_so_far m else episodic_mem_size in
  er_mem_indices <- sample_indices mem_filled_so_far (eps_mem_batch args) ;;
  do_np_random_shuffle er_mem_indices.

(** ER-Ring and ER-Hindsight-Anchors, lines 403-404 and 419-420. *)
Definition er_ring_mem_indices (args : Args) (episodic_mem_size : nat)
  : Py (list nat) :=
  m <- gets mem ;;
  let mem_filled_so_far :=
    if episodic_filled_counter m <=? episodic_mem_size
    then episodic_filled_counter m else episodic_mem_size in
  sample_indices mem_filled_so_far (eps_mem_batch args).

(** ER-Hindsight-Anchors, lines 417-418. *)
Definition anchor_mem_indices (args : Args) (anchors_counter : nat)
  : Py (list nat) :=
  sample_indices anchors_counter (eps_mem_batch args).

(** *** [test_task_sequence], lines 523-553 *)

Definition test_task_sequence (model : Model) (test_data : TestData)
    (cross_validate_mode : bool) : Py (list float) :=
  if TIME_MY_METHOD then ret (repeat F64.zero (model_num_tasks model))
  else
    let logit_mask := np_ones TOTAL_CLASSES in
    if MEASURE_PERF_ON_EPS_MEMORY then
      match test_data with
      | test_eps_mem imgs lbls =>
          for_each (np_arange (model_num_tasks model)) (fun task =>
            let mem_offset := task * SAMPLES_PER_CLASS * TOTAL_CLASSES in
            acc <- do_accuracy_eval
                     (eval_feed
                        (slice imgs mem_offset
                           (SAMPLES_PER_CLASS * TOTAL_CLASSES))
                        (slice lbls mem_offset
                           (SAMPLES_PER_CLASS * TOTAL_CLASSES))
                        logit_mask) ;;
            ret [acc])
      | test_datasets _ => raise TypeError
      end
    else
      match test_data with
      | test_datasets datasets =>
          for_each datasets (fun t =>
            acc <- do_accuracy_eval
                     (eval_feed (images (test t)) (labels (test t))
                        logit_mask) ;;
            ret [acc])
      | test_eps_mem _ _ => raise TypeError
      end.

(** *** Loading a task, lines 214-260 *)

(** Lines 250-260 (and 217-226, 228-237): shuffle one task's training
    split and keep its first [examples_per_task] examples. *)
Definition shuffled_examples (args : Args) (t : TaskData)
  : Py (Matrix * Matrix * Vector) :=
  let task_train_images := images (train t) in
  let task_train_labels := labels (train t) in
  let sample_weights := np_ones (length task_train_labels) in
  let total_train_examples := length task_train_images in
  perm <- do_np_random_shuffle (np_arange total_train_examples) ;;
  x <- or_raise IndexError (take task_train_images perm) ;;
  y <- or_raise IndexError (take task_train_labels perm) ;;
  w <- or_raise IndexError (take sample_weights perm) ;;
  ret (firstn (examples_per_task args) x,
       firstn (examples_per_task args) y,
       firstn (examples_per_task args) w).

(** The training data of a task: [task_train_images] (kept for the
    inter-task update), [train_x], [train_y], [task_sample_weights];
    [None] when the task is skipped ([continue], line 246). *)
Definition load_task (args : Args) (datasets : list TaskData) (task : nat)
  : Py (option (Matrix * Matrix * Matrix * Vector)) :=
  if MULTI_TASK then
    if task =? 0 then
      first <- shuffled_examples args (nth 0 datasets empty_task) ;;
      others <- for_each (skipn 1 datasets) (fun t =>
                  e <- shuffled_examples args t ;; ret [e]) ;;
      let train_x := fst (fst first) ++ concat (map (fun e => fst (fst e)) others) in
      let train_y := snd (fst first) ++ concat (map (fun e => snd (fst e)) others) in
      let w := snd first ++ concat (map (fun e => snd e) others) in
      perm <- do_np_random_shuffle (np_arange (length train_x)) ;;
      x <- or_raise IndexError (take train_x perm) ;;
      y <- or_raise IndexError (take train_y perm) ;;
      w' <- or_raise IndexError (take w perm) ;;
      ret (Some (images (train (nth (length datasets - 1) datasets
                                  empty_task)), x, y, w'))
    else ret None
  else
    let t := nth task datasets empty_task in
    e <- shuffled_examples args t ;;
    ret (Some (images (train t), fst (fst e), snd (fst e), snd e)).

(** *** One training step per strategy, lines 295-445

    Every step returns the [loss] it binds.  [x], [y] are
    [train_x[offset:offset+residual]] and [train_y[offset:offset+residual]];
    [feed_dict] is the dictionary of lines 290-293. *)

Definition loss_of (m : Py Fetched) : Py float :=
  out <- m ;; ret (fetched_loss out).

Definition step_VAN (feed_dict : FeedDict) : Py float :=
  loss_of (do_sess_run [model_train; model_reg_loss] feed_dict).

Definition step_FTR_EXT (task : nat) (feed_dict : FeedDict) : Py float :=
  if task =? 0
  then loss_of (do_sess_run [model_train; model_reg_loss] feed_dict)
  else loss_of (do_sess_run [model_train_classifier; model_reg_loss]
                  feed_dict).

Definition step_EWC (model : Model) (task iters : nat)
    (feed_dict : FeedDict) : Py float :=
  (when (task =? 0) && (iters =? 0) then
     (do_sess_run [model_set_initial_running_fisher] feed_dict ;; ret tt)) ;;
  r <- py_mod (iters + 1) (model_fisher_update_after model) ;;
  (when (r =? 0) then
     (do_sess_run [model_set_running_fisher] no_feed ;;
      do_sess_run [model_reset_tmp_fisher] no_feed ;; ret tt)) ;;
  loss_of (do_sess_run [model_set_tmp_fisher; model_train; model_reg_loss]
             feed_dict).

Definition step_PI (feed_dict : FeedDict) : Py float :=
  loss_of (do_sess_run [model_weights_old_ops_grouped; model_train;
                        model_update_small_omega; model_reg_loss]
             feed_dict).

Definition step_MAS (feed_dict : FeedDict) : Py float :=
  loss_of (do_sess_run [model_train; model_reg_loss] feed_dict).

Definition step_A_GEM (args : Args) (task : nat) (logit_mask : Vector)
    (x y : Matrix) (feed_dict : FeedDict) : Py float :=
  loss <-
    (if task =? 0 then
       loss_of (do_sess_run [model_train_first_task; model_agem_loss]
                  feed_dict)
     else
       mem_sample_mask <- agem_mem_sample_mask args ;;
       m <- gets mem ;;
       mx <- or_raise IndexError (take (episodic_images m) mem_sample_mask) ;;
       my <- or_raise IndexError (take (episodic_labels m) mem_sample_mask) ;;
       do_sess_run [model_store_ref_grads]
         (ref_feed mx my logit_mask (learning_rate args)) ;;
       loss_of (do_sess_run [model_train_subseq_tasks; model_agem_loss]
                  feed_dict)) ;;
  do_update_fifo_episodic x y (mem_size args) ;;
  ret loss.

Definition step_RWALK (model : Model) (task iters : nat)
    (feed_dict : FeedDict) : Py float :=
  (when (task =? 0) && (iters =? 0) then
     (do_sess_run [model_set_initial_running_fisher] feed_dict ;;
      do_sess_run [model_weights_delta_old_grouped] no_feed ;; ret tt)) ;;
  r <- py_mod (iters + 1) (model_fisher_update_after model) ;;
  (when (r =? 0) then
     (do_sess_run [model_update_big_omega_riemann] no_feed ;;
      do_sess_run [model_set_running_fisher] no_feed ;;
      do_sess_run [model_weights_delta_old_grouped] no_feed ;;
      do_sess_run [model_reset_small_omega] no_feed ;; ret tt)) ;;
  loss_of (do_sess_run [model_set_tmp_fisher; model_weights_old_ops_grouped;
                        model_train; model_update_small_omega;
                        model_reg_loss] feed_dict).

Definition step_ER_Reservoir (args : Args) (episodic_mem_size : nat)
    (num_iters iters : nat) (logit_mask : Vector) (x y : Matrix)
  : Py float :=
  er_mem_indices <- er_reservoir_mem_indices args episodic_mem_size ;;
  m <- gets mem ;;
  ex <- or_raise IndexError (take (episodic_images m) er_mem_indices) ;;
  ey <- or_raise IndexError (take (episodic_labels m) er_mem_indices) ;;
  loss <- loss_of (do_sess_run [model_train; model_reg_loss]
            (train_feed (ex ++ x) (ey ++ y) None num_iters iters logit_mask
               (learning_rate args))) ;;
  do_update_reservior x y episodic_mem_size ;;
  ret loss.

(** The micro-steps of MER, lines 388-392: one per memory example. *)
Fixpoint mer_micro_steps (args : Args) (num_iters iters : nat)
    (logit_mask : Vector) (mer_x mer_y : Matrix) : Py unit :=
  match mer_x, mer_y with
  | ex :: xs, ey :: ys =>
      do_sess_run [model_train; model_reg_loss]
        (train_feed [ex] [ey] None num_iters iters logit_mask
           (learning_rate args)) ;;
      mer_micro_steps args num_iters iters logit_mask xs ys
  | _, _ => ret tt
  end.

Definition step_MER (args : Args) (episodic_mem_size : nat)
    (num_iters iters : nat) (logit_mask : Vector) (x y : Matrix)
  : Py float :=
  mer_mem_indices <- er_reservoir_mem_indices args episodic_mem_size ;;
  m <- gets mem ;;
  mer_x <- or_raise IndexError (take (episodic_images m) mer_mem_indices) ;;
  mer_y <- or_raise IndexError (take (episodic_labels m) mer_mem_indices) ;;
  do_sess_run [model_store_theta_i_not_w] no_feed ;;
  mer_micro_steps args num_iters iters logit_mask mer_x mer_y ;;
  loss <- loss_of (do_sess_run [model_train; model_reg_loss]
            (train_feed x y None num_iters iters logit_mask
               (F64.mul MER_S (learning_rate args)))) ;;
  do_sess_run [model_with_in_batch_reptile_update] (mer_feed MER_BETA) ;;
  do_update_reservior x y episodic_mem_size ;;
  ret loss.

Definition step_ER_Ring (args : Args) (episodic_mem_size : nat)
    (num_iters iters : nat) (logit_mask : Vector) (x y : Matrix)
  : Py float :=
  er_mem_indices <- er_ring_mem_indices args episodic_mem_size ;;
  m <- gets mem ;;
  ex <- or_raise IndexError (take (episodic_images m) er_mem_indices) ;;
  ey <- or_raise IndexError (take (episodic_labels m) er_mem_indices) ;;
  loss <- loss_of (do_sess_run [model_train; model_reg_loss]
            (train_feed (ex ++ x) (ey ++ y) None num_iters iters logit_mask
               (learning_rate args))) ;;
  do_update_fifo_episodic x y (mem_size args) ;;
  ret loss.

Definition step_ER_Hindsight_Anchors (args : Args)
    (episodic_mem_size task anchors_counter : nat) (num_iters iters : nat)
    (logit_mask : Vector) (x y : Matrix) : Py float :=
  anchor_idx <- anchor_mem_indices args anchors_counter ;;
  er_mem_indices <- er_ring_mem_indices args episodic_mem_size ;;
  m <- gets mem ;;
  ex <- or_raise IndexError (take (episodic_images m) er_mem_indices) ;;
  ey <- or_raise IndexError (take (episodic_labels m) er_mem_indices) ;;
  let feed_dict :=
    with_phi_hat_alpha F64.half
      (train_feed (ex ++ x) (ey ++ y) None num_iters iters logit_mask
         (learning_rate args)) in
  loss <-
    (if task =? 0 then
       out <- do_sess_run [model_phi_hat; model_train; model_reg_loss]
                feed_dict ;;
       modify (set_phi_hat (Some (fetched_phi_hat out))) ;;
       do_update_fifo_anchors x y anchors_counter ;;
       ret (fetched_loss out)
     else
       a <- gets anc ;;
       pts <- or_raise IndexError (take (anchor_images a) anchor_idx) ;;
       out <- do_sess_run [model_phi_hat; model_train_anchor;
                           model_anchor_loss; model_task_loss;
                           model_final_anchor_loss]
                (with_anchor_points pts feed_dict) ;;
       modify (set_phi_hat (Some (fetched_phi_hat out))) ;;
       ret (fetched_loss out)) ;;
  do_update_avg_image_vectors x y ;;
  do_update_fifo_episodic x y (mem_size args) ;;
  ret loss.

Definition bound (m : Py float) : Py (option float) :=
  loss <- m ;; ret (Some loss).

(** The [if]/[elif] chain of lines 295-445.  A method without a branch
    binds no [loss]. *)
Definition strategy_step (model : Model) (args : Args)
    (episodic_mem_size task anchors_counter num_iters iters : nat)
    (logit_mask : Vector) (x y : Matrix) (feed_dict : FeedDict)
  : Py (option float) :=
  let imp := model_imp_method model in
  if (imp =? "VAN")%string then bound (step_VAN feed_dict)
  else if (imp =? "FTR_EXT")%string then bound (step_FTR_EXT task feed_dict)
  else if (imp =? "EWC")%string then
    bound (step_EWC model task iters feed_dict)
  else if (imp =? "PI")%string then bound (step_PI feed_dict)
  else if (imp =? "MAS")%string then bound (step_MAS feed_dict)
  else if (imp =? "A-GEM")%string then
    bound (step_A_GEM args task logit_mask x y feed_dict)
  else if (imp =? "RWALK")%string then
    bound (step_RWALK model task iters feed_dict)
  else if (imp =? "ER-Reservoir")%string then
    bound (step_ER_Reservoir args episodic_mem_size num_iters iters
             logit_mask x y)
  else if (imp =? "MER")%string then
    bound (step_MER args episodic_mem_size num_iters iters logit_mask x y)
  else if (imp =? "ER-Ring")%string then
    bound (step_ER_Ring args episodic_mem_size num_iters iters logit_mask
             x y)
  else if (imp =? "ER-Hindsight-Anchors")%string then
    bound (step_ER_Hindsight_Anchors args episodic_mem_size task
             anchors_counter num_iters iters logit_mask x y)
  else ret None.

(** *** One iteration of the training loop, lines 276-453 *)

(** Line 279: the iterations at which a snapshot is due. *)
Definition snapshot_due (iters : nat) : bool :=
  (iters <? 10) || ((iters <? 100) && (iters mod 10 =? 0))
  || (iters mod 100 =? 0).

(** Lines 278-282: the snapshot appended to [ftask], if any. *)
Definition per_iteration_snapshot (model : Model) (args : Args)
    (datasets : list TaskData) (iters : nat) : Py (list (list float)) :=
  if train_single_epoch args && negb (cross_validate_mode args) then
    if snapshot_due iters then
      fbatch <- test_task_sequence model (test_datasets datasets)
                  (online_cross_val args) ;;
      ret [fbatch]
    else ret []
  else ret [].

(** Lines 448-453.  [loss] is a local of the whole function; every
    strategy branch binds it before these lines, and a method without a
    branch never binds it, in which case the first read raises. *)
Definition check_loss (iters : nat) (loss : option float) : Py unit :=
  match loss with
  | None => raise (UnboundLocalError "loss")
  | Some l =>
      (when (iters mod 10 =? 0) then emit (ev_print_step iters l)) ;;
      if F64.isnan l then emit ev_print_nan ;; sys_exit 0
      else ret tt
  end.

(** Lines 284-288. *)
Definition residual_of (batch_size num_train_examples offset : nat) : nat :=
  if offset + batch_size <=? num_train_examples then batch_size
  else num_train_examples - offset.

(** Lines 278-447 of one iteration: the snapshot, the batch and the
    strategy's step.  It returns what the iteration appends to [ftask] and
    the [loss] it has bound. *)
Definition iteration_body (model : Model) (args : Args)
    (datasets : list TaskData)
    (episodic_mem_size task anchors_counter : nat)
    (train_x train_y : Matrix) (task_sample_weights : Vector)
    (num_iters iters : nat) : Py (list (list float) * option float) :=
  let batch_size := batch_size args in
  let logit_mask := np_ones TOTAL_CLASSES in
  let num_train_examples := length train_x in
  snapshots <- per_iteration_snapshot model args datasets iters ;;
  offset <- py_mod (iters * batch_size) num_train_examples ;;
  let residual := residual_of batch_size num_train_examples offset in
  let feed_dict :=
    train_feed (slice train_x offset batch_size)
      (slice train_y offset batch_size)
      (Some (slice task_sample_weights offset batch_size))
      num_iters iters logit_mask (learning_rate args) in
  loss <- strategy_step model args episodic_mem_size task anchors_counter
            num_iters iters logit_mask
            (slice train_x offset residual) (slice train_y offset residual)
            feed_dict ;;
  ret (snapshots, loss).

(** The whole iteration, lines 276-453. *)
Definition train_iteration (model : Model) (args : Args)
    (datasets : list TaskData)
    (episodic_mem_size task anchors_counter : nat)
    (train_x train_y : Matrix) (task_sample_weights : Vector)
    (num_iters iters : nat) : Py (list (list float)) :=
  r <- iteration_body model args datasets episodic_mem_size task
         anchors_counter train_x train_y task_sample_weights num_iters
         iters ;;
  check_loss iters (snd r) ;;
  ret (fst r).

(** *** After the loop of a task, lines 455-512 *)

(** Lines 462-477: the anchors of the task just trained. *)
Definition hindsight_anchor_update (model : Model) (args : Args)
    (task anchors_counter : nat) (logit_mask : Vector) : Py unit :=
  (if task =? 0 then ret tt
   else
     let anchor_x := np_zeros2 TOTAL_CLASSES INPUT_FEATURE_SIZE in
     let anchor_y := np_zeros2 TOTAL_CLASSES TOTAL_CLASSES in
     let task_labels := np_arange TOTAL_CLASSES in
     p <- gets phi_hat ;;
     phi <- or_raise (UnboundLocalError "phi_hat") p ;;
     emit ev_er_mem_update_hindsight ;;
     m <- gets mem ;;
     a <- gets anc ;;
     s <- gets sess ;;
     g <- gets rng ;;
     let r := er_mem_update_hindsight model anchor_x anchor_y
                (episodic_images m) (episodic_labels m)
                (episodic_filled_counter m) task_labels logit_mask phi
                (avg_img_vectors a) args s g in
     modify (set_sess (snd (fst r))) ;;
     modify (set_rng (snd r)) ;;
     nx <- or_raise (ValueError "zero-size array")
             (normalize_tensors (fst (fst (fst r)))) ;;
     imgs <- or_raise (ValueError "could not broadcast")
               (set_slice (anchor_images a) anchors_counter TOTAL_CLASSES
                  nx) ;;
     lbls <- or_raise (ValueError "could not broadcast")
               (set_slice (anchor_labels a) anchors_counter TOTAL_CLASSES
                  (snd (fst (fst r)))) ;;
     modify (set_anc
       {| avg_img_vectors := avg_img_vectors a;
          anchor_images := imgs;
          anchor_labels := lbls;
          anchor_count_cls := anchor_count_cls a |})) ;;
  a <- gets anc ;;
  modify (set_anc
    {| avg_img_vectors :=
         map (map (fun _ => F64.zero)) (avg_img_vectors a);
       anchor_images := anchor_images a;
       anchor_labels := anchor_labels a;
       anchor_count_cls := anchor_count_cls a |}).

(** Line 481: [episodic_filled_counter += args.mem_size * TOTAL_CLASSES]. *)
Definition advance_episodic_filled_counter (args : Args) : Py unit :=
  m <- gets mem ;;
  modify (set_mem
    {| episodic_images := episodic_images m;
       episodic_labels := episodic_labels m;
       count_cls := count_cls m;
       episodic_filled_counter :=
         episodic_filled_counter m + mem_size args * TOTAL_CLASSES;
       examples_seen_so_far := examples_seen_so_far m |}).

(** Lines 491-506: the accuracies stored for the task. *)
Definition evaluate_task (model : Model) (args : Args)
    (datasets : list TaskData) (ftask : list (list float)) : Py Ftask :=
  if train_single_epoch args && negb (cross_validate_mode args) then
    fbatch <- test_task_sequence model (test_datasets datasets) false ;;
    ret (ftask_curve (ftask ++ [fbatch]))
  else if MEASURE_PERF_ON_EPS_MEMORY then
    m <- gets mem ;;
    acc <- test_task_sequence model
             (test_eps_mem (episodic_images m) (episodic_labels m))
             (online_cross_val args) ;;
    ret (ftask_acc acc)
  else
    acc <- test_task_sequence model (test_datasets datasets)
             (online_cross_val args) ;;
    ret (ftask_acc acc).

(** *** One task, lines 205-514: what it appends to [evals]. *)

(** Lines 214-512: load the task, train, update, evaluate. *)
Definition train_and_evaluate_task (model : Model) (args : Args)
    (use_episodic_memory : bool) (datasets : list TaskData)
    (episodic_mem_size task : nat) : Py (list Ftask) :=
  let anchors_counter := task * TOTAL_CLASSES in
  let logit_mask := np_ones TOTAL_CLASSES in
  loaded <- load_task args datasets task ;;
  match loaded with
  | None => ret []
  | Some (task_train_images, train_x, train_y, task_sample_weights) =>
      let num_train_examples := length train_x in
      num_iters <-
        (if train_single_epoch args
         then py_floordiv (num_train_examples + batch_size args - 1)
                (batch_size args)
         else ret (train_iters args)) ;;
      ftask <- for_each (np_arange num_iters)
                 (train_iteration model args datasets episodic_mem_size
                    task anchors_counter train_x train_y
                    task_sample_weights num_iters) ;;
      (when (model_imp_method model =? "ER-Hindsight-Anchors")%string then
         hindsight_anchor_update model args task anchors_counter
           logit_mask) ;;
      (when use_episodic_memory then
         advance_episodic_filled_counter args) ;;
      (when (task <? length datasets - 1) || MEASURE_PERF_ON_EPS_MEMORY then
         do_task_updates task task_train_images
           (np_arange TOTAL_CLASSES)) ;;
      ftask' <- evaluate_task model args datasets ftask ;;
      do_reset_optimizer ;;
      ret [ftask']
  end.

(** Lines 210-212, then the rest of the task. *)
Definition train_task (model : Model) (args : Args)
    (use_episodic_memory : bool) (datasets : list TaskData)
    (episodic_mem_size task : nat) : Py (list Ftask) :=
  (when (0 <? task) then do_restore) ;;
  train_and_evaluate_task model args use_episodic_memory datasets
    episodic_mem_size task.

(** *** One run, lines 156-516: what it appends to [runs]. *)

(** Lines 185-189. *)
Definition fresh_episodic (episodic_mem_size : nat) : Episodic :=
  {| episodic_images := np_zeros2 episodic_mem_size INPUT_FEATURE_SIZE;
     episodic_labels := np_zeros2 episodic_mem_size TOTAL_CLASSES;
     count_cls := np_zeros_int TOTAL_CLASSES;
     episodic_filled_counter := 0;
     examples_seen_so_far := 0 |}.

(** Lines 191-194. *)
Definition fresh_anchors (num_tasks : nat) : Anchors :=
  {| avg_img_vectors := np_zeros2 TOTAL_CLASSES INPUT_FEATURE_SIZE;
     anchor_images :=
       np_zeros2 (num_tasks * TOTAL_CLASSES) INPUT_FEATURE_SIZE;
     anchor_labels := np_zeros2 (num_tasks * TOTAL_CLASSES) TOTAL_CLASSES;
     anchor_count_cls := np_zeros_int TOTAL_CLASSES |}.

Definition train_run (model : Model) (args : Args)
    (use_episodic_memory : bool) (runid : nat) : Py (list (list Ftask)) :=
  do_np_random_seed (random_seed args + Z.of_nat runid) ;;
  datasets <- do_construct_permute_mnist (model_num_tasks model) ;;
  let episodic_mem_size :=
    mem_size args * model_num_tasks model * TOTAL_CLASSES in
  do_global_variables_initializer ;;
  do_init_updates ;;
  (when use_episodic_memory then
     (modify (set_mem (fresh_episodic episodic_mem_size)) ;;
      when (model_imp_method model =? "ER-Hindsight-Anchors")%string then
        modify (set_anc (fresh_anchors (model_num_tasks model))))) ;;
  evals <- for_each (np_arange (length datasets))
             (train_task model args use_episodic_memory datasets
                episodic_mem_size) ;;
  ret [evals].

(** Lines 150-153. *)
Definition uses_episodic_memory (model : Model) : bool :=
  (model_imp_method model =? "A-GEM")%string
  || (model_imp_method model =? "MER")%string
  || str_in "ER-" (model_imp_method model).

(** [train_task_sequence(model, sess, args)], lines 138-521: the
    accuracies of every run. *)
Definition train_task_sequence (model : Model) (args : Args)
  : Py (list (list Ftask)) :=
  for_each (np_arange (num_runs args))
    (train_run model args (uses_episodic_memory model)).

(** *** [main], lines 555-674 *)

Definition str_mem (s : string) (l : list string) : bool :=
  existsb (String.eqb s) l.

(** The attributes [Model(...)] is constructed with (lines 637-638). *)
Definition model_of (args : Args) (num_tasks : nat) : Model :=
  {| model_num_tasks := num_tasks;
     model_imp_method := imp_method args;
     model_fisher_update_after := fisher_update_after args |}.

Definition do_build_model (args : Args) (num_tasks : nat) : Py Model :=
  emit (ev_build_model num_tasks) ;;
  m <- gets sess ;;
  modify (set_sess (build_model args num_tasks m)) ;;
  ret (model_of args num_tasks).

Definition main (args : Args) : Py unit :=
  if negb (str_mem (arch args) VALID_ARCHS) then
    raise (ValueError ("Network architecture " ++ arch args
                       ++ " is not supported!"))
  else if negb (str_mem (imp_method args) MODELS) then
    raise (ValueError ("Importance measure " ++ imp_method args
                       ++ " is undefined!"))
  else if negb (str_mem (optim args) VALID_OPTIMS) then
    raise (ValueError ("Optimizer " ++ optim args ++ " is undefined!"))
  else
    ds <- gets dirs ;;
    (when negb (str_mem (log_dir args) ds) then
       (emit (ev_makedirs (log_dir args)) ;;
        modify (set_dirs (log_dir args :: ds)))) ;;
    emit ev_snapshot_experiment_meta_data ;;
    let num_tasks :=
      if online_cross_val args then K_FOR_CROSS_VAL
      else NUM_TASKS - K_FOR_CROSS_VAL in
    model <- do_build_model args num_tasks ;;
    runs <- train_task_sequence model args ;;
    (when cross_validate_mode args then emit ev_cross_validate_dump) ;;
    emit ev_snapshot_experiment_eval.

End Script.

(* ================================================================= *)
(** ** Notions used in the statements below *)


(** The accuracy of every task of [datasets], evaluated in session [m]. *)
Definition accuracies {M} `{Session M} (datasets : list TaskData) (m : M)
  : list float :=
  map (fun t => accuracy_eval
                  (eval_feed (images (test t)) (labels (test t))
                     (np_ones TOTAL_CLASSES)) m) datasets.

(** The evaluation calls of one snapshot: one per task, in order. *)
Definition accuracy_events (datasets : list TaskData) : list Event :=
  map (fun t => ev_accuracy_eval
                  (eval_feed (images (test t)) (labels (test t))
                     (np_ones TOTAL_CLASSES))) datasets.

(** The [sess.run] calls of a trace, each with the iteration it was fed
    ([model.train_step]). *)
Definition is_sess_run (e : Event) : bool :=
  match e with ev_sess_run _ _ => true | _ => false end.

Definition train_step_of (e : Event) : option nat :=
  match e with ev_sess_run _ feed => feed_train_step feed | _ => None end.

(** What lines 448-453 print for a NaN loss at iteration [iters]. *)
Definition nan_report (iters : nat) (l : float) : list Event :=
  (if iters mod 10 =? 0 then [ev_print_step iters l] else [])
  ++ [ev_print_nan].

(** A sample of size [k] from [r] resident examples: [min k r] distinct
    indices below [r]. *)
Definition sample_of (k r : nat) (idx : list nat) : Prop :=
  length idx = Nat.min k r /\ NoDup idx /\ forall i, In i idx -> i < r.

(** [min(counter, capacity)], as lines 367, 382, 403 and 419 compute it. *)
Definition filled_so_far (counter capacity : nat) : nat :=
  if counter <=? capacity then counter else capacity.

(** The images fed to a [sess.run]. *)
Definition fed_images (e : Event) : option Matrix :=
  match e with ev_sess_run _ feed => feed_x feed | _ => None end.

(** A program keeps [f] and emits only [E] when, from every state, the
    value of [f] in its final state is the initial one and each of its
    recorded calls satisfies [E], however the program ends. *)
Definition keeps {M R A X} (f : State M R -> X) (E : Event -> Prop)
    (m : Py M R A) : Prop :=
  forall s, f (final (m s)) = f s /\ Forall E (events (m s)).

(** The batch of iteration [iters] (lines 284-288 and the slices
    [train_x[offset:offset+residual]], [train_y[offset:offset+residual]]). *)
Definition iteration_batch (batch_size : nat) (train_x train_y : Matrix)
    (iters : nat) : Matrix * Matrix :=
  let offset := (iters * batch_size) mod length train_x in
  let residual := residual_of batch_size (length train_x) offset in
  (slice train_x offset residual, slice train_y offset residual).

(** The examples (image, label) a task's loop sees, in order. *)
Definition task_stream (batch_size : nat) (train_x train_y : Matrix)
    (iters_list : list nat) : list (Vector * Vector) :=
  flat_map (fun iters =>
              combine (fst (iteration_batch batch_size train_x train_y iters))
                      (snd (iteration_batch batch_size train_x train_y iters)))
           iters_list.

Definition has_class (c : nat) (y : Vector) : bool :=
  match label_class y with Some c' => c' =? c | None => false end.

(** The last example of class [c] in a stream, and the first one. *)
Fixpoint last_of_class (c : nat) (stream : list (Vector * Vector))
  : option (Vector * Vector) :=
  match stream with
  | [] => None
  | e :: rest =>
      match last_of_class c rest with
      | Some e' => Some e'
      | None => if has_class c (snd e) then Some e else None
      end
  end.

Definition first_of_class (c : nat) (stream : list (Vector * Vector))
  : option (Vector * Vector) :=
  find (fun e => has_class c (snd e)) stream.

(** The anchor buffer proper: images, labels and per-class counts. *)
Definition anchor_slots {M R} (s : State M R)
  : Matrix * Matrix * list nat :=
  (anchor_images (anc s), anchor_labels (anc s), anchor_count_cls (anc s)).

(** Two states agree when they hold the same session, generator and
    [phi_hat], the same episodic memory if the strategy uses one, and the
    same anchor buffers if the strategy is the hindsight-anchor one.
    (Buffers that the strategy never allocates are never read either.) *)
Definition agree {M R} (uem hind : bool) (s1 s2 : State M R) : Prop :=
  sess s1 = sess s2 /\ rng s1 = rng s2
  /\ (uem = true -> mem s1 = mem s2)
  /\ (hind = true -> anc s1 = anc s2)
  /\ phi_hat s1 = phi_hat s2.

(** A program respects [Pre] and [Post] when, started in two states
    related by [Pre], it ends the same way in both (same outcome, same
    value, same recorded calls) and, if it ends normally, in two states
    related by [Post]. *)
Definition respects {M R A} (Pre Post : State M R -> State M R -> Prop)
    (m : Py M R A) : Prop :=
  forall s1 s2, Pre s1 s2 ->
    outcome (m s1) = outcome (m s2)
    /\ events (m s1) = events (m s2)
    /\ (forall a, outcome (m s1) = Normal a ->
        Post (final (m s1)) (final (m s2))).


(** The strategies whose step reads or writes the episodic memory (lines
    322-344 and 366-445). *)
Definition memory_strategies : list string :=
  ["A-GEM"; "ER-Reservoir"; "MER"; "ER-Ring"; "ER-Hindsight-Anchors"]%string.

(** The strategies that regularize the weights: no memory, no anchors. *)
Definition regularizers : list string :=
  ["VAN"; "FTR_EXT"; "EWC"; "PI"; "MAS"; "RWALK"]%string.

(** The accuracies stored for a task: a vector with one accuracy per
    task, or, in single-epoch mode without cross-validation, a non-empty
    curve of such vectors. *)
Definition task_accuracies (args : Args) (num_tasks : nat) (ftask : Ftask)
  : Prop :=
  match ftask with
  | ftask_acc acc =>
      train_single_epoch args && negb (cross_validate_mode args) = false
      /\ length acc = num_tasks
  | ftask_curve snapshots =>
      train_single_epoch args && negb (cross_validate_mode args) = true
      /\ snapshots <> []
      /\ Forall (fun fbatch => length fbatch = num_tasks) snapshots
  end.

(** The calls made inside a task (lines 205-514): everything but the
    prologue of a run (the seed, the datasets, the initializer and the
    init ops) and the calls of [main]. *)
Definition task_event (e : Event) : bool :=
  match e with
  | ev_np_random_seed _ | ev_construct_permute_mnist _
  | ev_global_variables_initializer | ev_init_updates
  | ev_makedirs _ | ev_snapshot_experiment_meta_data | ev_build_model _
  | ev_cross_validate_dump | ev_snapshot_experiment_eval => false
  | _ => true
  end.

(** The four calls that open a run (lines 160-175). *)
Definition run_prologue (model : Model) (args : Args) (runid : nat)
  : list Event :=
  [ev_np_random_seed (random_seed args + Z.of_nat runid);
   ev_construct_permute_mnist (model_num_tasks model);
   ev_global_variables_initializer; ev_init_updates].

(** The state in which the tasks of a run start (lines 160-198). *)
Definition fresh_run_state {M R} `{Session M} `{NumpyRandom R}
    `{ErUtils M R} (model : Model) (args : Args) (uem : bool)
    (runid : nat) (s : State M R) : State M R :=
  let g0 := np_random_seed (random_seed args + Z.of_nat runid) in
  {| sess := init_updates (global_variables_initializer (sess s));
     rng := snd (construct_permute_mnist (model_num_tasks model) g0);
     dirs := dirs s;
     mem := if uem
            then fresh_episodic
                   (mem_size args * model_num_tasks model * TOTAL_CLASSES)
            else mem s;
     anc := if uem
               && (model_imp_method model =? "ER-Hindsight-Anchors")%string
            then fresh_anchors (model_num_tasks model)
            else anc s;
     phi_hat := phi_hat s |}.

(** The tasks of a run, started in that state. *)
Definition run_tasks {M R} `{Session M} `{NumpyRandom R} `{ErUtils M R}
    (model : Model) (args : Args) (uem : bool)
    (runid : nat) (s : State M R) : Result M R (list Ftask) :=
  let g0 := np_random_seed (random_seed args + Z.of_nat runid) in
  let datasets := fst (construct_permute_mnist (model_num_tasks model) g0) in
  for_each (np_arange (length datasets))
    (train_task model args uem datasets
       (mem_size args * model_num_tasks model * TOTAL_CLASSES))
    (fresh_run_state model args uem runid s).

(** The inter-task updates of a trace. *)
Definition is_task_updates (e : Event) : bool :=
  match e with ev_task_updates _ => true | _ => false end.

(** The calls that only [main] makes. *)
Definition main_event (e : Event) : bool :=
  match e with
  | ev_makedirs _ | ev_snapshot_experiment_meta_data | ev_build_model _
  | ev_cross_validate_dump | ev_snapshot_experiment_eval => true
  | _ => false
  end.

(** A training step proper: a [sess.run] that fetches one of the [train]
    nodes. *)
Definition fetches_train (e : Event) : bool :=
  match e with
  | ev_sess_run fetches _ =>
      existsb (fun f => match f with
                        | model_train | model_train_classifier
                        | model_train_first_task | model_train_subseq_tasks
                        | model_train_anchor => true
                        | _ => false
                        end) fetches
  | _ => false
  end.

(* ================================================================= *)
(** ** Concrete collaborators, for running the script on small inputs *)

(** A session that replays a list of losses, one per [sess.run]. *)
#[export] Instance toy_session : Session (list float) := {|
  build_model := fun _ _ m => m;
  sess_run := fun _ _ m =>
    match m with
    | [] => ([], {| fetched_loss := F64.zero; fetched_phi_hat := [] |})
    | l :: rest => (rest, {| fetched_loss := l; fetched_phi_hat := [] |})
    end;
  global_variables_initializer := fun m => m;
  init_updates := fun m => m;
  restore := fun m => m;
  task_updates := fun _ _ _ m => m;
  reset_optimizer := fun m => m;
  accuracy_eval := fun _ _ => F64.zero
|}.

(** A generator whose state counts the draws: a shuffle reverses on odd
    states, a choice takes the highest indices. *)
#[export] Instance toy_random : NumpyRandom nat := {|
  np_random_seed := fun s => Z.to_nat s;
  np_random_shuffle := fun a g => (if Nat.even g then a else rev a, S g);
  np_random_choice := fun n k g => (seq (n - k) k, S g);
  np_random_randint := fun lo hi g => (lo, S g)
|}.

(** An image with a single bright pixel, and a one-hot label. *)
Definition pixel_image (k : nat) : Vector :=
  repeat F64.zero k ++ [F64.one]
  ++ repeat F64.zero (INPUT_FEATURE_SIZE - 1 - k).
Definition one_hot (c : nat) : Vector :=
  repeat F64.zero c ++ [F64.one] ++ repeat F64.zero (TOTAL_CLASSES - 1 - c).

(** Two training examples of class 0 followed by one of class 1. *)
Definition toy_split : Split :=
  {| images := [pixel_image 0; pixel_image 1; pixel_image 2];
     labels := [one_hot 0; one_hot 0; one_hot 1] |}.
Definition toy_task : TaskData := {| train := toy_split; test := toy_split |}.

(** Helpers that return their buffers unchanged: no class has a resident
    example, so every generated anchor is the zero vector. *)
#[export] Instance toy_utils : ErUtils (list float) nat := {|
  construct_permute_mnist := fun n g => (repeat toy_task n, g);
  update_avg_image_vectors := fun _ _ avg _ => avg;
  er_mem_update_hindsight :=
    fun _ anchor_x anchor_y _ _ _ _ _ _ _ _ m g => ((anchor_x, anchor_y), m, g)
|}.

Definition toy_args (method : string) : Args :=
  {| cross_validate_mode := false; online_cross_val := false;
     train_single_epoch := false; eval_single_head := false;
     arch := "FC-S"; num_runs := 1; train_iters := 3; batch_size := 1;
     random_seed := 0; learning_rate := F64.point_one; optim := "SGD";
     imp_method := method; synap_stgth := F64.zero;
     fisher_ema_decay := F64.point_nine; fisher_update_after := 10;
     mem_size := 1; eps_mem_batch := 2; examples_per_task := 1000;
     anchor_eta := F64.point_one; log_dir := "./permute_mnist_results" |}.

(** The same configuration with the mode, the sizes and the importance
    period chosen. *)
Definition toy_config (method : string) (single_epoch : bool)
    (batch examples period : nat) : Args :=
  {| cross_validate_mode := false; online_cross_val := false;
     train_single_epoch := single_epoch; eval_single_head := false;
     arch := "FC-S"; num_runs := 1; train_iters := 3; batch_size := batch;
     random_seed := 0; learning_rate := F64.point_one; optim := "SGD";
     imp_method := method; synap_stgth := F64.zero;
     fisher_ema_decay := F64.point_nine; fisher_update_after := period;
     mem_size := 1; eps_mem_batch := 2; examples_per_task := examples;
     anchor_eta := F64.point_one; log_dir := "./permute_mnist_results" |}.

Definition empty_episodic : Episodic :=
  {| episodic_images := []; episodic_labels := []; count_cls := [];
     episodic_filled_counter := 0; examples_seen_so_far := 0 |}.
Definition empty_anchors : Anchors :=
  {| avg_img_vectors := []; anchor_images := []; anchor_labels := [];
     anchor_count_cls := [] |}.

(** The state of a fresh process whose session will report [losses]. *)
Definition toy_state (losses : list float) : State (list float) nat :=
  {| sess := losses; rng := 0; dirs := []; mem := empty_episodic;
     anc := empty_anchors; phi_hat := None |}.

(** A state in which the episodic memory of a one-task run holds [seen]
    reservoir examples and its ring counter stands at [filled]; the
    generator is in an odd state. *)
Definition toy_memory_state (filled seen : nat) : State (list float) nat :=
  {| sess := []; rng := 1; dirs := [];
     mem := {| episodic_images := np_zeros2 10 INPUT_FEATURE_SIZE;
               episodic_labels := np_zeros2 10 TOTAL_CLASSES;
               count_cls := np_zeros_int TOTAL_CLASSES;
               episodic_filled_counter := filled;
               examples_seen_so_far := seen |};
     anc := empty_anchors; phi_hat := None |}.

(** The state at the start of task 0 of a one-task hindsight run: the
    memory and the anchor buffers as lines 185-194 allocate them. *)
Definition toy_hindsight_state : State (list float) nat :=
  {| sess := []; rng := 1; dirs := []; mem := fresh_episodic 10;
     anc := fresh_anchors 1; phi_hat := None |}.

(** The state after task 0 of a two-task hindsight run that has bound
    [phi_hat]: twenty anchor rows, none written yet. *)
Definition toy_anchored_state : State (list float) nat :=
  {| sess := []; rng := 1; dirs := []; mem := fresh_episodic 20;
     anc := fresh_anchors 2; phi_hat := Some [] |}.

Definition toy_hindsight_model : Model :=
  {| model_num_tasks := 1; model_imp_method := "ER-Hindsight-Anchors";
     model_fisher_update_after := 10 |}.

(* ================================================================= *)
(** ** Properties *)

(** *** The monad *)

Section Monad.

Context {M R : Type}.

Lemma bind_normal {A B} (m : Py M R A) (f : A -> Py M R B) s a :
  outcome (m s) = Normal a ->
  bind m f s =
  {| outcome := outcome (f a (final (m s)));
     final := final (f a (final (m s)));
     events := events (m s) ++ events (f a (final (m s))) |}.
Proof.
  unfold bind. destruct (m s) as [o s1 e1]. cbn. intros ->.
  destruct (f a s1). reflexivity.
Qed.

Lemma bind_exit {A B} (m : Py M R A) (f : A -> Py M R B) s c :
  outcome (m s) = SystemExit c ->
  bind m f s =
  {| outcome := SystemExit c; final := final (m s); events := events (m s) |}.
Proof.
  unfold bind. destruct (m s) as [o s1 e1]. cbn. intros ->. reflexivity.
Qed.

Lemma bind_raised {A B} (m : Py M R A) (f : A -> Py M R B) s e :
  outcome (m s) = Raised e ->
  bind m f s =
  {| outcome := Raised e; final := final (m s); events := events (m s) |}.
Proof.
  unfold bind. destruct (m s) as [o s1 e1]. cbn. intros ->. reflexivity.
Qed.

(** A sequence that ends normally ran both of its parts. *)
Lemma bind_normal_inv {A B} (m : Py M R A) (f : A -> Py M R B) s b :
  outcome (bind m f s) = Normal b ->
  exists a, outcome (m s) = Normal a
    /\ outcome (f a (final (m s))) = Normal b
    /\ final (bind m f s) = final (f a (final (m s)))
    /\ events (bind m f s) = events (m s) ++ events (f a (final (m s))).
Proof.
  unfold bind. destruct (m s) as [[a|c|e] s1 e1]; cbn.
  - destruct (f a s1) as [o s2 e2] eqn:E. cbn. intros ->. exists a.
    rewrite E. cbn. auto.
  - discriminate.
  - discriminate.
Qed.

(** The iterations of a loop up to an iteration that exits are all that
    runs. *)
Lemma for_each_exit_at {X Y} (body : X -> Py M R (list Y)) pre x rest s ys c :
  outcome (for_each pre body s) = Normal ys ->
  outcome (body x (final (for_each pre body s))) = SystemExit c ->
  outcome (for_each (pre ++ x :: rest) body s) = SystemExit c
  /\ events (for_each (pre ++ x :: rest) body s)
     = events (for_each pre body s)
       ++ events (body x (final (for_each pre body s)))
  /\ final (for_each (pre ++ x :: rest) body s)
     = final (body x (final (for_each pre body s))).
Proof.
  revert s ys. induction pre as [|p pre IH]; intros s ys Hpre Hx.
  - cbn in *. rewrite (bind_exit _ _ _ Hx). cbn. auto.
  - cbn [for_each app] in *.
    apply bind_normal_inv in Hpre as (a & Ha & Hrest & Hfin & Hev).
    apply bind_normal_inv in Hrest as (zs & Hzs & _ & Hfin' & Hev').
    cbn in Hfin'. rewrite Hfin, Hfin' in Hx.
    destruct (IH _ _ Hzs Hx) as (Ho & He & Hf).
    rewrite (bind_normal _ _ _ Ha). cbn.
    rewrite (bind_exit _ _ _ Ho). cbn.
    rewrite Hev, Hev', Hfin, Hfin', He, Hf. cbn.
    rewrite app_nil_r, app_assoc. auto.
Qed.

End Monad.

(** *** Arrays *)

Lemma str_mem_In (s : string) (l : list string) :
  str_mem s l = true <-> In s l.
Proof.
  unfold str_mem. rewrite existsb_exists. split.
  - intros (x & Hin & Heq). apply String.eqb_eq in Heq. now subst.
  - intros Hin. exists s. split; [assumption|apply String.eqb_refl].
Qed.

Lemma fold_min_zeros n :
  fold_left np_min2 (repeat F64.zero n) F64.zero = F64.zero.
Proof. induction n; cbn; auto. Qed.

Lemma fold_max_zeros n :
  fold_left np_max2 (repeat F64.zero n) F64.zero = F64.zero.
Proof. induction n; cbn; auto. Qed.

Lemma normalize_row_zeros n :
  normalize_row (repeat F64.zero (S n)) = Some (repeat S754_nan (S n)).
Proof.
  unfold normalize_row.
  change (ndarray_min (repeat F64.zero (S n)))
    with (Some (fold_left np_min2 (repeat F64.zero n) F64.zero)).
  change (ndarray_max (repeat F64.zero (S n)))
    with (Some (fold_left np_max2 (repeat F64.zero n) F64.zero)).
  rewrite fold_min_zeros, fold_max_zeros, map_repeat.
  reflexivity.
Qed.

(** C3.  A row whose entries are all zero (the anchor of a class without
    resident examples) does not stay the zero vector under
    [normalize_tensors]: its range is zero, every entry becomes 0/0, and
    the row written into the anchor buffer is NaN throughout. *)
Theorem normalize_tensors_zero_rows_become_nan (rows width : nat) :
  normalize_tensors (np_zeros2 rows (S width))
  = Some (repeat (repeat S754_nan (S width)) rows).
Proof.
  unfold np_zeros2. induction rows as [|k IH].
  - reflexivity.
  - change (normalize_tensors (repeat (repeat F64.zero (S width)) (S k)))
      with (match normalize_row (repeat F64.zero (S width)),
                  normalize_tensors (repeat (repeat F64.zero (S width)) k)
            with
            | Some row', Some rest' => Some (row' :: rest')
            | _, _ => None
            end).
    rewrite normalize_row_zeros, IH. reflexivity.
Qed.

Section Properties.

Context {M R : Type}.
Context `{Session M} `{NumpyRandom R} `{ErUtils M R}.

Local Abbreviation Py := (Py M R).

(** C8.  An architecture, strategy or optimizer name outside the valid
    lists makes [main] raise [ValueError] at once: no call is made on any
    collaborator (no model is built, no run starts, no iteration runs) and
    the state is untouched. *)
Theorem invalid_configuration_is_fatal (args : Args) (s : State M R) :
  ~ In (arch args) VALID_ARCHS
  \/ ~ In (imp_method args) MODELS
  \/ ~ In (optim args) VALID_OPTIMS ->
  exists msg,
    outcome (main args s) = Raised (ValueError msg)
    /\ events (main args s) = []
    /\ final (main args s) = s.
Proof.
  intros Hbad. unfold main.
  destruct (str_mem (arch args) VALID_ARCHS) eqn:Ea; cbn [negb].
  2:{ eexists. cbn. auto. }
  destruct (str_mem (imp_method args) MODELS) eqn:Ei; cbn [negb].
  2:{ eexists. cbn. auto. }
  destruct (str_mem (optim args) VALID_OPTIMS) eqn:Eo; cbn [negb].
  2:{ eexists. cbn. auto. }
  apply str_mem_In in Ea, Ei, Eo. tauto.
Qed.

End Properties.

Lemma invalid_configuration_is_fatal_witness :
  exists msg,
    outcome (main (toy_args "no-such-method") (toy_state []))
      = Raised (ValueError msg)
    /\ events (main (toy_args "no-such-method") (toy_state [])) = []
    /\ final (main (toy_args "no-such-method") (toy_state [])) = toy_state [].
Proof.
  apply (invalid_configuration_is_fatal (toy_args "no-such-method")
           (toy_state [])).
  right; left. cbn. intros Hin.
  repeat (destruct Hin as [Hin|Hin]; [discriminate Hin|]). exact Hin.
Defined.

(** *** Evaluation and the snapshot schedule *)

Section Evaluation.

Context {M R : Type}.
Context `{Session M} `{NumpyRandom R} `{ErUtils M R}.

(** [test_task_sequence] on the datasets evaluates every task once, in
    order, and changes nothing. *)
Lemma test_task_sequence_datasets (model : Model) datasets cv
    (s : State M R) :
  outcome (test_task_sequence model (test_datasets datasets) cv s)
    = Normal (accuracies datasets (sess s))
  /\ final (test_task_sequence model (test_datasets datasets) cv s) = s
  /\ events (test_task_sequence model (test_datasets datasets) cv s)
     = accuracy_events datasets.
Proof.
  unfold test_task_sequence. cbn [TIME_MY_METHOD MEASURE_PERF_ON_EPS_MEMORY].
  unfold accuracies, accuracy_events.
  induction datasets as [|t rest IH].
  - cbn. auto.
  - destruct IH as (Ho & Hf & He).
    cbn [for_each map].
    erewrite bind_normal by reflexivity. cbn [outcome final events].
    change (final (_ s)) with s.
    erewrite bind_normal by exact Ho. cbn [outcome final events].
    rewrite Hf, He, app_nil_r. repeat split.
Qed.



End Evaluation.

(** *** Divergence: the NaN check of lines 451-453 *)

Section Divergence.

Context {M R : Type}.
Context `{Session M} `{NumpyRandom R} `{ErUtils M R}.

Lemma check_loss_nan (iters : nat) (l : float) (s : State M R) :
  F64.isnan l = true ->
  outcome (check_loss iters (Some l) s) = SystemExit 0
  /\ events (check_loss iters (Some l) s) = nan_report iters l
  /\ final (check_loss iters (Some l) s) = s.
Proof.
  intros Hnan. unfold check_loss, nan_report. rewrite Hnan.
  destruct (iters mod 10 =? 0); cbn; auto.
Qed.

(** A loss that is not NaN lets the iteration go on, infinite or not. *)
Lemma check_loss_not_nan (iters : nat) (l : float) (s : State M R) :
  F64.isnan l = false ->
  outcome (check_loss iters (Some l) s) = Normal tt
  /\ final (check_loss iters (Some l) s) = s.
Proof.
  intros Hnan. unfold check_loss. rewrite Hnan.
  destruct (iters mod 10 =? 0); cbn; auto.
Qed.

Lemma train_iteration_nan (model : Model) (args : Args) datasets
    ems task ac train_x train_y w num_iters iters (s : State M R) snaps l :
  outcome (iteration_body model args datasets ems task ac train_x train_y w
             num_iters iters s) = Normal (snaps, Some l) ->
  F64.isnan l = true ->
  outcome (train_iteration model args datasets ems task ac train_x train_y
             w num_iters iters s) = SystemExit 0
  /\ events (train_iteration model args datasets ems task ac train_x
               train_y w num_iters iters s)
     = events (iteration_body model args datasets ems task ac train_x
                 train_y w num_iters iters s) ++ nan_report iters l
  /\ final (train_iteration model args datasets ems task ac train_x train_y
              w num_iters iters s)
     = final (iteration_body model args datasets ems task ac train_x
                train_y w num_iters iters s).
Proof.
  intros Hbody Hnan. unfold train_iteration.
  rewrite (bind_normal _ _ _ Hbody). cbn [outcome final events snd].
  destruct (@check_loss_nan iters l
              (final (iteration_body model args datasets ems task ac
                        train_x train_y w num_iters iters s)) Hnan)
    as (Ho & He & Hf).
  rewrite (bind_exit _ _ _ Ho). cbn [outcome final events].
  rewrite He, Hf. auto.
Qed.

(** C1 (amended).  In every training iteration of every strategy, if the
    loss bound by the iteration is NaN, the process exits at once
    ([sys.exit(0)]) after reporting it.  Whatever ran before the iteration
    and whatever was to run after it (the remaining iterations, tasks and
    runs), the program ends with the events of that iteration followed by
    the report, and nothing else; in particular the training loop runs no
    iteration after the offending one. *)
Theorem nan_loss_terminates_process
    (X A : Type) (before : Py M R X) (after : list (list float) -> Py M R A)
    (model : Model) (args : Args) datasets ems task ac train_x train_y w
    num_iters iters (s0 : State M R) x snaps l :
  outcome (before s0) = Normal x ->
  outcome (iteration_body model args datasets ems task ac train_x train_y w
             num_iters iters (final (before s0))) = Normal (snaps, Some l) ->
  F64.isnan l = true ->
  (outcome ((_ <- before ;;
             snapshots <- train_iteration model args datasets ems task ac
                            train_x train_y w num_iters iters ;;
             after snapshots) s0) = SystemExit 0
   /\ events ((_ <- before ;;
               snapshots <- train_iteration model args datasets ems task ac
                              train_x train_y w num_iters iters ;;
               after snapshots) s0)
      = events (before s0)
        ++ events (iteration_body model args datasets ems task ac train_x
                     train_y w num_iters iters (final (before s0)))
        ++ nan_report iters l)
  /\ (forall rest,
        outcome (for_each (iters :: rest)
                   (train_iteration model args datasets ems task ac train_x
                      train_y w num_iters) (final (before s0)))
          = SystemExit 0
        /\ events (for_each (iters :: rest)
                     (train_iteration model args datasets ems task ac
                        train_x train_y w num_iters) (final (before s0)))
           = events (iteration_body model args datasets ems task ac train_x
                       train_y w num_iters iters (final (before s0)))
             ++ nan_report iters l).
Proof.
  intros Hbefore Hbody Hnan.
  destruct (@train_iteration_nan model args datasets ems task ac train_x
              train_y w num_iters iters (final (before s0)) snaps l
              Hbody Hnan)
    as (Ho & He & Hf).
  split.
  - rewrite (bind_normal _ _ _ Hbefore). cbn [outcome final events].
    rewrite (bind_exit _ _ _ Ho). cbn [outcome final events].
    rewrite He. auto.
  - intros rest. cbn [for_each].
    rewrite (bind_exit _ _ _ Ho). cbn [outcome final events].
    rewrite He. auto.
Qed.

End Divergence.

Lemma nan_loss_terminates_process_witness :
  outcome ((_ <- train_task_sequence (model_of (toy_args "VAN") 0)
                   (toy_args "VAN") ;;
            snapshots <- train_iteration (model_of (toy_args "VAN") 1)
                           (toy_args "VAN") [toy_task] 0 0 0
                           (images toy_split) (labels toy_split)
                           (np_ones 3) 3 0 ;;
            ret snapshots) (toy_state [S754_nan])) = SystemExit 0
  /\ forall rest,
       outcome (for_each (0 :: rest)
                  (train_iteration (model_of (toy_args "VAN") 1)
                     (toy_args "VAN") [toy_task] 0 0 0
                     (images toy_split) (labels toy_split) (np_ones 3) 3)
                  (toy_state [S754_nan])) = SystemExit 0.
Proof.
  destruct (@nan_loss_terminates_process _ _ _ _ _ _ (list (list float))
              (train_task_sequence (model_of (toy_args "VAN") 0)
                 (toy_args "VAN"))
              (fun snapshots => ret snapshots)
              (model_of (toy_args "VAN") 1) (toy_args "VAN") [toy_task]
              0 0 0 (images toy_split) (labels toy_split) (np_ones 3) 3 0
              (toy_state [S754_nan]) [[]] [] S754_nan)
    as ((Ho & _) & Hloop).
  - vm_compute. reflexivity.
  - vm_compute. reflexivity.
  - reflexivity.
  - split; [exact Ho|]. intros rest. exact (proj1 (Hloop rest)).
Defined.

(** C1 as stated fails for a loss that is infinite: [math.isnan] is false
    on it.  The session reports +infinity at iteration 0; the run is not
    interrupted, and the training steps of iterations 1 and 2 follow. *)
Lemma infinite_loss_does_not_terminate :
  F64.is_finite (S754_infinity false) = false
  /\ In (ev_print_step 0 (S754_infinity false))
        (events (train_task_sequence (model_of (toy_args "VAN") 1)
                   (toy_args "VAN") (toy_state [S754_infinity false])))
  /\ (exists runs,
        outcome (train_task_sequence (model_of (toy_args "VAN") 1)
                   (toy_args "VAN") (toy_state [S754_infinity false]))
        = Normal runs)
  /\ map train_step_of
       (filter is_sess_run
          (events (train_task_sequence (model_of (toy_args "VAN") 1)
                     (toy_args "VAN") (toy_state [S754_infinity false]))))
     = [Some 0; Some 1; Some 2].
Proof.
  split; [reflexivity|]. split; [|split].
  - vm_compute. do 5 right. left. reflexivity.
  - eexists. vm_compute. reflexivity.
  - vm_compute. reflexivity.
Qed.

(** *** The A-GEM step, lines 322-344 *)

(** Symbolic execution of a program on a state given by its fields. *)
Ltac py_run :=
  cbv [bind emit gets modify ret raise sys_exit or_raise outcome final
       events set_sess set_rng set_dirs set_mem set_anc set_phi_hat
       sess rng dirs mem anc phi_hat];
  cbn [app].

Section GradientProjection.

Context {M R : Type}.
Context `{Session M} `{NumpyRandom R} `{ErUtils M R}.


End GradientProjection.

(** *** Memory samples, lines 328-332, 367-369, 403-404, 417-420 *)

Section MemorySample.

Context {M R : Type}.
Context `{Session M} `{NumpyRandom R} `{ErUtils M R}.

Lemma sample_of_arange (k r : nat) : r <= k -> sample_of k r (np_arange r).
Proof.
  intros Hle. unfold sample_of, np_arange. rewrite length_seq.
  repeat split.
  - lia.
  - apply seq_NoDup.
  - intros i Hi. apply in_seq in Hi. lia.
Qed.


(** The conditional of the script: all indices in order when there are at
    most [k], otherwise a choice without replacement. *)
Lemma sample_indices_spec (Hspec : NumpyRandomSpec R) (r k : nat)
    (s : State M R) :
  exists idx,
    outcome (sample_indices r k s) = Normal idx
    /\ events (sample_indices r k s) = []
    /\ sample_of k r idx
    /\ (r <= k -> idx = np_arange r /\ final (sample_indices r k s) = s)
    /\ mem (final (sample_indices r k s)) = mem s.
Proof.
  unfold sample_indices. destruct (Nat.leb_spec r k) as [Hle|Hgt].
  - exists (np_arange r). cbn [ret outcome events final].
    split; [reflexivity|]. split; [reflexivity|].
    split; [apply sample_of_arange; assumption|]. split; auto.
  - exists (fst (np_random_choice r k (rng s))).
    destruct s as [m g d me an ph].
    unfold do_np_random_choice. py_run. repeat split.
    + rewrite (choice_length Hspec); lia.
    + apply (choice_nodup Hspec); lia.
    + intros i. apply (choice_range Hspec); lia.
    + intros; lia.
    + intros; lia.
Qed.


End MemorySample.

Lemma toy_random_spec : NumpyRandomSpec nat.
Proof.
  constructor; cbn.
  - intros a g. destruct (Nat.even g); cbn.
    + apply Permutation_refl.
    + apply Permutation_sym, Permutation_rev.
  - intros n k g _. apply length_seq.
  - intros n k g _. apply seq_NoDup.
  - intros n k g i Hle Hi. apply in_seq in Hi. lia.
Qed.



(** *** What a part of the script leaves unchanged

    One pass over the script for a projection [f] of the state that no
    write changes and a class [E] of calls that contains every call but
    [model.restore]. *)

Create HintDb keeps.

Section Frame.

Context {M R : Type}.
Context `{Session M} `{NumpyRandom R} `{ErUtils M R}.

Variable X : Type.
Variable f : State M R -> X.
Variable E : Event -> Prop.

Hypothesis f_sess : forall v s, f (set_sess v s) = f s.
Hypothesis f_rng : forall v s, f (set_rng v s) = f s.
Hypothesis f_phi : forall v s, f (set_phi_hat v s) = f s.
Hypothesis f_anc : forall v s, f (set_anc v s) = f s.
Hypothesis f_mem : forall v s,
  episodic_filled_counter v = episodic_filled_counter (mem s) ->
  f (set_mem v s) = f s.
Hypothesis E_other : forall e, e <> ev_restore -> E e.

Lemma keeps_ret {A} (a : A) : keeps f E (ret a).
Proof. intros s. cbn. auto. Qed.

Lemma keeps_raise {A} (e : PyExc) : keeps f E (raise (A:=A) e).
Proof. intros s. cbn. auto. Qed.

Lemma keeps_sys_exit {A} (c : Z) : keeps f E (sys_exit (A:=A) c).
Proof. intros s. cbn. auto. Qed.

Lemma keeps_gets {A} (g : State M R -> A) : keeps f E (gets g).
Proof. intros s. cbn. auto. Qed.

Lemma keeps_emit (e : Event) : E e -> keeps f E (emit e).
Proof. intros He s. cbn. auto. Qed.

Lemma keeps_modify (g : State M R -> State M R) :
  (forall s, f (g s) = f s) -> keeps f E (modify g).
Proof. intros Hg s. cbn. auto. Qed.

Lemma keeps_or_raise {A} (e : PyExc) (o : option A) :
  keeps f E (or_raise e o).
Proof. destruct o; [apply keeps_ret|apply keeps_raise]. Qed.

Lemma keeps_py_mod (a b : nat) : keeps f E (py_mod a b).
Proof. destruct b; [apply keeps_raise|apply keeps_ret]. Qed.

Lemma keeps_py_floordiv (a b : nat) : keeps f E (py_floordiv a b).
Proof. destruct b; [apply keeps_raise|apply keeps_ret]. Qed.

Lemma keeps_bind {A B} (m : Py M R A) (k : A -> Py M R B) :
  keeps f E m -> (forall a, keeps f E (k a)) -> keeps f E (bind m k).
Proof.
  intros Hm Hk s. specialize (Hm s). unfold bind.
  destruct (m s) as [[a|c|e] s1 e1]; cbn in *; auto.
  specialize (Hk a s1). destruct (k a s1) as [o s2 e2]. cbn in *.
  destruct Hm as (Hf & He), Hk as (Hf' & He'). split.
  - congruence.
  - apply Forall_app. auto.
Qed.

Lemma keeps_for_each {A B} (xs : list A) (body : A -> Py M R (list B)) :
  (forall x, keeps f E (body x)) -> keeps f E (for_each xs body).
Proof.
  intros Hb. induction xs as [|x xs IH]; cbn [for_each].
  - apply keeps_ret.
  - apply keeps_bind; [apply Hb|]. intros ys.
    apply keeps_bind; [apply IH|]. intros zs. apply keeps_ret.
Qed.

Ltac keeps_leaf :=
  first
    [ apply keeps_ret | apply keeps_raise | apply keeps_sys_exit
    | apply keeps_gets | apply keeps_or_raise | apply keeps_py_mod
    | apply keeps_py_floordiv
    | apply keeps_emit; apply E_other; discriminate
    | apply keeps_modify; intros;
      first [ apply f_sess | apply f_rng | apply f_phi | apply f_anc
            | apply f_mem; reflexivity ] ].

Ltac keeps_go :=
  repeat
    match goal with
    | |- keeps _ _ (bind _ _) => apply keeps_bind; [|intros]
    | |- keeps _ _ (for_each _ _) => apply keeps_for_each; intros
    | |- keeps _ _ (if ?b then _ else _) => destruct b
    | |- keeps _ _ (match ?o with _ => _ end) => destruct o
    | |- keeps _ _ _ => first [ keeps_leaf | solve [auto with keeps] ]
    end.

Lemma keeps_do_sess_run fetches feed : keeps f E (do_sess_run fetches feed).
Proof. unfold do_sess_run. keeps_go. Qed.

Lemma keeps_do_global_variables_initializer :
  keeps f E do_global_variables_initializer.
Proof. unfold do_global_variables_initializer. keeps_go. Qed.

Lemma keeps_do_init_updates : keeps f E do_init_updates.
Proof. unfold do_init_updates. keeps_go. Qed.

Lemma keeps_do_task_updates task imgs lbls :
  keeps f E (do_task_updates task imgs lbls).
Proof. unfold do_task_updates. keeps_go. Qed.

Lemma keeps_do_reset_optimizer : keeps f E do_reset_optimizer.
Proof. unfold do_reset_optimizer. keeps_go. Qed.

Lemma keeps_do_accuracy_eval feed : keeps f E (do_accuracy_eval feed).
Proof. unfold do_accuracy_eval. keeps_go. Qed.

Lemma keeps_do_np_random_seed z : keeps f E (do_np_random_seed z).
Proof. unfold do_np_random_seed. keeps_go. Qed.

Lemma keeps_do_np_random_shuffle a : keeps f E (do_np_random_shuffle a).
Proof. unfold do_np_random_shuffle. keeps_go. Qed.

Lemma keeps_do_np_random_choice n k : keeps f E (do_np_random_choice n k).
Proof. unfold do_np_random_choice. keeps_go. Qed.

Lemma keeps_do_construct_permute_mnist n :
  keeps f E (do_construct_permute_mnist n).
Proof. unfold do_construct_permute_mnist. keeps_go. Qed.

Hint Resolve keeps_do_sess_run keeps_do_global_variables_initializer
  keeps_do_init_updates keeps_do_task_updates keeps_do_reset_optimizer
  keeps_do_accuracy_eval keeps_do_np_random_seed keeps_do_np_random_shuffle
  keeps_do_np_random_choice keeps_do_construct_permute_mnist : keeps.

(** The buffer updates write the memory but pass the counter on as it
    is. *)
Lemma keeps_do_update_fifo_episodic x y mpc :
  keeps f E (do_update_fifo_episodic x y mpc).
Proof.
  intros s. unfold do_update_fifo_episodic.
  rewrite (bind_normal _ _ _ (a:=mem s)) by reflexivity.
  cbn [outcome final events gets app].
  erewrite bind_normal by reflexivity.
  cbn [outcome final events emit app].
  destruct (update_fifo_buffer x y _ _ _ _ _ _) as [r|];
    cbn [or_raise]; py_run.
  - split; [apply f_mem; reflexivity|].
    repeat constructor. apply E_other. discriminate.
  - split; [reflexivity|]. repeat constructor. apply E_other. discriminate.
Qed.

Lemma keeps_do_update_reservior x y ems :
  keeps f E (do_update_reservior x y ems).
Proof.
  intros s. unfold do_update_reservior. destruct s as [m g d me an ph].
  py_run.
  destruct (update_reservior x y _ _ _ _ _) as [[r|] g']; cbn [fst snd];
    (split; [|repeat constructor; apply E_other; discriminate]).
  - match goal with
    | |- f (Build_State _ _ _ ?v _ _) = f ?s0 =>
        pose proof (f_mem v (set_rng g' s0)) as Hm;
        pose proof (f_rng g' s0) as Hr
    end.
    unfold set_mem, set_rng in Hm, Hr.
    cbn [sess rng dirs mem anc phi_hat] in Hm, Hr.
    rewrite Hm by reflexivity. exact Hr.
  - match goal with
    | |- _ = f ?s0 => pose proof (f_rng g' s0) as Hr
    end.
    unfold set_rng in Hr. cbn [sess rng dirs mem anc phi_hat] in Hr.
    exact Hr.
Qed.

Lemma keeps_do_update_avg_image_vectors x y :
  keeps f E (do_update_avg_image_vectors x y).
Proof. unfold do_update_avg_image_vectors. keeps_go. Qed.

Lemma keeps_do_update_fifo_anchors x y ac :
  keeps f E (do_update_fifo_anchors x y ac).
Proof. unfold do_update_fifo_anchors. keeps_go. Qed.

Hint Resolve keeps_do_update_fifo_episodic keeps_do_update_reservior
  keeps_do_update_avg_image_vectors keeps_do_update_fifo_anchors : keeps.

Lemma keeps_sample_indices r k : keeps f E (sample_indices r k).
Proof. unfold sample_indices. keeps_go. Qed.
Hint Resolve keeps_sample_indices : keeps.

Lemma keeps_agem_mem_sample_mask args :
  keeps f E (agem_mem_sample_mask args).
Proof. unfold agem_mem_sample_mask. keeps_go. Qed.

Lemma keeps_er_reservoir_mem_indices args ems :
  keeps f E (er_reservoir_mem_indices args ems).
Proof. unfold er_reservoir_mem_indices. keeps_go. Qed.

Lemma keeps_er_ring_mem_indices args ems :
  keeps f E (er_ring_mem_indices args ems).
Proof. unfold er_ring_mem_indices. keeps_go. Qed.

Lemma keeps_anchor_mem_indices args ac :
  keeps f E (anchor_mem_indices args ac).
Proof. unfold anchor_mem_indices. keeps_go. Qed.

Hint Resolve keeps_agem_mem_sample_mask keeps_er_reservoir_mem_indices
  keeps_er_ring_mem_indices keeps_anchor_mem_indices : keeps.

Lemma keeps_test_task_sequence model td cv :
  keeps f E (test_task_sequence model td cv).
Proof. unfold test_task_sequence. keeps_go. Qed.
Hint Resolve keeps_test_task_sequence : keeps.

Lemma keeps_shuffled_examples args t : keeps f E (shuffled_examples args t).
Proof. unfold shuffled_examples. keeps_go. Qed.
Hint Resolve keeps_shuffled_examples : keeps.

Lemma keeps_load_task args datasets task :
  keeps f E (load_task args datasets task).
Proof. unfold load_task. keeps_go. Qed.

Lemma keeps_mer_micro_steps args num_iters iters mask mx my :
  keeps f E (mer_micro_steps args num_iters iters mask mx my).
Proof.
  revert my. induction mx as [|ex xs IH]; intros [|ey ys];
    cbn [mer_micro_steps]; keeps_go.
Qed.
Hint Resolve keeps_load_task keeps_mer_micro_steps : keeps.

Lemma keeps_strategy_step model args ems task ac num_iters iters mask x y
    feed_dict :
  keeps f E (strategy_step model args ems task ac num_iters iters mask x y
               feed_dict).
Proof.
  unfold strategy_step, bound, step_VAN, step_FTR_EXT, step_EWC, step_PI,
    step_MAS, step_A_GEM, step_RWALK, step_ER_Reservoir, step_MER,
    step_ER_Ring, step_ER_Hindsight_Anchors, loss_of.
  keeps_go.
Qed.

Lemma keeps_per_iteration_snapshot model args datasets iters :
  keeps f E (per_iteration_snapshot model args datasets iters).
Proof. unfold per_iteration_snapshot. keeps_go. Qed.

Lemma keeps_check_loss iters loss : keeps f E (check_loss iters loss).
Proof. unfold check_loss. keeps_go. Qed.

Hint Resolve keeps_strategy_step keeps_per_iteration_snapshot
  keeps_check_loss : keeps.

Lemma keeps_iteration_body model args datasets ems task ac train_x train_y
    w num_iters iters :
  keeps f E (iteration_body model args datasets ems task ac train_x train_y
               w num_iters iters).
Proof. unfold iteration_body. keeps_go. Qed.
Hint Resolve keeps_iteration_body : keeps.

(** The counter, or any such [f], is the same after an iteration as
    before it, and an iteration never calls [model.restore]. *)
Lemma keeps_train_iteration model args datasets ems task ac train_x train_y
    w num_iters iters :
  keeps f E (train_iteration model args datasets ems task ac train_x train_y
               w num_iters iters).
Proof. unfold train_iteration. keeps_go. Qed.
Hint Resolve keeps_train_iteration : keeps.

Lemma keeps_hindsight_anchor_update model args task ac mask :
  keeps f E (hindsight_anchor_update model args task ac mask).
Proof. unfold hindsight_anchor_update. keeps_go. Qed.

Lemma keeps_evaluate_task model args datasets ftask :
  keeps f E (evaluate_task model args datasets ftask).
Proof. unfold evaluate_task. keeps_go. Qed.

Lemma keeps_advance_episodic_filled_counter args :
  (forall v s, f (set_mem v s) = f s) ->
  keeps f E (advance_episodic_filled_counter args).
Proof.
  intros Hany. unfold advance_episodic_filled_counter.
  apply keeps_bind; [apply keeps_gets|]. intros m.
  apply keeps_modify. intros s. apply Hany.
Qed.

(** Nothing in a task after line 212 calls [model.restore]. *)
Lemma keeps_train_and_evaluate_task model args uem datasets ems task :
  (forall v s, f (set_mem v s) = f s) ->
  keeps f E (train_and_evaluate_task model args uem datasets ems task).
Proof.
  intros Hany. unfold train_and_evaluate_task.
  pose proof (keeps_advance_episodic_filled_counter args Hany).
  pose proof keeps_hindsight_anchor_update.
  pose proof keeps_evaluate_task.
  keeps_go.
Qed.

End Frame.

(** *** The restore at the start of a task, lines 210-212 *)

Section RestoreBoundary.

Context {M R : Type}.
Context `{Session M} `{NumpyRandom R} `{ErUtils M R}.

Lemma ends_with_app {A} (a l t : list A) :
  (exists front, l = front ++ t) -> exists front, a ++ l = front ++ t.
Proof. intros (front & ->). exists (a ++ front). apply app_assoc. Qed.

Lemma load_task_loads (args : Args) datasets task (s : State M R) loaded :
  outcome (load_task args datasets task s) = Normal loaded ->
  loaded <> None.
Proof.
  unfold load_task. cbn [MULTI_TASK]. intros Hl.
  apply bind_normal_inv in Hl as (e & _ & Hret & _).
  cbn in Hret. injection Hret as <-. discriminate.
Qed.

Lemma evaluate_task_events (model : Model) (args : Args) datasets ftask
    (s : State M R) :
  events (evaluate_task model args datasets ftask s)
  = accuracy_events datasets.
Proof.
  unfold evaluate_task. cbn [MEASURE_PERF_ON_EPS_MEMORY].
  destruct (train_single_epoch args && negb (cross_validate_mode args)).
  - destruct (test_task_sequence_datasets model datasets false s)
      as (Ho & Hf & He).
    rewrite (bind_normal _ _ _ Ho). cbn [events ret].
    rewrite He. apply app_nil_r.
  - destruct (test_task_sequence_datasets model datasets
                (online_cross_val args) s) as (Ho & Hf & He).
    rewrite (bind_normal _ _ _ Ho). cbn [events ret].
    rewrite He. apply app_nil_r.
Qed.

Lemma task_never_restores_after_line_212 (model : Model) (args : Args) uem
    datasets ems task (s : State M R) :
  ~ In ev_restore
      (events (train_and_evaluate_task model args uem datasets ems task s)).
Proof.
  destruct (@keeps_train_and_evaluate_task M R _ _ _ unit (fun _ => tt)
              (fun e => e <> ev_restore)
              (fun _ _ => eq_refl) (fun _ _ => eq_refl)
              (fun _ _ => eq_refl) (fun _ _ => eq_refl)
              (fun _ _ _ => eq_refl) (fun _ He => He)
              model args uem datasets ems task (fun _ _ => eq_refl) s)
    as (_ & Hall).
  intros Hin. rewrite Forall_forall in Hall. exact (Hall _ Hin eq_refl).
Qed.

(** C6.  A task with index 0 never calls [model.restore].  A task with a
    later index calls it exactly once, as its first call: before the data
    of the task are loaded and before any training step, and the rest of
    the task starts from the restored session.  A task that is not the
    last one and ends normally ends with the inter-task update, the
    evaluation of every task and the reset of the optimizer, in this
    order: between the inter-task update of one task and the restore of
    the next there is no training step. *)
Theorem restore_precedes_training_of_later_tasks (model : Model)
    (args : Args) (uem : bool) (datasets : list TaskData) (ems task : nat)
    (s : State M R) :
  let r := train_task model args uem datasets ems task s in
  (task = 0 -> ~ In ev_restore (events r))
  /\ (0 < task ->
      exists rest,
        events r = ev_restore :: rest
        /\ ~ In ev_restore rest
        /\ rest = events (train_and_evaluate_task model args uem datasets
                            ems task (set_sess (restore (sess s)) s)))
  /\ (forall v, outcome r = Normal v -> task < length datasets - 1 ->
      exists front,
        events r = front ++ ev_task_updates task
                         :: accuracy_events datasets
                         ++ [ev_reset_optimizer]).
Proof.
  cbv zeta. unfold train_task. split; [|split].
  - intros ->. cbn [Nat.ltb Nat.leb].
    rewrite (bind_normal _ _ _ (a:=tt)) by reflexivity.
    cbn [outcome final events ret app].
    apply task_never_restores_after_line_212.
  - intros Hpos. destruct (Nat.ltb_spec 0 task) as [_|]; [|lia].
    rewrite (bind_normal _ _ _ (a:=tt)) by (destruct s; reflexivity).
    assert (Hs : final (do_restore s) = set_sess (restore (sess s)) s)
      by (destruct s; reflexivity).
    assert (He : events (do_restore s) = [ev_restore])
      by (destruct s; reflexivity).
    cbn [outcome final events]. rewrite Hs, He. cbn [app].
    eexists. split; [reflexivity|]. split; [|reflexivity].
    apply task_never_restores_after_line_212.
  - intros v Hv Hlast.
    apply bind_normal_inv in Hv as ([] & _ & Hv & _ & ->).
    set (s1 := final ((when (0 <? task) then do_restore) s)) in *.
    set (e0 := events ((when (0 <? task) then do_restore) s)).
    clearbody s1 e0. revert Hv. unfold train_and_evaluate_task.
    intros Hv.
    apply bind_normal_inv in Hv as (loaded & Hl & Hv & _ & ->).
    destruct loaded as [[[[tti tx] ty] tw]|];
      [|exfalso; exact (load_task_loads _ _ _ _ Hl eq_refl)].
    apply bind_normal_inv in Hv as (num_iters & _ & Hv & _ & ->).
    apply bind_normal_inv in Hv as (ftask & _ & Hv & _ & ->).
    apply bind_normal_inv in Hv as ([] & _ & Hv & _ & ->).
    apply bind_normal_inv in Hv as ([] & _ & Hv & _ & ->).
    apply bind_normal_inv in Hv as ([] & _ & Hv & _ & Hupd).
    rewrite Hupd. clear Hupd.
    apply bind_normal_inv in Hv as (ftask' & _ & Hv & _ & ->).
    apply bind_normal_inv in Hv as ([] & _ & _ & _ & ->).
    rewrite evaluate_task_events.
    destruct (Nat.ltb_spec task (length datasets - 1)) as [_|]; [|lia].
    cbn [orb].
    match goal with
    | |- context [events (do_task_updates ?t ?i ?l ?st)] =>
        assert (Hu : events (do_task_updates t i l st) = [ev_task_updates t])
          by (destruct st; reflexivity);
        rewrite Hu
    end.
    match goal with
    | |- context [events (do_reset_optimizer ?st)] =>
        assert (Hr : events (do_reset_optimizer st) = [ev_reset_optimizer])
          by (destruct st; reflexivity);
        rewrite Hr
    end.
    cbn [events ret]. rewrite app_nil_r, <- ?app_assoc. cbn [app].
    repeat first [ exists []; reflexivity | apply ends_with_app ].
Qed.

End RestoreBoundary.

(** *** The episodic counter, lines 188, 328-344, 402-414, 479-481 *)

Lemma set_item_other {A} (a a' : list A) (j : nat) (v : A) :
  set_item a j v = Some a' ->
  forall i, i <> j -> nth_error a' i = nth_error a i.
Proof.
  revert a' j. induction a as [|h rest IH]; intros a' j Hs i Hne.
  - destruct j; discriminate.
  - destruct j as [|j]; cbn in Hs.
    + injection Hs as <-. destruct i; [congruence|reflexivity].
    + destruct (set_item rest j v) as [rest'|] eqn:Er; [|discriminate].
      injection Hs as <-. destruct i; [reflexivity|].
      cbn. apply (IH _ _ Er). congruence.
Qed.

Lemma set_item_same {A} (a a' : list A) (j : nat) (v : A) :
  set_item a j v = Some a' -> nth_error a' j = Some v.
Proof.
  revert a' j. induction a as [|h rest IH]; intros a' j Hs.
  - destruct j; discriminate.
  - destruct j as [|j]; cbn in Hs.
    + injection Hs as <-. reflexivity.
    + destruct (set_item rest j v) as [rest'|] eqn:Er; [|discriminate].
      injection Hs as <-. cbn. apply (IH _ _ Er).
Qed.

(** One example offered to the FIFO buffer: the slot it is written to. *)
Lemma update_fifo_buffer_cons er_x xs er_y ys imgs lbls task_labels mpc cnt
    off res :
  update_fifo_buffer (er_x :: xs) (er_y :: ys) imgs lbls task_labels mpc
    cnt off = Some res ->
  exists cls j n k imgs1 lbls1 cnt1,
    label_class er_y = Some cls
    /\ index_of cls task_labels = Some j
    /\ nth_error cnt cls = Some n
    /\ k < mpc /\ k = n mod mpc
    /\ set_item imgs (off + j * mpc + k) er_x = Some imgs1
    /\ set_item lbls (off + j * mpc + k) er_y = Some lbls1
    /\ set_item cnt cls (S n) = Some cnt1
    /\ update_fifo_buffer xs ys imgs1 lbls1 task_labels mpc cnt1 off
       = Some res.
Proof.
  cbn [update_fifo_buffer]. intros Hu.
  destruct (label_class er_y) as [cls|] eqn:Ecls; [|discriminate].
  destruct (index_of cls task_labels) as [j|] eqn:Ej; [|discriminate].
  destruct (nth_error cnt cls) as [n|] eqn:En; [|discriminate].
  cbv zeta in Hu.
  assert (Hk : exists k,
             (if Nat.min n mpc <? mpc then Some (Nat.min n mpc)
              else match mpc with 0 => None | S _ => Some (n mod mpc) end)
             = Some k /\ k < mpc /\ k = n mod mpc).
  { destruct (Nat.ltb_spec (Nat.min n mpc) mpc) as [Hlt|Hge].
    - exists (Nat.min n mpc). split; [reflexivity|]. split; [assumption|].
      rewrite Nat.min_l by lia. symmetry. apply Nat.mod_small. lia.
    - destruct mpc as [|p]; [exfalso|].
      + destruct (Nat.min n 0 <? 0) eqn:E0 in Hu; discriminate.
      + exists (n mod S p). split; [reflexivity|]. split; [|reflexivity].
        apply Nat.mod_upper_bound. discriminate. }
  destruct Hk as (k & Ek & Hlt & Hmod). rewrite Ek in Hu.
  destruct (set_item imgs _ er_x) as [imgs1|] eqn:Ei; [|discriminate].
  destruct (set_item lbls _ er_y) as [lbls1|] eqn:El; [|discriminate].
  destruct (set_item cnt cls (S n)) as [cnt1|] eqn:Ec; [|discriminate].
  exists cls, j, n, k, imgs1, lbls1, cnt1. repeat split; auto.
Qed.

(** The FIFO update writes at or above the offset it is given. *)
Lemma update_fifo_buffer_below_offset x y imgs lbls task_labels mpc cnt off
    imgs' lbls' cnt' :
  update_fifo_buffer x y imgs lbls task_labels mpc cnt off
    = Some (imgs', lbls', cnt') ->
  forall i, i < off ->
    nth_error imgs' i = nth_error imgs i
    /\ nth_error lbls' i = nth_error lbls i.
Proof.
  revert y imgs lbls cnt.
  induction x as [|er_x xs IH]; intros y imgs lbls cnt Hu i Hi.
  - cbn in Hu. injection Hu as <- <- <-. auto.
  - destruct y as [|er_y ys].
    + cbn in Hu. injection Hu as <- <- <-. auto.
    + apply update_fifo_buffer_cons in Hu
        as (cls & j & n & k & imgs1 & lbls1 & cnt1 & _ & _ & _ & _ & _
            & Ei & El & _ & Hrest).
      destruct (IH _ _ _ _ Hrest i Hi) as (H1 & H2).
      rewrite H1, H2. split.
      * eapply set_item_other; [exact Ei|lia].
      * eapply set_item_other; [exact El|lia].
Qed.

Section EpisodicCounter.

Context {M R : Type}.
Context `{Session M} `{NumpyRandom R} `{ErUtils M R}.

Let counter (s : State M R) : nat := episodic_filled_counter (mem s).

(** What keeps the counter: everything that writes the session, the
    generator, the anchors or [phi_hat], and every write to the memory
    that passes the counter on. *)
Lemma counter_kept {A} (m : Py M R A) :
  (forall (E : Event -> Prop),
     (forall v s, counter (set_sess v s) = counter s) ->
     (forall v s, counter (set_rng v s) = counter s) ->
     (forall v s, counter (set_phi_hat v s) = counter s) ->
     (forall v s, counter (set_anc v s) = counter s) ->
     (forall v s,
        episodic_filled_counter v = episodic_filled_counter (mem s) ->
        counter (set_mem v s) = counter s) ->
     (forall e, e <> ev_restore -> E e) ->
     keeps counter E m) ->
  forall s, episodic_filled_counter (mem (final (m s)))
            = episodic_filled_counter (mem s).
Proof.
  intros Hk s.
  refine (proj1 (Hk (fun _ => True) _ _ _ _ _ _ s)); unfold counter; auto.
Qed.

Lemma train_iteration_keeps_counter model args datasets ems task ac train_x
    train_y w num_iters iters (s : State M R) :
  episodic_filled_counter
    (mem (final (train_iteration model args datasets ems task ac train_x
                   train_y w num_iters iters s)))
  = episodic_filled_counter (mem s).
Proof.
  apply counter_kept. intros E h1 h2 h3 h4 h5 h6.
  apply keeps_train_iteration; assumption.
Qed.

Lemma training_loop_keeps_counter model args datasets ems task ac train_x
    train_y w num_iters iters_list (s : State M R) :
  episodic_filled_counter
    (mem (final (for_each iters_list
                   (train_iteration model args datasets ems task ac train_x
                      train_y w num_iters) s)))
  = episodic_filled_counter (mem s).
Proof.
  apply counter_kept. intros E h1 h2 h3 h4 h5 h6.
  apply keeps_for_each; try assumption. intros iters.
  apply keeps_train_iteration; assumption.
Qed.

Lemma train_task_advances_counter model args uem datasets ems task
    (s : State M R) v :
  outcome (train_task model args uem datasets ems task s) = Normal v ->
  episodic_filled_counter
    (mem (final (train_task model args uem datasets ems task s)))
  = episodic_filled_counter (mem s)
    + (if uem then mem_size args * TOTAL_CLASSES else 0).
Proof.
  unfold train_task. intros Hv.
  apply bind_normal_inv in Hv as ([] & _ & Hv & -> & _).
  assert (Hr0 : episodic_filled_counter
                 (mem (final ((when (0 <? task) then do_restore) s)))
               = episodic_filled_counter (mem s)).
  { destruct (0 <? task); [destruct s|]; reflexivity. }
  rewrite <- Hr0.
  set (s1 := final ((when (0 <? task) then do_restore) s)) in *.
  clearbody s1. clear Hr0. revert Hv. unfold train_and_evaluate_task.
  intros Hv.
  apply bind_normal_inv in Hv as (loaded & Hl & Hv & -> & _).
  assert (H1' : episodic_filled_counter
                  (mem (final (load_task args datasets task s1)))
                = episodic_filled_counter (mem s1)).
  { apply counter_kept. intros E h1 h2 h3 h4 h5 h6.
    apply keeps_load_task; assumption. }
  rewrite <- H1'.
  set (s2 := final (load_task args datasets task s1)) in *.
  destruct loaded as [[[[tti tx] ty] tw]|];
    [|exfalso; exact (load_task_loads _ _ _ _ Hl eq_refl)].
  clearbody s2. clear H1' Hl.
  apply bind_normal_inv in Hv as (num_iters & _ & Hv & -> & _).
  match goal with
  | |- context [final (?m s2)] =>
      assert (H2' : episodic_filled_counter (mem (final (m s2)))
                    = episodic_filled_counter (mem s2))
        by (apply counter_kept; intros E h1 h2 h3 h4 h5 h6;
            destruct (train_single_epoch args);
            [apply keeps_py_floordiv|apply keeps_ret]);
      rewrite <- H2'; set (s3 := final (m s2)) in *;
      clearbody s3; clear H2'
  end.
  apply bind_normal_inv in Hv as (ftask & _ & Hv & -> & _).
  rewrite <- (training_loop_keeps_counter model args datasets ems task
                (task * TOTAL_CLASSES) tx ty tw num_iters
                (np_arange num_iters) s3).
  match goal with
  | |- context [final (?m s3)] =>
      set (s4 := final (m s3)) in *; clearbody s4
  end.
  apply bind_normal_inv in Hv as ([] & _ & Hv & -> & _).
  match goal with
  | |- context [final (?m s4)] =>
      assert (H4' : episodic_filled_counter (mem (final (m s4)))
                    = episodic_filled_counter (mem s4))
        by (apply counter_kept; intros E h1 h2 h3 h4 h5 h6;
            destruct (model_imp_method model =? "ER-Hindsight-Anchors")%string;
            [apply keeps_hindsight_anchor_update; assumption
            |apply keeps_ret]);
      rewrite <- H4'; set (s5 := final (m s4)) in *;
      clearbody s5; clear H4'
  end.
  apply bind_normal_inv in Hv as ([] & _ & Hv & -> & _).
  match goal with
  | |- context [final (?m s5)] =>
      assert (H5' : episodic_filled_counter (mem (final (m s5)))
                    = episodic_filled_counter (mem s5)
                      + (if uem then mem_size args * TOTAL_CLASSES else 0))
        by (destruct uem; [destruct s5; reflexivity|cbn; lia]);
      rewrite <- H5'; set (s6 := final (m s5)) in *;
      clearbody s6; clear H5'
  end.
  apply bind_normal_inv in Hv as ([] & _ & Hv & -> & _).
  match goal with
  | |- context [final (?m s6)] =>
      assert (H6' : episodic_filled_counter (mem (final (m s6)))
                    = episodic_filled_counter (mem s6))
        by (apply counter_kept; intros E h1 h2 h3 h4 h5 h6;
            destruct ((task <? length datasets - 1)
                      || MEASURE_PERF_ON_EPS_MEMORY);
            [apply keeps_do_task_updates; assumption|apply keeps_ret]);
      rewrite <- H6'; set (s7 := final (m s6)) in *;
      clearbody s7; clear H6'
  end.
  apply bind_normal_inv in Hv as (ftask' & _ & Hv & -> & _).
  match goal with
  | |- context [final (?m s7)] =>
      assert (H7' : episodic_filled_counter (mem (final (m s7)))
                    = episodic_filled_counter (mem s7))
        by (apply counter_kept; intros E h1 h2 h3 h4 h5 h6;
            apply keeps_evaluate_task; assumption);
      rewrite <- H7'; set (s8 := final (m s7)) in *;
      clearbody s8; clear H7'
  end.
  apply bind_normal_inv in Hv as ([] & _ & Hv & -> & _).
  cbn [final ret].
  apply counter_kept. intros E h1 h2 h3 h4 h5 h6.
  apply keeps_do_reset_optimizer; assumption.
Qed.

Lemma for_each_adds {X Y} (g : State M R -> nat) (d : nat)
    (body : X -> Py M R (list Y)) :
  (forall x s v, outcome (body x s) = Normal v ->
                 g (final (body x s)) = g s + d) ->
  forall xs s v, outcome (for_each xs body s) = Normal v ->
                 g (final (for_each xs body s)) = g s + length xs * d.
Proof.
  intros Hb xs. induction xs as [|x xs IH]; intros s v Hv.
  - cbn. lia.
  - cbn [for_each] in *.
    apply bind_normal_inv in Hv as (ys & Hy & Hv & -> & _).
    apply bind_normal_inv in Hv as (zs & Hz & _ & -> & _).
    cbn [final ret length]. rewrite (IH _ _ Hz), (Hb _ _ _ Hy). lia.
Qed.

Lemma filled_so_far_le (c capacity : nat) : filled_so_far c capacity <= c.
Proof. unfold filled_so_far. destruct (Nat.leb_spec c capacity); lia. Qed.

Lemma ring_sample_below_counter (Hspec : NumpyRandomSpec R) (args : Args)
    (ems : nat) (s : State M R) idx i :
  outcome (agem_mem_sample_mask args s) = Normal idx
  \/ outcome (er_ring_mem_indices args ems s) = Normal idx ->
  In i idx -> i < episodic_filled_counter (mem s).
Proof.
  intros [Ho|Ho] Hin.
  - unfold agem_mem_sample_mask in Ho.
    rewrite (bind_normal _ _ _ (a:=mem s)) in Ho by reflexivity.
    cbn [outcome final gets] in Ho.
    destruct (sample_indices_spec Hspec (episodic_filled_counter (mem s))
                (eps_mem_batch args) s) as (idx' & Ho' & _ & Hs & _).
    rewrite Ho' in Ho. injection Ho as ->.
    destruct Hs as (_ & _ & Hr). apply Hr, Hin.
  - unfold er_ring_mem_indices in Ho.
    rewrite (bind_normal _ _ _ (a:=mem s)) in Ho by reflexivity.
    cbn [outcome final gets] in Ho.
    fold (filled_so_far (episodic_filled_counter (mem s)) ems) in Ho.
    destruct (sample_indices_spec Hspec
                (filled_so_far (episodic_filled_counter (mem s)) ems)
                (eps_mem_batch args) s) as (idx' & Ho' & _ & Hs & _).
    rewrite Ho' in Ho. injection Ho as ->.
    destruct Hs as (_ & _ & Hr). apply Hr in Hin.
    pose proof (filled_so_far_le (episodic_filled_counter (mem s)) ems).
    lia.
Qed.

(** C10 (amended).  [episodic_filled_counter] is the same after any number
    of training iterations of a task as before them (the FIFO updates get
    its value and cannot change it); a task that ends normally in a run
    that uses episodic memory leaves it larger by exactly
    [mem_size * TOTAL_CLASSES], so after [t] tasks it has grown by
    [t * mem_size * TOTAL_CLASSES].  Consequently, under the ring-buffer
    strategies (A-GEM, ER-Ring, ER-Hindsight-Anchors) every index sampled
    from the memory during a task is below the counter, that is, inside
    the blocks of the tasks before it, while the FIFO update of the
    current task leaves every slot below the counter as it was.  (The
    reservoir strategies sample by [examples_seen_so_far] instead.) *)
Theorem episodic_counter_advances_only_between_tasks
    (Hspec : NumpyRandomSpec R) (model : Model) (args : Args)
    (datasets : list TaskData) (ems : nat) (s : State M R) :
  (forall task ac train_x train_y w num_iters iters_list,
     episodic_filled_counter
       (mem (final (for_each iters_list
                      (train_iteration model args datasets ems task ac
                         train_x train_y w num_iters) s)))
     = episodic_filled_counter (mem s))
  /\ (forall uem task v,
        outcome (train_task model args uem datasets ems task s) = Normal v ->
        episodic_filled_counter
          (mem (final (train_task model args uem datasets ems task s)))
        = episodic_filled_counter (mem s)
          + (if uem then mem_size args * TOTAL_CLASSES else 0))
  /\ (forall t v,
        outcome (for_each (np_arange t)
                   (train_task model args true datasets ems) s) = Normal v ->
        episodic_filled_counter
          (mem (final (for_each (np_arange t)
                         (train_task model args true datasets ems) s)))
        = episodic_filled_counter (mem s)
          + t * (mem_size args * TOTAL_CLASSES))
  /\ (forall idx i,
        outcome (agem_mem_sample_mask args s) = Normal idx
        \/ outcome (er_ring_mem_indices args ems s) = Normal idx ->
        In i idx -> i < episodic_filled_counter (mem s))
  /\ (forall x y mem_per_class imgs lbls cnt,
        update_fifo_buffer x y (episodic_images (mem s))
          (episodic_labels (mem s)) (np_arange TOTAL_CLASSES) mem_per_class
          (count_cls (mem s)) (episodic_filled_counter (mem s))
        = Some (imgs, lbls, cnt) ->
        forall i, i < episodic_filled_counter (mem s) ->
          nth_error imgs i = nth_error (episodic_images (mem s)) i
          /\ nth_error lbls i = nth_error (episodic_labels (mem s)) i).
Proof.
  split; [|split; [|split; [|split]]].
  - intros. apply training_loop_keeps_counter.
  - intros uem task v. apply train_task_advances_counter.
  - intros t v Hv.
    rewrite (for_each_adds (fun st => episodic_filled_counter (mem st))
               (mem_size args * TOTAL_CLASSES)
               (train_task model args true datasets ems)) with (v := v).
    + unfold np_arange. rewrite length_seq. reflexivity.
    + intros x st w Hw.
      apply (train_task_advances_counter _ _ _ _ _ _ _ Hw).
    + exact Hv.
  - intros idx i. apply (ring_sample_below_counter Hspec).
  - intros x y mpc imgs lbls cnt. apply update_fifo_buffer_below_offset.
Qed.

End EpisodicCounter.

Lemma episodic_counter_advances_only_between_tasks_witness :
  episodic_filled_counter
    (mem (final (for_each [0; 1]
                   (train_iteration (model_of (toy_args "A-GEM") 1)
                      (toy_args "A-GEM") [toy_task] 10 1 10
                      (images toy_split) (labels toy_split) (np_ones 3) 3)
                   (toy_memory_state 5 0))))
  = episodic_filled_counter (mem (toy_memory_state 5 0)).
Proof.
  exact (proj1 (episodic_counter_advances_only_between_tasks
                  toy_random_spec (model_of (toy_args "A-GEM") 1)
                  (toy_args "A-GEM") [toy_task] 10 (toy_memory_state 5 0))
           1 10 (images toy_split) (labels toy_split) (np_ones 3) 3 [0; 1]).
Defined.

(** C10 as stated fails for the reservoir strategies, which also run with
    episodic memory: they sample by [examples_seen_so_far].  After the
    first iteration of task 0 under ER-Reservoir the counter is still 0
    (no task lies before), yet the sample for the next iteration is index
    0, the slot that this iteration has just filled; in a run the second
    training step is fed that row ahead of its batch. *)
Lemma reservoir_samples_the_current_task :
  episodic_filled_counter
    (mem (final (train_iteration (model_of (toy_args "ER-Reservoir") 1)
                   (toy_args "ER-Reservoir") [toy_task] 10 0 0
                   (images toy_split) (labels toy_split) (np_ones 3) 3 0
                   (toy_memory_state 0 0)))) = 0
  /\ outcome (er_reservoir_mem_indices (toy_args "ER-Reservoir") 10
                (final (train_iteration
                          (model_of (toy_args "ER-Reservoir") 1)
                          (toy_args "ER-Reservoir") [toy_task] 10 0 0
                          (images toy_split) (labels toy_split) (np_ones 3)
                          3 0 (toy_memory_state 0 0)))) = Normal [0]
  /\ nth_error
       (episodic_images
          (mem (final (train_iteration
                         (model_of (toy_args "ER-Reservoir") 1)
                         (toy_args "ER-Reservoir") [toy_task] 10 0 0
                         (images toy_split) (labels toy_split) (np_ones 3)
                         3 0 (toy_memory_state 0 0))))) 0
     = Some (pixel_image 0)
  /\ nth_error
       (map fed_images
          (filter is_sess_run
             (events (train_task_sequence
                        (model_of (toy_args "ER-Reservoir") 1)
                        (toy_args "ER-Reservoir") (toy_state [])))))
       1
     = Some (Some [pixel_image 0; pixel_image 1]).
Proof. repeat split; vm_compute; reflexivity. Qed.

(** *** The anchors of task 0, lines 427-434 *)

Lemma index_of_seq (c a n j : nat) :
  index_of c (seq a n) = Some j -> a + j = c.
Proof.
  revert a j. induction n as [|n IH]; intros a j Hi; cbn in Hi.
  - discriminate.
  - destruct (Nat.eqb_spec a c) as [->|Hne].
    + injection Hi as <-. lia.
    + destruct (index_of c (seq (S a) n)) as [i|] eqn:Ei; [|discriminate].
      injection Hi as <-. apply IH in Ei. lia.
Qed.

Lemma last_of_class_app (c : nat) (s1 s2 : list (Vector * Vector)) :
  last_of_class c (s1 ++ s2)
  = match last_of_class c s2 with
    | Some e => Some e
    | None => last_of_class c s1
    end.
Proof.
  induction s1 as [|e s1 IH]; cbn [app last_of_class].
  - destruct (last_of_class c s2); reflexivity.
  - rewrite IH. destruct (last_of_class c s2); reflexivity.
Qed.

(** With rings of size one the FIFO buffer keeps, for every class, the
    last example offered: slot [c] of the block holds the last example of
    class [c] of the batch, or what it held when the batch has none. *)
Lemma update_fifo_buffer_single_slot x y imgs lbls cnt imgs' lbls' cnt' :
  update_fifo_buffer x y imgs lbls (np_arange TOTAL_CLASSES) 1 cnt 0
    = Some (imgs', lbls', cnt') ->
  forall c,
    match last_of_class c (combine x y) with
    | Some (ex, ey) =>
        nth_error imgs' c = Some ex /\ nth_error lbls' c = Some ey
        /\ label_class ey = Some c
    | None =>
        nth_error imgs' c = nth_error imgs c
        /\ nth_error lbls' c = nth_error lbls c
    end.
Proof.
  revert y imgs lbls cnt.
  induction x as [|er_x xs IH]; intros y imgs lbls cnt Hu c.
  - cbn in Hu. injection Hu as <- <- <-. cbn. auto.
  - destruct y as [|er_y ys].
    + cbn in Hu. injection Hu as <- <- <-. cbn. auto.
    + apply update_fifo_buffer_cons in Hu
        as (cls & j & n & k & imgs1 & lbls1 & cnt1 & Hcls & Hj & _ & Hk
            & _ & Ei & El & _ & Hrest).
      apply index_of_seq in Hj. cbn [plus] in Hj. subst j.
      assert (k = 0) by lia. subst k.
      replace (0 + cls * 1 + 0) with cls in Ei, El by lia.
      specialize (IH _ _ _ _ Hrest c). cbn [combine last_of_class snd].
      destruct (last_of_class c (combine xs ys)) as [[ex ey]|].
      * exact IH.
      * destruct IH as (H1 & H2). unfold has_class. rewrite Hcls.
        destruct (Nat.eqb_spec cls c) as [->|Hne].
        -- rewrite H1, H2. repeat split; auto.
           ++ eapply set_item_same; exact Ei.
           ++ eapply set_item_same; exact El.
        -- rewrite H1, H2. split.
           ++ eapply set_item_other; [exact Ei|congruence].
           ++ eapply set_item_other; [exact El|congruence].
Qed.

Section TaskZeroAnchors.

Context {M R : Type}.
Context `{Session M} `{NumpyRandom R} `{ErUtils M R}.

Lemma slots_kept {A} (m : Py M R A) :
  keeps anchor_slots (fun _ => True) m ->
  forall s, anchor_slots (final (m s)) = anchor_slots s.
Proof. intros Hk s. exact (proj1 (Hk s)). Qed.

Lemma do_update_avg_image_vectors_slots x y (s : State M R) :
  anchor_slots (final (do_update_avg_image_vectors x y s)) = anchor_slots s.
Proof. destruct s. reflexivity. Qed.

Lemma do_update_fifo_anchors_slots x y ac (s : State M R) v :
  outcome (do_update_fifo_anchors x y ac s) = Normal v ->
  update_fifo_buffer x y (fst (fst (anchor_slots s)))
    (snd (fst (anchor_slots s))) (np_arange TOTAL_CLASSES) 1
    (snd (anchor_slots s)) ac
  = Some (anchor_slots (final (do_update_fifo_anchors x y ac s))).
Proof.
  destruct s as [m g d me an ph]. unfold do_update_fifo_anchors, anchor_slots.
  py_run. cbn [fst snd].
  destruct (update_fifo_buffer x y _ _ _ _ _ _) as [[[i l] c]|];
    cbn; [reflexivity|discriminate].
Qed.

Lemma py_mod_normal (a b : nat) (s : State M R) r :
  outcome (py_mod a b s) = Normal r ->
  r = a mod b /\ final (py_mod a b s) = s.
Proof.
  unfold py_mod. destruct b; [discriminate|].
  intros Hr. injection Hr as <-. auto.
Qed.

Ltac slots_keeps :=
  first
    [ apply keeps_anchor_mem_indices | apply keeps_er_ring_mem_indices
    | apply keeps_gets | apply keeps_or_raise | apply keeps_do_sess_run
    | apply keeps_modify | apply keeps_do_update_fifo_episodic
    | apply keeps_per_iteration_snapshot | apply keeps_check_loss ];
  intros; first [reflexivity | exact I].

(** Step over a part of a sequence that leaves the anchor buffer as it
    is. *)
Ltac peel_kept Hv :=
  let a := fresh "a" in
  let Ha := fresh "Ha" in
  apply bind_normal_inv in Hv as (a & Ha & Hv & -> & _);
  match type of Ha with
  | outcome (?m ?s0) = _ =>
      let s' := fresh "s" in
      rewrite <- (slots_kept (m:=m) ltac:(slots_keeps) s0);
      set (s' := final (m s0)) in *; clearbody s'; clear Ha
  end.

Lemma hindsight_iteration_offers_batch (n fua : nat) (args : Args) datasets
    ems train_x train_y w num_iters iters (s : State M R) v :
  outcome (train_iteration
             {| model_num_tasks := n;
                model_imp_method := "ER-Hindsight-Anchors";
                model_fisher_update_after := fua |}
             args datasets ems 0 0 train_x train_y w num_iters iters s)
    = Normal v ->
  update_fifo_buffer
    (fst (iteration_batch (batch_size args) train_x train_y iters))
    (snd (iteration_batch (batch_size args) train_x train_y iters))
    (fst (fst (anchor_slots s))) (snd (fst (anchor_slots s)))
    (np_arange TOTAL_CLASSES) 1 (snd (anchor_slots s)) 0
  = Some (anchor_slots
            (final (train_iteration
                      {| model_num_tasks := n;
                         model_imp_method := "ER-Hindsight-Anchors";
                         model_fisher_update_after := fua |}
                      args datasets ems 0 0 train_x train_y w num_iters
                      iters s))).
Proof.
  intros Hv. unfold train_iteration in *.
  apply bind_normal_inv in Hv as (r & Hbody & Hv & -> & _).
  apply bind_normal_inv in Hv as ([] & _ & _ & -> & _). cbn [final ret].
  rewrite (slots_kept (keeps_check_loss anchor_slots (fun _ => True)
                         (fun _ _ => I) iters (snd r))).
  revert Hbody. unfold iteration_body. intros Hv.
  peel_kept Hv.
  apply bind_normal_inv in Hv as (offset & Hoff & Hv & -> & _).
  apply py_mod_normal in Hoff as (-> & Hs1). rewrite Hs1 in Hv |- *.
  clear Hs1. rename s0 into s1.
  unfold iteration_batch. cbv zeta. cbn [fst snd].
  set (offset := (iters * batch_size args) mod length train_x) in *.
  clearbody offset.
  set (x := slice train_x offset _) in *.
  set (y := slice train_y offset _) in *.
  clearbody x y.
  match type of Hv with
  | context [strategy_step ?md args ems 0 0 num_iters iters ?mask x y ?fd] =>
      change (strategy_step md args ems 0 0 num_iters iters mask x y fd)
        with (bound (step_ER_Hindsight_Anchors args ems 0 0 num_iters iters
                       mask x y)) in Hv |- *
  end.
  apply bind_normal_inv in Hv as (loss & Hv & _ & -> & _). cbn [final ret].
  unfold bound in Hv |- *.
  apply bind_normal_inv in Hv as (loss' & Hv & _ & -> & _). cbn [final ret].
  unfold step_ER_Hindsight_Anchors in Hv |- *. cbn [Nat.eqb] in Hv |- *.
  do 5 peel_kept Hv.
  apply bind_normal_inv in Hv as (l & Hinner & Hv & -> & _).
  apply bind_normal_inv in Hv as ([] & _ & Hv & -> & _).
  apply bind_normal_inv in Hv as ([] & _ & _ & -> & _). cbn [final ret].
  rewrite (slots_kept (m:=do_update_fifo_episodic x y (mem_size args))
             ltac:(slots_keeps)).
  rewrite do_update_avg_image_vectors_slots.
  do 2 peel_kept Hinner.
  apply bind_normal_inv in Hinner as ([] & Hf & _ & -> & _).
  cbn [final ret].
  exact (do_update_fifo_anchors_slots _ _ _ _ Hf).
Qed.

(** C2 (amended).  Under the hindsight-anchor strategy, when the training
    loop of task 0 ends normally, the anchor slot of every class holds the
    LAST example of that class seen in the task-0 stream: its image copied
    as it is (nothing normalizes it) and its one-hot label; the slot of a
    class that the stream never shows is left as it was.  The slots are
    written during the pass, by the FIFO update with rings of size one. *)
Theorem task0_anchors_hold_last_seen_examples (n fua : nat) (args : Args)
    datasets ems train_x train_y w num_iters iters_list (s : State M R) v :
  outcome (for_each iters_list
             (train_iteration
                {| model_num_tasks := n;
                   model_imp_method := "ER-Hindsight-Anchors";
                   model_fisher_update_after := fua |}
                args datasets ems 0 0 train_x train_y w num_iters) s)
    = Normal v ->
  forall c,
    match last_of_class c
            (task_stream (batch_size args) train_x train_y iters_list)
    with
    | Some (x, y) =>
        nth_error
          (anchor_images
             (anc (final (for_each iters_list
                            (train_iteration
                               {| model_num_tasks := n;
                                  model_imp_method := "ER-Hindsight-Anchors";
                                  model_fisher_update_after := fua |}
                               args datasets ems 0 0 train_x train_y w
                               num_iters) s)))) c = Some x
        /\ nth_error
             (anchor_labels
                (anc (final (for_each iters_list
                               (train_iteration
                                  {| model_num_tasks := n;
                                     model_imp_method :=
                                       "ER-Hindsight-Anchors";
                                     model_fisher_update_after := fua |}
                                  args datasets ems 0 0 train_x train_y w
                                  num_iters) s)))) c = Some y
        /\ label_class y = Some c
    | None =>
        nth_error
          (anchor_images
             (anc (final (for_each iters_list
                            (train_iteration
                               {| model_num_tasks := n;
                                  model_imp_method := "ER-Hindsight-Anchors";
                                  model_fisher_update_after := fua |}
                               args datasets ems 0 0 train_x train_y w
                               num_iters) s)))) c
        = nth_error (anchor_images (anc s)) c
        /\ nth_error
             (anchor_labels
                (anc (final (for_each iters_list
                               (train_iteration
                                  {| model_num_tasks := n;
                                     model_imp_method :=
                                       "ER-Hindsight-Anchors";
                                     model_fisher_update_after := fua |}
                                  args datasets ems 0 0 train_x train_y w
                                  num_iters) s)))) c
           = nth_error (anchor_labels (anc s)) c
    end.
Proof.
  revert s v. induction iters_list as [|i rest IH]; intros s v Hv c.
  - cbn. auto.
  - cbn [for_each] in *.
    apply bind_normal_inv in Hv as (ys & Hy & Hv & -> & _).
    apply bind_normal_inv in Hv as (zs & Hz & _ & -> & _).
    cbn [final ret].
    specialize (IH _ _ Hz c).
    apply hindsight_iteration_offers_batch in Hy.
    unfold anchor_slots in Hy. cbn [fst snd] in Hy.
    apply update_fifo_buffer_single_slot with (c := c) in Hy.
    set (s1 := final (train_iteration _ args datasets ems 0 0 train_x
                        train_y w num_iters i s)) in *.
    clearbody s1.
    change (task_stream (batch_size args) train_x train_y (i :: rest))
      with (combine
              (fst (iteration_batch (batch_size args) train_x train_y i))
              (snd (iteration_batch (batch_size args) train_x train_y i))
            ++ task_stream (batch_size args) train_x train_y rest).
    rewrite last_of_class_app.
    destruct (last_of_class c
                (task_stream (batch_size args) train_x train_y rest))
      as [[x y]|].
    + exact IH.
    + destruct IH as (H1' & H2'). rewrite H1', H2'.
      destruct (last_of_class c (combine _ _)) as [[x y]|]; exact Hy.
Qed.

End TaskZeroAnchors.

Lemma task0_anchors_hold_last_seen_examples_witness :
  match last_of_class 0
          (task_stream (batch_size (toy_args "ER-Hindsight-Anchors"))
             (images toy_split) (labels toy_split) [0; 1; 2])
  with
  | Some (x, y) =>
      nth_error
        (anchor_images
           (anc (final (for_each [0; 1; 2]
                          (train_iteration toy_hindsight_model
                             (toy_args "ER-Hindsight-Anchors") [toy_task]
                             10 0 0 (images toy_split) (labels toy_split)
                             (np_ones 3) 3) toy_hindsight_state)))) 0
      = Some x
      /\ nth_error
           (anchor_labels
              (anc (final (for_each [0; 1; 2]
                             (train_iteration toy_hindsight_model
                                (toy_args "ER-Hindsight-Anchors")
                                [toy_task] 10 0 0 (images toy_split)
                                (labels toy_split) (np_ones 3) 3)
                             toy_hindsight_state)))) 0
         = Some y
      /\ label_class y = Some 0
  | None =>
      nth_error
        (anchor_images
           (anc (final (for_each [0; 1; 2]
                          (train_iteration toy_hindsight_model
                             (toy_args "ER-Hindsight-Anchors") [toy_task]
                             10 0 0 (images toy_split) (labels toy_split)
                             (np_ones 3) 3) toy_hindsight_state)))) 0
      = nth_error (anchor_images (anc toy_hindsight_state)) 0
      /\ nth_error
           (anchor_labels
              (anc (final (for_each [0; 1; 2]
                             (train_iteration toy_hindsight_model
                                (toy_args "ER-Hindsight-Anchors")
                                [toy_task] 10 0 0 (images toy_split)
                                (labels toy_split) (np_ones 3) 3)
                             toy_hindsight_state)))) 0
         = nth_error (anchor_labels (anc toy_hindsight_state)) 0
  end.
Proof.
  refine (@task0_anchors_hold_last_seen_examples _ _ _ _ _ 1 10
            (toy_args "ER-Hindsight-Anchors") [toy_task] 10
            (images toy_split) (labels toy_split) (np_ones 3) 3 [0; 1; 2]
            toy_hindsight_state [] _ 0).
  vm_compute. reflexivity.
Defined.

(** C2 as stated fails: the slot does not keep the first example of a
    class.  The stream of task 0 shows class 0 twice, first the image
    with pixel 0 set, then the image with pixel 1 set; at the end of the
    task the anchor slot of class 0 holds the second one. *)
Lemma task0_anchor_is_not_the_first_seen_example :
  first_of_class 0
    (task_stream (batch_size (toy_args "ER-Hindsight-Anchors"))
       (images toy_split) (labels toy_split) [0; 1; 2])
  = Some (pixel_image 0, one_hot 0)
  /\ (exists v,
        outcome (for_each [0; 1; 2]
                   (train_iteration toy_hindsight_model
                      (toy_args "ER-Hindsight-Anchors") [toy_task] 10 0 0
                      (images toy_split) (labels toy_split) (np_ones 3) 3)
                   toy_hindsight_state) = Normal v)
  /\ nth_error
       (anchor_images
          (anc (final (for_each [0; 1; 2]
                         (train_iteration toy_hindsight_model
                            (toy_args "ER-Hindsight-Anchors") [toy_task]
                            10 0 0 (images toy_split) (labels toy_split)
                            (np_ones 3) 3) toy_hindsight_state)))) 0
     = Some (pixel_image 1)
  /\ nth_error
       (anchor_images
          (anc (final (train_task_sequence toy_hindsight_model
                         (toy_args "ER-Hindsight-Anchors")
                         (toy_state []))))) 0
     = Some (pixel_image 1)
  /\ pixel_image 1 <> pixel_image 0.
Proof.
  split; [vm_compute; reflexivity|].
  split; [eexists; vm_compute; reflexivity|].
  split; [vm_compute; reflexivity|].
  split; [vm_compute; reflexivity|].
  intros Heq. vm_compute in Heq. discriminate Heq.
Qed.

(** *** Reproducibility of a run, lines 156-194 *)

Create HintDb resp.

Section Reproducible.

Context {M R : Type}.
Context `{Session M} `{NumpyRandom R} `{ErUtils M R}.

Section Rules.

Variables Pre Mid Post : State M R -> State M R -> Prop.

Lemma respects_bind {A B} (m : Py M R A) (k : A -> Py M R B) :
  respects Pre Mid m -> (forall a, respects Mid Post (k a)) ->
  respects Pre Post (bind m k).
Proof.
  intros Hm Hk s1 s2 Hp. destruct (Hm s1 s2 Hp) as (Ho & He & Hf).
  unfold bind.
  destruct (m s1) as [o1 f1 e1], (m s2) as [o2 f2 e2]. cbn in *.
  subst o2 e2. destruct o1 as [a|c|e]; cbn; auto.
  - specialize (Hk a f1 f2 (Hf a eq_refl)). destruct Hk as (Ho' & He' & Hf').
    destruct (k a f1) as [o1' f1' e1'], (k a f2) as [o2' f2' e2']. cbn in *.
    subst. auto.
  - repeat split; auto. discriminate.
  - repeat split; auto. discriminate.
Qed.

End Rules.

Section Invariant.

Variable P : State M R -> State M R -> Prop.

Lemma respects_ret {A} (a : A) : respects P P (ret a).
Proof. intros s1 s2 Hp. cbn. auto. Qed.

Lemma respects_raise {A} (e : PyExc) : respects P P (raise (A:=A) e).
Proof. intros s1 s2 Hp. cbn. auto. Qed.

Lemma respects_sys_exit {A} (c : Z) : respects P P (sys_exit (A:=A) c).
Proof. intros s1 s2 Hp. cbn. auto. Qed.

Lemma respects_emit (e : Event) : respects P P (emit e).
Proof. intros s1 s2 Hp. cbn. auto. Qed.

Lemma respects_or_raise {A} (e : PyExc) (o : option A) :
  respects P P (or_raise e o).
Proof. destruct o; [apply respects_ret|apply respects_raise]. Qed.

Lemma respects_py_mod (a b : nat) : respects P P (py_mod a b).
Proof. destruct b; [apply respects_raise|apply respects_ret]. Qed.

Lemma respects_py_floordiv (a b : nat) : respects P P (py_floordiv a b).
Proof. destruct b; [apply respects_raise|apply respects_ret]. Qed.

Lemma respects_gets {A} (g : State M R -> A) :
  (forall s1 s2, P s1 s2 -> g s1 = g s2) -> respects P P (gets g).
Proof. intros Hg s1 s2 Hp. cbn. rewrite (Hg _ _ Hp). auto. Qed.

Lemma respects_modify (g : State M R -> State M R) :
  (forall s1 s2, P s1 s2 -> P (g s1) (g s2)) -> respects P P (modify g).
Proof. intros Hg s1 s2 Hp. cbn. auto. Qed.

Lemma respects_for_each {A B} (xs : list A) (body : A -> Py M R (list B)) :
  (forall x, respects P P (body x)) -> respects P P (for_each xs body).
Proof.
  intros Hb. induction xs as [|x xs IH]; cbn [for_each].
  - apply respects_ret.
  - eapply respects_bind; [apply Hb|]. intros ys.
    eapply respects_bind; [apply IH|]. intros zs. apply respects_ret.
Qed.

End Invariant.

(** The script, under [agree]. *)

Variable model : Model.
Variables uem hind : bool.

Hypothesis uem_def : uem = uses_episodic_memory model.
Hypothesis hind_def :
  hind = (model_imp_method model =? "ER-Hindsight-Anchors")%string.

Let P := agree (M:=M) (R:=R) uem hind.

Lemma P_gets_sess : forall s1 s2, P s1 s2 -> sess s1 = sess s2.
Proof. intros s1 s2 Hp. apply Hp. Qed.
Lemma P_gets_rng : forall s1 s2, P s1 s2 -> rng s1 = rng s2.
Proof. intros s1 s2 Hp. apply Hp. Qed.
Lemma P_gets_phi_hat : forall s1 s2, P s1 s2 -> phi_hat s1 = phi_hat s2.
Proof. intros s1 s2 Hp. apply Hp. Qed.
Lemma P_gets_mem : uem = true -> forall s1 s2, P s1 s2 -> mem s1 = mem s2.
Proof. intros Hu s1 s2 Hp. apply Hp, Hu. Qed.
Lemma P_gets_anc : hind = true -> forall s1 s2, P s1 s2 -> anc s1 = anc s2.
Proof. intros Hu s1 s2 Hp. apply Hp, Hu. Qed.

Lemma P_set_sess v : forall s1 s2, P s1 s2 -> P (set_sess v s1) (set_sess v s2).
Proof. intros s1 s2 (Hs & Hr & Hm & Ha & Hp). repeat split; auto. Qed.
Lemma P_set_rng v : forall s1 s2, P s1 s2 -> P (set_rng v s1) (set_rng v s2).
Proof. intros s1 s2 (Hs & Hr & Hm & Ha & Hp). repeat split; auto. Qed.
Lemma P_set_phi_hat v :
  forall s1 s2, P s1 s2 -> P (set_phi_hat v s1) (set_phi_hat v s2).
Proof. intros s1 s2 (Hs & Hr & Hm & Ha & Hp). repeat split; auto. Qed.
Lemma P_set_mem v : forall s1 s2, P s1 s2 -> P (set_mem v s1) (set_mem v s2).
Proof. intros s1 s2 (Hs & Hr & Hm & Ha & Hp). repeat split; auto. Qed.
Lemma P_set_anc v : forall s1 s2, P s1 s2 -> P (set_anc v s1) (set_anc v s2).
Proof. intros s1 s2 (Hs & Hr & Hm & Ha & Hp). repeat split; auto. Qed.

Ltac resp_leaf :=
  first
    [ apply respects_ret | apply respects_raise | apply respects_sys_exit
    | apply respects_emit | apply respects_or_raise | apply respects_py_mod
    | apply respects_py_floordiv
    | apply respects_gets;
      first [ apply P_gets_sess | apply P_gets_rng | apply P_gets_phi_hat
            | apply P_gets_mem; assumption | apply P_gets_anc; assumption ]
    | apply respects_modify;
      first [ apply P_set_sess | apply P_set_rng | apply P_set_phi_hat
            | apply P_set_mem | apply P_set_anc ] ].

Ltac resp_go :=
  repeat
    match goal with
    | |- respects _ _ (bind _ _) => eapply respects_bind; [|intros]
    | |- respects _ _ (for_each _ _) => apply respects_for_each; intros
    | |- respects _ _ (if ?b then _ else _) => destruct b eqn:?
    | |- respects _ _ (match ?o with _ => _ end) => destruct o eqn:?
    | |- respects _ _ _ => first [ resp_leaf | solve [auto with resp] ]
    end.

Lemma resp_do_sess_run fetches feed :
  respects P P (do_sess_run fetches feed).
Proof. unfold do_sess_run. resp_go. Qed.

Lemma resp_do_restore : respects P P do_restore.
Proof. unfold do_restore. resp_go. Qed.

Lemma resp_do_init_updates : respects P P do_init_updates.
Proof. unfold do_init_updates. resp_go. Qed.

Lemma resp_do_task_updates task imgs lbls :
  respects P P (do_task_updates task imgs lbls).
Proof. unfold do_task_updates. resp_go. Qed.

Lemma resp_do_reset_optimizer : respects P P do_reset_optimizer.
Proof. unfold do_reset_optimizer. resp_go. Qed.

Lemma resp_do_accuracy_eval feed : respects P P (do_accuracy_eval feed).
Proof. unfold do_accuracy_eval. resp_go. Qed.

Lemma resp_do_np_random_shuffle a : respects P P (do_np_random_shuffle a).
Proof. unfold do_np_random_shuffle. resp_go. Qed.

Lemma resp_do_np_random_choice n k : respects P P (do_np_random_choice n k).
Proof. unfold do_np_random_choice. resp_go. Qed.

Lemma resp_do_construct_permute_mnist n :
  respects P P (do_construct_permute_mnist n).
Proof. unfold do_construct_permute_mnist. resp_go. Qed.

Hint Resolve resp_do_sess_run resp_do_restore resp_do_init_updates
  resp_do_task_updates resp_do_reset_optimizer resp_do_accuracy_eval
  resp_do_np_random_shuffle resp_do_np_random_choice
  resp_do_construct_permute_mnist : resp.

Lemma resp_do_update_fifo_episodic x y mpc :
  uem = true -> respects P P (do_update_fifo_episodic x y mpc).
Proof. intros Hu. unfold do_update_fifo_episodic. resp_go. Qed.

Lemma resp_do_update_reservior x y ems :
  uem = true -> respects P P (do_update_reservior x y ems).
Proof. intros Hu. unfold do_update_reservior. cbv zeta. resp_go. Qed.

Lemma resp_do_update_fifo_anchors x y ac :
  hind = true -> respects P P (do_update_fifo_anchors x y ac).
Proof. intros Hu. unfold do_update_fifo_anchors. resp_go. Qed.

Lemma resp_do_update_avg_image_vectors x y :
  hind = true -> respects P P (do_update_avg_image_vectors x y).
Proof. intros Hu. unfold do_update_avg_image_vectors. resp_go. Qed.

Lemma resp_sample_indices r k : respects P P (sample_indices r k).
Proof. unfold sample_indices. resp_go. Qed.
Hint Resolve resp_sample_indices : resp.

Lemma resp_agem_mem_sample_mask args :
  uem = true -> respects P P (agem_mem_sample_mask args).
Proof. intros Hu. unfold agem_mem_sample_mask. resp_go. Qed.

Lemma resp_er_reservoir_mem_indices args ems :
  uem = true -> respects P P (er_reservoir_mem_indices args ems).
Proof. intros Hu. unfold er_reservoir_mem_indices. resp_go. Qed.

Lemma resp_er_ring_mem_indices args ems :
  uem = true -> respects P P (er_ring_mem_indices args ems).
Proof. intros Hu. unfold er_ring_mem_indices. resp_go. Qed.

Lemma resp_anchor_mem_indices args ac :
  respects P P (anchor_mem_indices args ac).
Proof. unfold anchor_mem_indices. resp_go. Qed.

Lemma resp_test_task_sequence td cv :
  respects P P (test_task_sequence model td cv).
Proof. unfold test_task_sequence. resp_go. Qed.

Lemma resp_shuffled_examples args t :
  respects P P (shuffled_examples args t).
Proof. unfold shuffled_examples. resp_go. Qed.
Hint Resolve resp_anchor_mem_indices resp_test_task_sequence
  resp_shuffled_examples : resp.

Lemma resp_load_task args datasets task :
  respects P P (load_task args datasets task).
Proof. unfold load_task. resp_go. Qed.

Lemma resp_mer_micro_steps args num_iters iters mask mx my :
  respects P P (mer_micro_steps args num_iters iters mask mx my).
Proof.
  revert my. induction mx as [|ex xs IH]; intros [|ey ys];
    cbn [mer_micro_steps]; resp_go.
Qed.
Hint Resolve resp_load_task resp_mer_micro_steps : resp.

(** The strategies that read the memory are those for which
    [use_episodic_memory] is set (lines 150-153). *)
Lemma memory_strategy_uses_memory (name : string) :
  model_imp_method model = name ->
  uses_episodic_memory
    {| model_num_tasks := 0; model_imp_method := name;
       model_fisher_update_after := 0 |} = true ->
  uem = true.
Proof.
  intros Hn Hu. rewrite uem_def. unfold uses_episodic_memory in *.
  rewrite Hn. exact Hu.
Qed.

Lemma resp_strategy_step args ems task ac num_iters iters mask x y
    feed_dict :
  respects P P (strategy_step model args ems task ac num_iters iters mask
                  x y feed_dict).
Proof.
  unfold strategy_step, bound.
  repeat match goal with
  | |- respects _ _ (if (?a =? ?b)%string then _ else _) =>
      destruct (String.eqb_spec a b) as [Himp|_]
  end;
  try (assert (Hu : uem = true)
         by (apply (memory_strategy_uses_memory Himp); reflexivity));
  try (assert (Hh : hind = true)
         by (rewrite hind_def, Himp; reflexivity));
  pose proof resp_do_update_fifo_episodic;
  pose proof resp_do_update_reservior;
  pose proof resp_do_update_fifo_anchors;
  pose proof resp_do_update_avg_image_vectors;
  pose proof resp_agem_mem_sample_mask;
  pose proof resp_er_reservoir_mem_indices;
  pose proof resp_er_ring_mem_indices;
  unfold step_VAN, step_FTR_EXT, step_EWC, step_PI, step_MAS, step_A_GEM,
    step_RWALK, step_ER_Reservoir, step_MER, step_ER_Ring,
    step_ER_Hindsight_Anchors, loss_of;
  resp_go.
Qed.

Lemma resp_per_iteration_snapshot args datasets iters :
  respects P P (per_iteration_snapshot model args datasets iters).
Proof. unfold per_iteration_snapshot. resp_go. Qed.

Lemma resp_check_loss iters loss : respects P P (check_loss iters loss).
Proof. unfold check_loss. resp_go. Qed.

Hint Resolve resp_strategy_step resp_per_iteration_snapshot
  resp_check_loss : resp.

Lemma resp_train_iteration args datasets ems task ac train_x train_y w
    num_iters iters :
  respects P P (train_iteration model args datasets ems task ac train_x
                  train_y w num_iters iters).
Proof. unfold train_iteration, iteration_body. resp_go. Qed.
Hint Resolve resp_train_iteration : resp.




Lemma resp_evaluate_task args datasets ftask :
  respects P P (evaluate_task model args datasets ftask).
Proof.
  unfold evaluate_task. cbn [MEASURE_PERF_ON_EPS_MEMORY]. resp_go.
Qed.
Hint Resolve resp_evaluate_task : resp.










End Reproducible.

Section Reseeding.

Context {M R : Type}.
Context `{Session M} `{NumpyRandom R} `{ErUtils M R}.


End Reseeding.


(* ================================================================= *)
(** ** Further properties of the script *)

(** *** Batches, lines 267-293 *)











(** *** Shuffling the examples of a task, lines 250-260 *)

Lemma take_map {A} (a : list A) (d : A) (idx : list nat) :
  (forall i, In i idx -> i < length a) ->
  take a idx = Some (map (fun i => nth i a d) idx).
Proof.
  induction idx as [|i rest IH]; intros Hin.
  - reflexivity.
  - cbn [take map].
    rewrite (nth_error_nth' a d) by (apply Hin; left; reflexivity).
    rewrite IH by (intros j Hj; apply Hin; right; exact Hj).
    reflexivity.
Qed.

Lemma combine_map {A B C} (f : C -> A) (g : C -> B) (l : list C) :
  combine (map f l) (map g l) = map (fun i => (f i, g i)) l.
Proof. induction l as [|h t IH]; cbn; [reflexivity|now rewrite IH]. Qed.

Lemma map_nth_seq {A} (a : list A) (d : A) :
  map (fun i => nth i a d) (seq 0 (length a)) = a.
Proof.
  induction a as [|h t IH].
  - reflexivity.
  - cbn [length seq map nth]. rewrite <- seq_shift, map_map. cbn [nth].
    now rewrite IH.
Qed.

Lemma combine_nth_seq {A B} (a : list A) (b : list B) (da : A) (db : B) :
  length b = length a ->
  map (fun i => (nth i a da, nth i b db)) (seq 0 (length a)) = combine a b.
Proof.
  intros Hlen. rewrite <- combine_map.
  rewrite map_nth_seq. rewrite <- Hlen, map_nth_seq. reflexivity.
Qed.

Lemma firstn_repeat_min {A} (x : A) (k n : nat) :
  firstn k (repeat x n) = repeat x (Nat.min k n).
Proof.
  revert n. induction k as [|k IH]; intros [|n]; cbn; try reflexivity.
  now rewrite IH.
Qed.

Section Shuffling.

Context {M R : Type}.
Context `{Session M} `{NumpyRandom R} `{ErUtils M R}.

(** What [shuffled_examples] computes when images and labels come in
    equal numbers: the three arrays indexed by the shuffled [perm], cut
    after [examples_per_task] rows. *)
Lemma shuffled_examples_runs (Hspec : NumpyRandomSpec R) (args : Args)
    (t : TaskData) (s : State M R) :
  length (labels (train t)) = length (images (train t)) ->
  let perm := fst (np_random_shuffle
                     (np_arange (length (images (train t)))) (rng s)) in
  shuffled_examples args t s
  = {| outcome :=
         Normal
           (firstn (examples_per_task args)
              (map (fun i => nth i (images (train t)) []) perm),
            firstn (examples_per_task args)
              (map (fun i => nth i (labels (train t)) []) perm),
            firstn (examples_per_task args)
              (map (fun i => nth i (np_ones (length (labels (train t))))
                               F64.one) perm));
       final := set_rng (snd (np_random_shuffle
                                (np_arange (length (images (train t))))
                                (rng s))) s;
       events := [] |}.
Proof.
  intros Hlen perm.
  assert (Hperm : Permutation perm (seq 0 (length (images (train t)))))
    by apply (shuffle_perm Hspec).
  assert (Hrange : forall i, In i perm -> i < length (images (train t))).
  { intros i Hi. apply (Permutation_in _ Hperm) in Hi.
    apply in_seq in Hi. lia. }
  unfold shuffled_examples.
  destruct s as [m g d me an ph]. unfold do_np_random_shuffle.
  cbn [rng] in perm. py_run. fold perm.
  rewrite (@take_map _ (images (train t)) [] perm) by exact Hrange.
  rewrite (@take_map _ (labels (train t)) [] perm)
    by (rewrite Hlen; exact Hrange).
  rewrite (@take_map _ (np_ones (length (labels (train t)))) F64.one perm)
    by (unfold np_ones; rewrite repeat_length, Hlen; exact Hrange).
  reflexivity.
Qed.

(** X3.  Loading a task shuffles its training examples and keeps the
    first [examples_per_task] of them.  Images and labels are permuted by
    the same index array, so every image keeps its own label and no
    example is lost or repeated: the pairs (image, label) handed to the
    training loop are the first [examples_per_task] pairs of a permutation
    of the task's pairs, and every one of them carries the weight 1.
    Nothing is called but the generator. *)
Theorem shuffling_keeps_examples_paired (Hspec : NumpyRandomSpec R)
    (args : Args) (t : TaskData) (s : State M R) :
  length (labels (train t)) = length (images (train t)) ->
  exists x y w p,
    outcome (shuffled_examples args t s) = Normal (x, y, w)
    /\ Permutation p (combine (images (train t)) (labels (train t)))
    /\ combine x y = firstn (examples_per_task args) p
    /\ length x
       = Nat.min (examples_per_task args) (length (images (train t)))
    /\ length y = length x
    /\ w = np_ones (length x)
    /\ events (shuffled_examples args t s) = []
    /\ final (shuffled_examples args t s)
       = set_rng (snd (np_random_shuffle
                         (np_arange (length (images (train t)))) (rng s))) s.
Proof.
  intros Hlen.
  rewrite (shuffled_examples_runs Hspec args t s Hlen).
  cbn [outcome final events].
  set (n := length (images (train t))) in *.
  set (perm := fst (np_random_shuffle (np_arange n) (rng s))).
  assert (Hperm : Permutation perm (seq 0 n)) by apply (shuffle_perm Hspec).
  assert (Hlp : length perm = n).
  { rewrite (Permutation_length Hperm). apply length_seq. }
  assert (Hx : length (firstn (examples_per_task args)
                 (map (fun i => nth i (images (train t)) []) perm))
               = Nat.min (examples_per_task args) n).
  { rewrite length_firstn, length_map, Hlp. reflexivity. }
  exists (firstn (examples_per_task args)
            (map (fun i => nth i (images (train t)) []) perm)),
         (firstn (examples_per_task args)
            (map (fun i => nth i (labels (train t)) []) perm)),
         (firstn (examples_per_task args)
            (map (fun i => nth i (np_ones (length (labels (train t))))
                             F64.one) perm)),
         (map (fun i => (nth i (images (train t)) [],
                         nth i (labels (train t)) [])) perm).
  split; [reflexivity|]. split; [|split; [|split; [|split; [|split]]]].
  - unfold n.
    rewrite <- (@combine_nth_seq _ _ (images (train t)) (labels (train t))
                  [] [] Hlen).
    apply Permutation_map. exact Hperm.
  - rewrite <- combine_firstn, combine_map. reflexivity.
  - exact Hx.
  - rewrite !length_firstn, !length_map. reflexivity.
  - rewrite Hx. unfold np_ones.
    rewrite (map_ext _ (fun _ => F64.one))
      by (intros i; apply nth_repeat).
    rewrite map_const, firstn_repeat_min, Hlp. reflexivity.
  - auto.
Qed.

End Shuffling.

(** *** Sizes that end a task with [ZeroDivisionError] *)

Section Edges.

Context {M R : Type}.
Context `{Session M} `{NumpyRandom R} `{ErUtils M R}.

(** The snapshot of lines 278-282 always ends normally and changes
    nothing; every vector it appends has one accuracy per task. *)
Lemma per_iteration_snapshot_total (model : Model) (args : Args) datasets
    iters (s : State M R) :
  exists snaps,
    outcome (per_iteration_snapshot model args datasets iters s)
      = Normal snaps
    /\ final (per_iteration_snapshot model args datasets iters s) = s
    /\ Forall (fun fbatch => length fbatch = length datasets) snaps.
Proof.
  unfold per_iteration_snapshot.
  destruct (test_task_sequence_datasets model datasets
              (online_cross_val args) s) as (Ho & Hf & He).
  destruct (train_single_epoch args && negb (cross_validate_mode args)).
  - destruct (snapshot_due iters).
    + rewrite (bind_normal _ _ _ Ho). cbn [outcome final ret].
      rewrite Hf. eexists. split; [reflexivity|]. split; [reflexivity|].
      constructor; [|constructor]. unfold accuracies. apply length_map.
    + exists []. cbn. auto.
  - exists []. cbn. auto.
Qed.

Lemma train_iteration_empty (model : Model) (args : Args) datasets
    ems task ac train_y w num_iters iters (s : State M R) :
  outcome (train_iteration model args datasets ems task ac [] train_y w
             num_iters iters s) = Raised ZeroDivisionError
  /\ events (train_iteration model args datasets ems task ac [] train_y w
               num_iters iters s)
     = events (per_iteration_snapshot model args datasets iters s)
  /\ final (train_iteration model args datasets ems task ac [] train_y w
              num_iters iters s) = s.
Proof.
  destruct (per_iteration_snapshot_total model args datasets iters s)
    as (snaps & Ho & Hf & _).
  assert (Hbody :
    outcome (iteration_body model args datasets ems task ac [] train_y w
               num_iters iters s) = Raised ZeroDivisionError
    /\ events (iteration_body model args datasets ems task ac [] train_y w
                 num_iters iters s)
       = events (per_iteration_snapshot model args datasets iters s)
    /\ final (iteration_body model args datasets ems task ac [] train_y w
                num_iters iters s) = s).
  { unfold iteration_body.
    rewrite (bind_normal _ _ _ Ho). cbn [outcome final events length].
    rewrite Hf. cbn. rewrite app_nil_r. auto. }
  destruct Hbody as (Hbo & Hbe & Hbf).
  unfold train_iteration. rewrite (bind_raised _ _ _ Hbo).
  cbn [outcome final events]. auto.
Qed.

(** With [MULTI_TASK] off, loading a task is shuffling its examples. *)
Lemma load_task_runs (Hspec : NumpyRandomSpec R) (args : Args) datasets
    task (s : State M R) :
  length (labels (train (nth task datasets empty_task)))
  = length (images (train (nth task datasets empty_task))) ->
  exists x y w,
    outcome (shuffled_examples args (nth task datasets empty_task) s)
      = Normal (x, y, w)
    /\ load_task args datasets task s
       = {| outcome :=
              Normal (Some (images (train (nth task datasets empty_task)),
                            x, y, w));
            final :=
              final (shuffled_examples args (nth task datasets empty_task)
                       s);
            events := [] |}.
Proof.
  intros Hlen.
  pose proof (shuffled_examples_runs Hspec args
                (nth task datasets empty_task) s Hlen) as Hrun.
  cbv zeta in Hrun.
  do 3 eexists. split.
  - rewrite Hrun. reflexivity.
  - unfold load_task. cbn [MULTI_TASK]. unfold bind. rewrite Hrun.
    reflexivity.
Qed.

(** X4.  Two sizes make a task end with [ZeroDivisionError] before any
    call is made on the session.  An empty training set: the offset of
    line 284 is taken modulo the number of examples, so an iteration over
    no examples raises, whatever the strategy; with
    [--examples-per-task 0] outside single-epoch mode this is how the
    first iteration of every task ends.  A batch size of zero in
    single-epoch mode: the number of iterations (line 271) is a quotient
    by the batch size. *)
Theorem degenerate_sizes_raise_ZeroDivisionError
    (Hspec : NumpyRandomSpec R) (model : Model) (args : Args) (uem : bool)
    (datasets : list TaskData) (ems task : nat) (s : State M R) :
  length (labels (train (nth task datasets empty_task)))
  = length (images (train (nth task datasets empty_task))) ->
  (forall ac train_y w num_iters iters st,
     outcome (train_iteration model args datasets ems task ac [] train_y w
                num_iters iters st) = Raised ZeroDivisionError
     /\ events (train_iteration model args datasets ems task ac [] train_y
                  w num_iters iters st)
        = events (per_iteration_snapshot model args datasets iters st)
     /\ final (train_iteration model args datasets ems task ac [] train_y w
                 num_iters iters st) = st)
  /\ (examples_per_task args = 0 -> train_single_epoch args = false ->
      0 < train_iters args ->
      outcome (train_and_evaluate_task model args uem datasets ems task s)
        = Raised ZeroDivisionError
      /\ events (train_and_evaluate_task model args uem datasets ems task s)
         = [])
  /\ (batch_size args = 0 -> train_single_epoch args = true ->
      outcome (train_and_evaluate_task model args uem datasets ems task s)
        = Raised ZeroDivisionError
      /\ events (train_and_evaluate_task model args uem datasets ems task s)
         = []).
Proof.
  intros Hlen. split; [|split].
  - intros. apply train_iteration_empty.
  - intros Hex Hmode Hpos.
    destruct (load_task_runs Hspec args datasets task s Hlen)
      as (x & y & w & Hsh & Hload).
    rewrite (shuffled_examples_runs Hspec args _ s Hlen) in Hsh.
    cbv zeta in Hsh. cbn [outcome] in Hsh. rewrite Hex in Hsh.
    cbn [firstn] in Hsh. injection Hsh as <- <- <-.
    unfold train_and_evaluate_task.
    erewrite bind_normal by (rewrite Hload; reflexivity).
    rewrite Hload. cbn [outcome final events app]. rewrite Hmode.
    erewrite bind_normal by reflexivity. cbn [outcome final events ret app].
    destruct (train_iters args) as [|k]; [lia|].
    unfold np_arange. cbn [seq for_each].
    set (s1 := final (shuffled_examples args
                        (nth task datasets empty_task) s)).
    destruct (train_iteration_empty model args datasets ems task
                (task * TOTAL_CLASSES) [] [] (S k) 0 s1) as (Ho & He & _).
    assert (Hsnap :
              events (per_iteration_snapshot model args datasets 0 s1) = []).
    { unfold per_iteration_snapshot. rewrite Hmode. reflexivity. }
    rewrite Hsnap in He.
    erewrite bind_raised.
    2:{ erewrite bind_raised by exact Ho. reflexivity. }
    cbn [outcome events].
    erewrite bind_raised by exact Ho. cbn [events]. rewrite He. auto.
  - intros Hbs Hmode.
    destruct (load_task_runs Hspec args datasets task s Hlen)
      as (x & y & w & _ & Hload).
    unfold train_and_evaluate_task.
    erewrite bind_normal by (rewrite Hload; reflexivity).
    rewrite Hload. cbn [outcome final events app]. rewrite Hmode, Hbs.
    erewrite bind_raised by reflexivity. cbn. auto.
Qed.

End Edges.

Lemma degenerate_sizes_raise_ZeroDivisionError_witness :
  (outcome (train_and_evaluate_task
              (model_of (toy_config "VAN" false 1 0 10) 1)
              (toy_config "VAN" false 1 0 10) false [toy_task] 10 0
              (toy_state [])) = Raised ZeroDivisionError
   /\ events (train_and_evaluate_task
                (model_of (toy_config "VAN" false 1 0 10) 1)
                (toy_config "VAN" false 1 0 10) false [toy_task] 10 0
                (toy_state [])) = [])
  /\ (outcome (train_and_evaluate_task
                 (model_of (toy_config "VAN" true 0 1000 10) 1)
                 (toy_config "VAN" true 0 1000 10) false [toy_task] 10 0
                 (toy_state [])) = Raised ZeroDivisionError
      /\ events (train_and_evaluate_task
                   (model_of (toy_config "VAN" true 0 1000 10) 1)
                   (toy_config "VAN" true 0 1000 10) false [toy_task] 10 0
                   (toy_state [])) = []).
Proof.
  split.
  - apply (proj1 (proj2 (@degenerate_sizes_raise_ZeroDivisionError
                           _ _ _ _ _ toy_random_spec
                           (model_of (toy_config "VAN" false 1 0 10) 1)
                           (toy_config "VAN" false 1 0 10) false [toy_task]
                           10 0 (toy_state []) eq_refl)));
      [reflexivity|reflexivity|cbn; lia].
  - apply (proj2 (proj2 (@degenerate_sizes_raise_ZeroDivisionError
                           _ _ _ _ _ toy_random_spec
                           (model_of (toy_config "VAN" true 0 1000 10) 1)
                           (toy_config "VAN" true 0 1000 10) false [toy_task]
                           10 0 (toy_state []) eq_refl)));
      reflexivity.
Defined.

(** *** What a task calls and what it leaves alone *)

Ltac head_of t :=
  lazymatch t with
  | ?g _ => head_of g
  | _ => t
  end.

(** Walks through a program: the primitives are closed by the rules of
    [keeps], with the side conditions read off the definitions or taken
    from the context; a function of the script is unfolded. *)
Ltac calls_side :=
  first
    [ reflexivity
    | match goal with
      | Ht : forall e, _ = true -> _ |- _ => apply Ht; reflexivity
      end
    | match goal with
      | Hf : forall v s, _ = _ |- _ => apply Hf
      end ].

Ltac calls_leaf :=
  first
    [ apply keeps_ret | apply keeps_raise | apply keeps_sys_exit
    | apply keeps_gets | apply keeps_or_raise | apply keeps_py_mod
    | apply keeps_py_floordiv
    | apply keeps_emit; calls_side
    | apply keeps_modify; intros; calls_side ].

(** The micro-steps of MER call the session and nothing else. *)
Lemma calls_mer_micro_steps {M R : Type} `{Session M} {X : Type}
    (f : State M R -> X) (E : Event -> Prop) args num_iters iters mask
    mx my :
  (forall v s, f (set_sess v s) = f s) ->
  (forall fetches feed, E (ev_sess_run fetches feed)) ->
  keeps f E (mer_micro_steps args num_iters iters mask mx my).
Proof.
  intros f_sess E_run. revert my.
  induction mx as [|ex xs IH]; intros [|ey ys];
    cbn [mer_micro_steps]; try apply keeps_ret.
  apply keeps_bind; [|intros; apply IH].
  unfold do_sess_run.
  repeat first [ apply keeps_bind; [|intros] | apply keeps_gets
               | apply keeps_ret | apply keeps_emit; apply E_run
               | apply keeps_modify; intros; apply f_sess ].
Qed.

Ltac calls_go :=
  repeat
    match goal with
    | |- keeps _ _ (bind _ _) => apply keeps_bind; [|intros]
    | |- keeps _ _ (for_each _ _) => apply keeps_for_each; intros
    | |- keeps _ _ (mer_micro_steps _ _ _ _ _ _) =>
        apply calls_mer_micro_steps; intros; calls_side
    | |- keeps _ _ (if ?b then _ else _) => destruct b
    | |- keeps _ _ (match ?o with _ => _ end) => destruct o
    | |- keeps _ _ (let _ := _ in _) => cbv zeta
    | |- keeps _ _ _ => first [ calls_leaf | solve [auto with keeps] ]
    | |- keeps _ _ ?m => let h := head_of m in progress unfold h
    end.

Section TaskCalls.

Context {M R : Type}.
Context `{Session M} `{NumpyRandom R} `{ErUtils M R}.

Variable X : Type.
Variable f : State M R -> X.
Variable E : Event -> Prop.

Hypothesis f_sess : forall v s, f (set_sess v s) = f s.
Hypothesis f_rng : forall v s, f (set_rng v s) = f s.
Hypothesis f_phi : forall v s, f (set_phi_hat v s) = f s.
Hypothesis f_anc : forall v s, f (set_anc v s) = f s.
Hypothesis f_mem : forall v s, f (set_mem v s) = f s.
Hypothesis E_task : forall e, task_event e = true -> E e.


Lemma calls_train_iteration model args datasets ems task ac train_x train_y
    w num_iters iters :
  keeps f E (train_iteration model args datasets ems task ac train_x train_y
               w num_iters iters).
Proof. calls_go. Qed.

Hint Resolve calls_train_iteration : keeps.

(** A task makes task calls only, and changes nothing but the session,
    the generator, the buffers and [phi_hat]. *)
Lemma calls_train_task model args uem datasets ems task :
  keeps f E (train_task model args uem datasets ems task).
Proof. calls_go. Qed.

End TaskCalls.

Section Runs.

Context {M R : Type}.
Context `{Session M} `{NumpyRandom R} `{ErUtils M R}.

Lemma task_event_not_main (e : Event) :
  task_event e = true -> main_event e = false.
Proof. destruct e; cbn; congruence. Qed.

(** Training never touches the file system and makes none of the calls
    of [main]. *)
Lemma calls_train_task_sequence (model : Model) (args : Args) :
  keeps (M:=M) (R:=R) dirs (fun e => main_event e = false)
    (train_task_sequence model args).
Proof.
  unfold train_task_sequence. apply keeps_for_each. intros runid.
  unfold train_run.
  repeat (apply keeps_bind; [|intros]);
    try (apply keeps_for_each; intros;
         apply (calls_train_task dirs (fun e => main_event e = false));
         first [ reflexivity | exact task_event_not_main ]);
    calls_go.
Qed.

Lemma bind_ret_last {A B} (m : Py M R A) (g : A -> B) (s : State M R) :
  events (bind m (fun a => ret (g a)) s) = events (m s)
  /\ final (bind m (fun a => ret (g a)) s) = final (m s)
  /\ outcome (bind m (fun a => ret (g a)) s)
     = match outcome (m s) with
       | Normal a => Normal (g a)
       | SystemExit c => SystemExit c
       | Raised e => Raised e
       end.
Proof.
  unfold bind. destruct (m s) as [[a|c|e] s1 e1]; cbn; auto.
  rewrite app_nil_r. auto.
Qed.

Lemma train_run_runs (model : Model) (args : Args) (uem : bool)
    (runid : nat) (s : State M R) :
  events (train_run model args uem runid s)
  = run_prologue model args runid
    ++ events (run_tasks model args uem runid s)
  /\ final (train_run model args uem runid s)
     = final (run_tasks model args uem runid s)
  /\ outcome (train_run model args uem runid s)
     = match outcome (run_tasks model args uem runid s) with
       | Normal evals => Normal [evals]
       | SystemExit c => SystemExit c
       | Raised e => Raised e
       end.
Proof.
  unfold run_tasks, fresh_run_state, run_prologue. cbv zeta.
  set (g0 := np_random_seed (random_seed args + Z.of_nat runid)).
  set (datasets := fst (construct_permute_mnist (model_num_tasks model) g0)).
  unfold train_run. fold g0.
  destruct s as [m g d me an ph].
  destruct uem, (model_imp_method model =? "ER-Hindsight-Anchors")%string;
    (rewrite (bind_normal _ _ _ (a:=tt)) by reflexivity;
     cbn [events outcome final];
     match goal with
     | |- context [events (bind ?p ?k ?st)] =>
         rewrite (bind_normal p k st (a:=datasets)) by reflexivity
     end;
     cbn [events outcome final];
     repeat (rewrite (bind_normal _ _ _ (a:=tt)) by reflexivity;
             cbn [events outcome final]);
     match goal with
     | |- context [events (bind ?p (fun a => ret [a]) ?st)] =>
         destruct (bind_ret_last p (fun a => [a]) st) as (-> & -> & ->)
     end;
     repeat split; reflexivity).
Qed.

Lemma run_tasks_events (model : Model) (args : Args) (uem : bool)
    (runid : nat) (s : State M R) :
  Forall (fun e => task_event e = true)
    (events (run_tasks model args uem runid s)).
Proof.
  unfold run_tasks. cbv zeta.
  refine (proj2 (keeps_for_each (f:=fun _ : State M R => tt)
                   (E:=fun e => task_event e = true) _ _ _ _)).
  intros task.
  apply (calls_train_task (fun _ : State M R => tt)
           (fun e => task_event e = true)); auto.
Qed.


End Runs.

(** *** [main], lines 555-674 *)

Section Main.

Context {M R : Type}.
Context `{Session M} `{NumpyRandom R} `{ErUtils M R}.

(** The number of tasks of an experiment, lines 597-600. *)
Let tasks_of (args : Args) : nat :=
  if online_cross_val args then K_FOR_CROSS_VAL
  else NUM_TASKS - K_FOR_CROSS_VAL.

(** The state in which training starts: the log directory exists and the
    model is built. *)
Let ready (args : Args) (s : State M R) : State M R :=
  {| sess := build_model args (tasks_of args) (sess s);
     rng := rng s;
     dirs := if str_mem (log_dir args) (dirs s) then dirs s
             else log_dir args :: dirs s;
     mem := mem s; anc := anc s; phi_hat := phi_hat s |}.

Let setup (args : Args) (s : State M R) : list Event :=
  (if str_mem (log_dir args) (dirs s) then []
   else [ev_makedirs (log_dir args)])
  ++ [ev_snapshot_experiment_meta_data; ev_build_model (tasks_of args)].

Let report (args : Args) : list Event :=
  (if cross_validate_mode args then [ev_cross_validate_dump] else [])
  ++ [ev_snapshot_experiment_eval].

(** [main] on a valid configuration, by the way training ends. *)
Lemma main_valid (args : Args) (s : State M R) :
  In (arch args) VALID_ARCHS -> In (imp_method args) MODELS ->
  In (optim args) VALID_OPTIMS ->
  main args s
  = match train_task_sequence (model_of args (tasks_of args)) args
            (ready args s) with
    | {| outcome := Normal _; final := s2; events := e2 |} =>
        {| outcome := Normal tt; final := s2;
           events := setup args s ++ e2 ++ report args |}
    | {| outcome := SystemExit c; final := s2; events := e2 |} =>
        {| outcome := SystemExit c; final := s2;
           events := setup args s ++ e2 |}
    | {| outcome := Raised e; final := s2; events := e2 |} =>
        {| outcome := Raised e; final := s2;
           events := setup args s ++ e2 |}
    end.
Proof.
  intros Ha Hi Ho. apply str_mem_In in Ha, Hi, Ho.
  unfold main. rewrite Ha, Hi, Ho. cbn [negb].
  unfold setup, report, ready, tasks_of.
  change (NUM_TASKS - K_FOR_CROSS_VAL) with 20.
  destruct s as [m g d me an ph]. unfold do_build_model. py_run.
  destruct (str_mem (log_dir args) d); cbn [negb]; py_run;
    match goal with
    | |- context [train_task_sequence ?mo ?ar ?st] =>
        destruct (train_task_sequence mo ar st) as [[runs|c|e] s2 e2]
    end;
    try reflexivity;
    destruct (cross_validate_mode args); cbn;
    rewrite <- ?app_assoc; reflexivity.
Qed.

(** X6.  On a valid configuration [main] creates the log directory if it
    does not exist (and no other), records the meta data, and builds one
    model, for 3 tasks in online cross-validation mode and for 20
    otherwise; then it trains.  Training makes none of these calls again
    and leaves the directories as they are.  When training completes,
    [main] writes the cross-validation line if cross-validation mode is
    on and then the results; when training ends by [sys.exit] or by an
    exception, [main] ends the same way and nothing is written after the
    last call of training. *)
Theorem main_sets_up_trains_and_reports (args : Args) (s : State M R) :
  In (arch args) VALID_ARCHS -> In (imp_method args) MODELS ->
  In (optim args) VALID_OPTIMS ->
  let num_tasks :=
    if online_cross_val args then K_FOR_CROSS_VAL else 20 in
  let s1 :=
    {| sess := build_model args num_tasks (sess s);
       rng := rng s;
       dirs := if str_mem (log_dir args) (dirs s) then dirs s
               else log_dir args :: dirs s;
       mem := mem s; anc := anc s; phi_hat := phi_hat s |} in
  let training := train_task_sequence (model_of args num_tasks) args s1 in
  let setup :=
    (if str_mem (log_dir args) (dirs s) then []
     else [ev_makedirs (log_dir args)])
    ++ [ev_snapshot_experiment_meta_data; ev_build_model num_tasks] in
  let report :=
    (if cross_validate_mode args then [ev_cross_validate_dump] else [])
    ++ [ev_snapshot_experiment_eval] in
  Forall (fun e => main_event e = false) (events training)
  /\ dirs (final (main args s)) = dirs s1
  /\ In (log_dir args) (dirs (final (main args s)))
  /\ match outcome training with
     | Normal _ =>
         outcome (main args s) = Normal tt
         /\ events (main args s) = setup ++ events training ++ report
     | SystemExit c =>
         outcome (main args s) = SystemExit c
         /\ events (main args s) = setup ++ events training
     | Raised e =>
         outcome (main args s) = Raised e
         /\ events (main args s) = setup ++ events training
     end.
Proof.
  intros Ha Hi Ho. cbv zeta.
  rewrite (main_valid args s Ha Hi Ho).
  change (if online_cross_val args then K_FOR_CROSS_VAL else 20)
    with (tasks_of args).
  fold (ready args s). fold (setup args s). fold (report args).
  destruct (calls_train_task_sequence (model_of args (tasks_of args)) args
              (ready args s)) as (Hd & Hev).
  assert (Hin : In (log_dir args) (dirs (ready args s))).
  { unfold ready. cbn [dirs].
    destruct (str_mem (log_dir args) (dirs s)) eqn:Ed.
    - apply str_mem_In. exact Ed.
    - left. reflexivity. }
  destruct (train_task_sequence (model_of args (tasks_of args)) args
              (ready args s)) as [[runs|c|e] s2 e2];
    cbn [outcome final events] in *; rewrite Hd; auto.
Qed.

(** X7.  The results of an experiment are written exactly when [main]
    ends normally, and then as its last call: an invalid configuration, a
    NaN loss (which ends the process by [sys.exit]) and any exception
    raised during training all leave the results file unwritten. *)
Theorem results_are_written_iff_main_completes (args : Args)
    (s : State M R) :
  (In ev_snapshot_experiment_eval (events (main args s))
   <-> outcome (main args s) = Normal tt)
  /\ (outcome (main args s) = Normal tt ->
      exists before,
        events (main args s) = before ++ [ev_snapshot_experiment_eval]
        /\ ~ In ev_snapshot_experiment_eval before).
Proof.
  destruct (str_mem (arch args) VALID_ARCHS) eqn:Ea.
  2:{ unfold main. rewrite Ea. cbn. split; [split|]; intros Hx;
      solve [destruct Hx | discriminate Hx]. }
  destruct (str_mem (imp_method args) MODELS) eqn:Ei.
  2:{ unfold main. rewrite Ea, Ei. cbn. split; [split|]; intros Hx;
      solve [destruct Hx | discriminate Hx]. }
  destruct (str_mem (optim args) VALID_OPTIMS) eqn:Eo.
  2:{ unfold main. rewrite Ea, Ei, Eo. cbn. split; [split|]; intros Hx;
      solve [destruct Hx | discriminate Hx]. }
  apply str_mem_In in Ea, Ei, Eo.
  rewrite (main_valid args s Ea Ei Eo).
  destruct (calls_train_task_sequence (model_of args (tasks_of args)) args
              (ready args s)) as (_ & Hev).
  assert (Hsetup : ~ In ev_snapshot_experiment_eval (setup args s)).
  { unfold setup. destruct (str_mem (log_dir args) (dirs s)); cbn;
      intuition discriminate. }
  assert (Htrain : forall e2,
            Forall (fun e => main_event e = false) e2 ->
            ~ In ev_snapshot_experiment_eval e2).
  { intros e2 Hall Hin. rewrite Forall_forall in Hall.
    specialize (Hall _ Hin). discriminate. }
  destruct (train_task_sequence (model_of args (tasks_of args)) args
              (ready args s)) as [[runs|c|e] s2 e2];
    cbn [outcome final events] in *.
  - split; [split|].
    + reflexivity.
    + intros _. unfold report. rewrite !in_app_iff. right. right. right.
      left. reflexivity.
    + intros _.
      exists (setup args s ++ e2
              ++ (if cross_validate_mode args then [ev_cross_validate_dump]
                  else [])).
      split.
      * unfold report. rewrite <- !app_assoc. reflexivity.
      * rewrite !in_app_iff. intros [Hx|[Hx|Hx]].
        -- exact (Hsetup Hx).
        -- exact (Htrain _ Hev Hx).
        -- destruct (cross_validate_mode args); cbn in Hx;
             intuition discriminate.
  - split; [split|]; try discriminate.
    rewrite in_app_iff. intros [Hx|Hx];
      [destruct (Hsetup Hx)|destruct (Htrain _ Hev Hx)].
  - split; [split|]; try discriminate.
    rewrite in_app_iff. intros [Hx|Hx];
      [destruct (Hsetup Hx)|destruct (Htrain _ Hev Hx)].
Qed.

End Main.

(** *** The strategies, lines 295-453 *)

Section Strategies.

Context {M R : Type}.
Context `{Session M} `{NumpyRandom R} `{ErUtils M R}.

(** X8.  ['S-GEM'] is among the valid [MODELS], but the chain of lines
    295-445 has no branch for it: an iteration makes no call on the
    session and binds no [loss], and the first read of [loss] (line 449 or
    451) raises.  The only calls of the iteration are those of its
    snapshot, if one is due. *)
Theorem method_without_branch_leaves_loss_unbound (model : Model)
    (args : Args) (datasets : list TaskData) (ems task ac : nat)
    (train_x train_y : Matrix) (w : Vector) (num_iters iters : nat)
    (s : State M R) :
  model_imp_method model = "S-GEM"%string ->
  train_x <> [] ->
  In (model_imp_method model) MODELS
  /\ outcome (train_iteration model args datasets ems task ac train_x
                train_y w num_iters iters s)
     = Raised (UnboundLocalError "loss")
  /\ events (train_iteration model args datasets ems task ac train_x train_y
               w num_iters iters s)
     = events (per_iteration_snapshot model args datasets iters s)
  /\ final (train_iteration model args datasets ems task ac train_x train_y
              w num_iters iters s) = s.
Proof.
  intros Hm Hne. split.
  { rewrite Hm. apply str_mem_In. reflexivity. }
  destruct (per_iteration_snapshot_total model args datasets iters s)
    as (snaps & Ho & Hf & _).
  destruct train_x as [|x0 xs]; [congruence|].
  assert (Hbody :
    iteration_body model args datasets ems task ac (x0 :: xs) train_y w
      num_iters iters s
    = {| outcome := Normal (snaps, None); final := s;
         events := events (per_iteration_snapshot model args datasets iters
                             s) |}).
  { unfold iteration_body.
    rewrite (bind_normal _ _ _ Ho). rewrite Hf.
    cbn [outcome final events length py_mod].
    unfold strategy_step. rewrite Hm. cbn [String.eqb Ascii.eqb Bool.eqb].
    destruct s. cbn. rewrite app_nil_r. reflexivity. }
  unfold train_iteration, bind. rewrite Hbody. cbn.
  rewrite app_nil_r. auto.
Qed.

(** X9.  With [--fisher-update-after 0] the strategies that keep a
    running Fisher matrix (EWC and RWALK) fail in every iteration: the
    test of lines 309 and 353 divides by the period, so the step raises
    [ZeroDivisionError] before its training step is run. *)
Theorem zero_fisher_period_raises (model : Model) (args : Args)
    (ems task ac num_iters iters : nat) (mask : Vector) (x y : Matrix)
    (feed_dict : FeedDict) (s : State M R) :
  model_fisher_update_after model = 0 ->
  model_imp_method model = "EWC"%string
  \/ model_imp_method model = "RWALK"%string ->
  outcome (strategy_step model args ems task ac num_iters iters mask x y
             feed_dict s) = Raised ZeroDivisionError
  /\ Forall (fun e => fetches_train e = false)
       (events (strategy_step model args ems task ac num_iters iters mask x
                  y feed_dict s)).
Proof.
  intros Hp Hm. unfold strategy_step.
  destruct Hm as [Hm|Hm]; rewrite Hm; cbn [String.eqb Ascii.eqb Bool.eqb];
    unfold bound, step_EWC, step_RWALK; rewrite Hp;
    destruct ((task =? 0) && (iters =? 0));
    destruct s as [m g d me an ph]; unfold do_sess_run; py_run;
    cbn [py_mod]; py_run; split; try reflexivity;
    repeat constructor.
Qed.

(** X10.  Under the strategies without a memory (VAN, FTR_EXT, EWC, PI,
    MAS, RWALK) the step of an iteration only calls the session: every
    call is a [sess.run], fed the batch of lines 290-293 or nothing, and
    whatever happens the generator, the buffers and [phi_hat] are as
    before, so these strategies draw no random number while training. *)
Theorem regularizers_touch_only_the_session (model : Model) (args : Args)
    (ems task ac num_iters iters : nat) (mask : Vector) (x y : Matrix)
    (feed_dict : FeedDict) (s : State M R) :
  In (model_imp_method model) regularizers ->
  final (strategy_step model args ems task ac num_iters iters mask x y
           feed_dict s)
  = set_sess (sess (final (strategy_step model args ems task ac num_iters
                             iters mask x y feed_dict s))) s
  /\ Forall (fun e => exists fetches feed,
                 e = ev_sess_run fetches feed
                 /\ (feed = feed_dict \/ feed = no_feed))
       (events (strategy_step model args ems task ac num_iters iters mask x
                  y feed_dict s)).
Proof.
  intros Hm. unfold strategy_step.
  assert (Hev : forall fetches feed,
            feed = feed_dict \/ feed = no_feed ->
            exists fetches' feed',
              ev_sess_run fetches feed = ev_sess_run fetches' feed'
              /\ (feed' = feed_dict \/ feed' = no_feed)).
  { intros fetches feed Hfeed. exists fetches, feed. auto. }
  cbn [regularizers In] in Hm.
  destruct Hm as [Hm|[Hm|[Hm|[Hm|[Hm|[Hm|[]]]]]]]; rewrite <- Hm;
    cbn [String.eqb Ascii.eqb Bool.eqb];
    unfold bound, loss_of, step_VAN, step_FTR_EXT, step_EWC, step_PI,
      step_MAS, step_RWALK;
    destruct s as [m g d me an ph]; unfold do_sess_run;
    try destruct (task =? 0); try destruct (iters =? 0); cbn [andb];
    try destruct (model_fisher_update_after model) as [|k]; cbn [py_mod];
    py_run; try destruct (((iters + 1) mod S k) =? 0);
    py_run; (split; [reflexivity|]);
    repeat (constructor; [apply Hev; auto|]); constructor.
Qed.

End Strategies.

Lemma method_without_branch_leaves_loss_unbound_witness :
  outcome (train_iteration (model_of (toy_args "S-GEM") 1) (toy_args "S-GEM")
             [toy_task] 0 0 0 (images toy_split) (labels toy_split)
             (np_ones 3) 3 0 (toy_state []))
  = Raised (UnboundLocalError "loss").
Proof.
  refine (proj1 (proj2 (@method_without_branch_leaves_loss_unbound
                          _ _ _ _ _ (model_of (toy_args "S-GEM") 1)
                          (toy_args "S-GEM") [toy_task] 0 0 0
                          (images toy_split) (labels toy_split) (np_ones 3)
                          3 0 (toy_state []) eq_refl _))).
  discriminate.
Defined.

Lemma zero_fisher_period_raises_witness :
  outcome (strategy_step (model_of (toy_config "EWC" false 1 1000 0) 1)
             (toy_config "EWC" false 1 1000 0) 10 0 0 3 0 (np_ones 10)
             (images toy_split) (labels toy_split) no_feed (toy_state []))
  = Raised ZeroDivisionError.
Proof.
  refine (proj1 (@zero_fisher_period_raises
                   _ _ _ _ _ (model_of (toy_config "EWC" false 1 1000 0) 1)
                   (toy_config "EWC" false 1 1000 0) 10 0 0 3 0 (np_ones 10)
                   (images toy_split) (labels toy_split) no_feed
                   (toy_state []) eq_refl _)).
  left. reflexivity.
Defined.

Lemma regularizers_touch_only_the_session_witness :
  rng (final (strategy_step (model_of (toy_args "RWALK") 1)
                (toy_args "RWALK") 10 0 0 3 0 (np_ones 10)
                (images toy_split) (labels toy_split) no_feed
                (toy_state [])))
  = rng (toy_state []).
Proof.
  rewrite (proj1 (@regularizers_touch_only_the_session
                    _ _ _ _ _ (model_of (toy_args "RWALK") 1)
                    (toy_args "RWALK") 10 0 0 3 0 (np_ones 10)
                    (images toy_split) (labels toy_split) no_feed
                    (toy_state [])
                    (or_intror (or_intror (or_intror (or_intror
                       (or_intror (or_introl eq_refl)))))))).
  reflexivity.
Defined.

(** *** The accuracies of a run, lines 178, 265, 491-516 *)

Section Accuracies.

Context {M R : Type}.
Context `{Session M} `{NumpyRandom R} `{ErUtils M R}.

Lemma for_each_Forall {A B} (P : B -> Prop) (body : A -> Py M R (list B))
    (xs : list A) (s : State M R) (ys : list B) :
  (forall x st zs, outcome (body x st) = Normal zs -> Forall P zs) ->
  outcome (for_each xs body s) = Normal ys -> Forall P ys.
Proof.
  intros Hb. revert s ys. induction xs as [|x xs IH]; intros s ys Hy.
  - cbn in Hy. injection Hy as <-. constructor.
  - cbn [for_each] in Hy.
    apply bind_normal_inv in Hy as (zs & Hz & Hy & _).
    apply bind_normal_inv in Hy as (ws & Hw & Hy & _).
    cbn in Hy. injection Hy as <-.
    apply Forall_app. split; [exact (Hb _ _ _ Hz)|exact (IH _ _ Hw)].
Qed.

Lemma for_each_one_each {A B} (body : A -> Py M R (list B))
    (xs : list A) (s : State M R) (ys : list B) :
  (forall x st zs, outcome (body x st) = Normal zs -> length zs = 1) ->
  outcome (for_each xs body s) = Normal ys -> length ys = length xs.
Proof.
  intros Hb. revert s ys. induction xs as [|x xs IH]; intros s ys Hy.
  - cbn in Hy. injection Hy as <-. reflexivity.
  - cbn [for_each] in Hy.
    apply bind_normal_inv in Hy as (zs & Hz & Hy & _).
    apply bind_normal_inv in Hy as (ws & Hw & Hy & _).
    cbn in Hy. injection Hy as <-.
    rewrite length_app, (Hb _ _ _ Hz), (IH _ _ Hw). reflexivity.
Qed.

Lemma train_iteration_snapshots (model : Model) (args : Args) datasets ems
    task ac train_x train_y w num_iters iters (s : State M R) snaps :
  outcome (train_iteration model args datasets ems task ac train_x train_y
             w num_iters iters s) = Normal snaps ->
  Forall (fun fbatch => length fbatch = length datasets) snaps.
Proof.
  unfold train_iteration, iteration_body. intros Hv.
  apply bind_normal_inv in Hv as (r & Hbody & Hv & _).
  apply bind_normal_inv in Hv as ([] & _ & Hv & _).
  cbn in Hv. injection Hv as <-.
  apply bind_normal_inv in Hbody as (sn & Hsn & Hbody & _).
  apply bind_normal_inv in Hbody as (offset & _ & Hbody & _).
  apply bind_normal_inv in Hbody as (loss & _ & Hbody & _).
  cbn in Hbody. injection Hbody as <-. cbn [fst].
  destruct (per_iteration_snapshot_total model args datasets iters s)
    as (sn' & Hsn' & _ & Hall).
  rewrite Hsn' in Hsn. injection Hsn as <-. exact Hall.
Qed.

Lemma evaluate_task_accuracies (model : Model) (args : Args) datasets ftask
    (s : State M R) ftask' :
  Forall (fun fbatch => length fbatch = length datasets) ftask ->
  outcome (evaluate_task model args datasets ftask s) = Normal ftask' ->
  task_accuracies args (length datasets) ftask'.
Proof.
  intros Hall. unfold evaluate_task. cbn [MEASURE_PERF_ON_EPS_MEMORY].
  destruct (train_single_epoch args && negb (cross_validate_mode args))
    eqn:Emode.
  - destruct (test_task_sequence_datasets model datasets false s)
      as (Ho & _ & _).
    rewrite (bind_normal _ _ _ Ho). cbn [outcome ret].
    intros Hv. injection Hv as <-. cbn [task_accuracies].
    rewrite Emode. split; [reflexivity|]. split.
    + destruct ftask; discriminate.
    + apply Forall_app. split; [exact Hall|].
      constructor; [|constructor]. unfold accuracies. apply length_map.
  - destruct (test_task_sequence_datasets model datasets
                (online_cross_val args) s) as (Ho & _ & _).
    rewrite (bind_normal _ _ _ Ho). cbn [outcome ret].
    intros Hv. injection Hv as <-. cbn [task_accuracies].
    rewrite Emode. split; [reflexivity|].
    unfold accuracies. apply length_map.
Qed.

Lemma train_task_accuracies (model : Model) (args : Args) uem datasets ems
    task (s : State M R) v :
  outcome (train_task model args uem datasets ems task s) = Normal v ->
  exists ftask, v = [ftask] /\ task_accuracies args (length datasets) ftask.
Proof.
  unfold train_task, train_and_evaluate_task. intros Hv.
  apply bind_normal_inv in Hv as ([] & _ & Hv & _).
  apply bind_normal_inv in Hv as (loaded & Hload & Hv & _).
  pose proof (load_task_loads _ _ _ _ Hload) as Hsome.
  destruct loaded as [[[[tti train_x] train_y] w]|]; [|congruence].
  apply bind_normal_inv in Hv as (num_iters & _ & Hv & _).
  apply bind_normal_inv in Hv as (ftask & Hloop & Hv & _).
  apply bind_normal_inv in Hv as ([] & _ & Hv & _).
  apply bind_normal_inv in Hv as ([] & _ & Hv & _).
  apply bind_normal_inv in Hv as ([] & _ & Hv & _).
  apply bind_normal_inv in Hv as (ftask' & Heval & Hv & _).
  apply bind_normal_inv in Hv as ([] & _ & Hv & _).
  cbn in Hv. injection Hv as <-.
  exists ftask'. split; [reflexivity|].
  apply evaluate_task_accuracies with (2 := Heval).
  apply for_each_Forall with (2 := Hloop).
  intros i st zs. apply train_iteration_snapshots.
Qed.

(** X11.  A run that completes appends one entry to [runs]: the list
    [evals], with one entry per task of the dataset, in task order.  Each
    entry is a vector with one accuracy per task, so that the accuracies
    of a run form a square matrix (tasks trained so far by tasks
    evaluated); in single-epoch mode without cross-validation each entry
    is instead a non-empty learning curve of such vectors, the last of
    them taken after the task.  Every task is evaluated on every task,
    including those not trained yet. *)
Theorem accuracies_of_a_run_are_square (model : Model) (args : Args)
    (uem : bool) (runid : nat) (s : State M R) (runs : list (list Ftask)) :
  outcome (train_run model args uem runid s) = Normal runs ->
  let num_tasks :=
    length (fst (construct_permute_mnist (model_num_tasks model)
                   (np_random_seed (random_seed args + Z.of_nat runid)))) in
  exists evals,
    runs = [evals]
    /\ length evals = num_tasks
    /\ Forall (task_accuracies args num_tasks) evals.
Proof.
  intros Hv. cbv zeta.
  destruct (train_run_runs model args uem runid s) as (_ & _ & Ho).
  rewrite Ho in Hv. clear Ho. unfold run_tasks in Hv. cbv zeta in Hv.
  match type of Hv with
  | match outcome ?t with _ => _ end = _ =>
      destruct (outcome t) as [evals|c|e] eqn:Et; try discriminate
  end.
  injection Hv as <-. exists evals. split; [reflexivity|]. split.
  - rewrite (for_each_one_each _ _ _ (ys:=evals)) with (2 := Et).
    + unfold np_arange. apply length_seq.
    + intros task st zs Hz.
      apply train_task_accuracies in Hz as (ftask & -> & _). reflexivity.
  - apply for_each_Forall with (2 := Et).
    intros task st zs Hz.
    apply train_task_accuracies in Hz as (ftask & -> & Hacc).
    constructor; [exact Hacc|constructor].
Qed.

End Accuracies.

(** *** The anchors of a later task, lines 462-477 *)

(** A slice assignment that succeeds keeps the length of the array and
    every row outside the slice. *)
Lemma splice_outside {A} (a mid : list A) (lo len i : nat) :
  length mid = Nat.min len (length a - lo) ->
  i < lo \/ lo + len <= i ->
  nth_error (firstn lo a ++ mid ++ skipn (lo + length mid) a) i
  = nth_error a i.
Proof.
  intros Hmid Hi.
  rewrite !nth_error_app, nth_error_firstn, nth_error_skipn, length_firstn.
  destruct (Nat.le_gt_cases lo (length a));
  repeat match goal with
         | |- context [?x <? ?y] => destruct (Nat.ltb_spec x y)
         end;
    first [ reflexivity
          | lia
          | f_equal; lia
          | transitivity (@None A);
            [ apply nth_error_None; lia
            | symmetry; apply nth_error_None; lia ] ].
Qed.

Lemma splice_length {A} (a mid : list A) (lo len : nat) :
  length mid = Nat.min len (length a - lo) ->
  length (firstn lo a ++ mid ++ skipn (lo + length mid) a) = length a.
Proof.
  intros Hmid. rewrite !length_app, length_firstn, length_skipn. lia.
Qed.

Lemma set_slice_splice {A} (a : list A) (lo len : nat) (rows a' : list A) :
  set_slice a lo len rows = Some a' ->
  exists mid,
    length mid = Nat.min len (length a - lo)
    /\ a' = firstn lo a ++ mid ++ skipn (lo + length mid) a.
Proof.
  unfold set_slice.
  destruct (Nat.eqb_spec (length rows) (Nat.min len (length a - lo)))
    as [Heq|Hne].
  - intros Hs. injection Hs as <-. exists rows. rewrite Heq. auto.
  - destruct rows as [|r [|r' rest]]; try discriminate.
    intros Hs. injection Hs as <-.
    exists (repeat r (Nat.min len (length a - lo))).
    rewrite repeat_length. auto.
Qed.

Lemma set_slice_outside {A} (a : list A) (lo len : nat) (rows a' : list A)
    (i : nat) :
  set_slice a lo len rows = Some a' ->
  i < lo \/ lo + len <= i ->
  nth_error a' i = nth_error a i.
Proof.
  intros Hs Hi. apply set_slice_splice in Hs as (mid & Hmid & ->).
  apply splice_outside with (len := len); assumption.
Qed.

Lemma set_slice_length {A} (a : list A) (lo len : nat) (rows a' : list A) :
  set_slice a lo len rows = Some a' -> length a' = length a.
Proof.
  intros Hs. apply set_slice_splice in Hs as (mid & Hmid & ->).
  apply splice_length with (len := len); assumption.
Qed.

Section LaterAnchors.

Context {M R : Type}.
Context `{Session M} `{NumpyRandom R} `{ErUtils M R}.

(** X12.  After the loop of a task the hindsight-anchor strategy writes
    the anchors of that task into the ten rows that start at
    [anchors_counter = task * TOTAL_CLASSES] and nowhere else: the anchors
    of the other tasks, the size of the anchor buffer and the per-class
    counts are as before, and so is the episodic memory.  The running
    averages of the images are reset to zero.  After the first task
    nothing is written at all (its anchors were filled during the loop),
    and no call is made. *)
Theorem later_anchors_keep_earlier_anchors (model : Model) (args : Args)
    (task anchors_counter : nat) (mask : Vector) (s : State M R) :
  outcome (hindsight_anchor_update model args task anchors_counter mask s)
    = Normal tt ->
  let s' := final (hindsight_anchor_update model args task anchors_counter
                     mask s) in
  (forall i, i < anchors_counter \/ anchors_counter + TOTAL_CLASSES <= i ->
     nth_error (anchor_images (anc s')) i
     = nth_error (anchor_images (anc s)) i
     /\ nth_error (anchor_labels (anc s')) i
        = nth_error (anchor_labels (anc s)) i)
  /\ length (anchor_images (anc s')) = length (anchor_images (anc s))
  /\ length (anchor_labels (anc s')) = length (anchor_labels (anc s))
  /\ anchor_count_cls (anc s') = anchor_count_cls (anc s)
  /\ avg_img_vectors (anc s')
     = map (map (fun _ => F64.zero)) (avg_img_vectors (anc s))
  /\ mem s' = mem s
  /\ phi_hat s' = phi_hat s
  /\ (task = 0 ->
      anchor_images (anc s') = anchor_images (anc s)
      /\ anchor_labels (anc s') = anchor_labels (anc s)
      /\ sess s' = sess s /\ rng s' = rng s
      /\ events (hindsight_anchor_update model args task anchors_counter
                   mask s) = []).
Proof.
  cbv zeta. unfold hindsight_anchor_update.
  destruct s as [m g d me an ph]. destruct task as [|task]; cbn [Nat.eqb].
  - intros _. py_run. repeat split; reflexivity.
  - py_run. destruct ph as [phi|]; py_run; [|discriminate].
    match goal with
    | |- context [normalize_tensors ?a] =>
        destruct (normalize_tensors a) as [nx|]
    end; py_run; [|discriminate].
    match goal with
    | |- context [set_slice (anchor_images an) ?lo ?len ?rows] =>
        destruct (set_slice (anchor_images an) lo len rows) as [imgs|]
          eqn:Ei
    end; py_run; [|discriminate].
    match goal with
    | |- context [set_slice (anchor_labels an) ?lo ?len ?rows] =>
        destruct (set_slice (anchor_labels an) lo len rows) as [lbls|]
          eqn:El
    end; py_run; [|discriminate].
    intros _.
    split; [|split; [|split; [|split; [|split; [|split; [|split]]]]]];
      try reflexivity.
    + intros i Hi. split.
      * eapply set_slice_outside; [exact Ei|exact Hi].
      * eapply set_slice_outside; [exact El|exact Hi].
    + eapply set_slice_length; exact Ei.
    + eapply set_slice_length; exact El.
    + discriminate.
Qed.

End LaterAnchors.

Lemma later_anchors_keep_earlier_anchors_witness :
  length (anchor_images
            (anc (final (hindsight_anchor_update toy_hindsight_model
                           (toy_args "ER-Hindsight-Anchors") 1 10
                           (np_ones 10) toy_anchored_state))))
  = 20.
Proof.
  refine (proj1 (proj2 (@later_anchors_keep_earlier_anchors
                          _ _ _ toy_hindsight_model
                          (toy_args "ER-Hindsight-Anchors") 1 10
                          (np_ones 10) toy_anchored_state _))).
  vm_compute. reflexivity.
Defined.

(** *** [normalize_tensors], lines 80-84 *)



(** The rows are normalized one by one, each by its own minimum and
    maximum. *)
Lemma normalize_tensors_rows (a a' : Matrix) :
  normalize_tensors a = Some a' <-> Forall2 (fun row row' =>
                                               normalize_row row = Some row')
                                      a a'.
Proof.
  revert a'. induction a as [|row rest IH]; intros a'.
  - cbn. split.
    + intros Ha. injection Ha as <-. constructor.
    + intros Ha. inversion Ha. reflexivity.
  - cbn [normalize_tensors]. split.
    + destruct (normalize_row row) as [row'|] eqn:Er; [|discriminate].
      destruct (normalize_tensors rest) as [rest'|]; [|discriminate].
      intros Ha. injection Ha as <-. constructor; [exact Er|].
      apply IH. reflexivity.
    + intros Ha. inversion Ha as [|r r' l l' Hr Hl]; subst.
      rewrite Hr. apply IH in Hl. rewrite Hl. reflexivity.
Qed.

Lemma normalize_tensors_row (a a' : Matrix) (i : nat) (row : Vector) :
  normalize_tensors a = Some a' ->
  nth_error a i = Some row ->
  exists row', nth_error a' i = Some row' /\ normalize_row row = Some row'.
Proof.
  intros Ha. apply normalize_tensors_rows in Ha. revert i.
  induction Ha as [|r r' l l' Hr Hl IH]; intros i Hi.
  - destruct i; discriminate.
  - destruct i as [|i]; cbn [nth_error] in *.
    + injection Hi as <-. exists r'. auto.
    + apply IH, Hi.
Qed.


Lemma fold_min_nan (rest : Vector) (acc : float) :
  F64.isnan acc = true \/ (exists v, In v rest /\ F64.isnan v = true) ->
  fold_left np_min2 rest acc = S754_nan.
Proof.
  revert acc. induction rest as [|y rest IH]; intros acc Hn.
  - destruct Hn as [Hn|(v & [] & _)]. destruct acc; try discriminate.
    reflexivity.
  - cbn [fold_left]. apply IH.
    destruct Hn as [Hn|(v & [->|Hin] & Hv)].
    + left. unfold np_min2. rewrite Hn. exact Hn.
    + left. unfold np_min2. destruct (F64.isnan acc) eqn:Ea; [exact Ea|].
      rewrite Hv. exact Hv.
    + right. exists v. auto.
Qed.

Lemma fold_min_constant (v : float) (n : nat) :
  fold_left np_min2 (repeat v n) v = v.
Proof.
  induction n as [|n IH]; [reflexivity|].
  cbn [repeat fold_left].
  replace (np_min2 v v) with v; [exact IH|].
  unfold np_min2. destruct (F64.isnan v), (F64.ltb v v); reflexivity.
Qed.

Lemma fold_max_constant (v : float) (n : nat) :
  fold_left np_max2 (repeat v n) v = v.
Proof.
  induction n as [|n IH]; [reflexivity|].
  cbn [repeat fold_left].
  replace (np_max2 v v) with v; [exact IH|].
  unfold np_max2. destruct (F64.isnan v), (F64.ltb v v); reflexivity.
Qed.

Lemma sub_nan_r (v : float) : F64.sub v S754_nan = S754_nan.
Proof. destruct v; reflexivity. Qed.

(** The difference of a value with itself is a zero, or NaN. *)
Lemma sub_diag (v : float) :
  F64.is_zero (F64.sub v v) = true \/ F64.sub v v = S754_nan.
Proof.
  destruct v as [[|]|[|]| |s m e]; cbn; auto.
  left. rewrite Z.min_id.
  destruct s; cbn [cond_Zopp]; rewrite Z.sub_diag; reflexivity.
Qed.

Lemma div_by_zero_diff (x d : float) :
  (F64.is_zero x = true \/ x = S754_nan) ->
  (F64.is_zero d = true \/ d = S754_nan) ->
  F64.div x d = S754_nan.
Proof.
  intros [Hx| ->] [Hd| ->]; try (destruct x; reflexivity || discriminate).
  - destruct x; try discriminate. destruct d; try discriminate. reflexivity.
  - reflexivity.
  - reflexivity.
Qed.

Lemma map_nan_range (l : Vector) (hi : float) :
  map (fun v => F64.div (F64.sub v S754_nan) (F64.sub hi S754_nan)) l
  = repeat S754_nan (length l).
Proof.
  induction l as [|w l IH]; [reflexivity|].
  cbn [map length repeat]. rewrite IH, !sub_nan_r. reflexivity.
Qed.

Lemma map_zero_range (n : nat) (x : float) :
  map (fun v => F64.div (F64.sub v x) (F64.sub x x)) (repeat x n)
  = repeat S754_nan n.
Proof.
  rewrite map_repeat. f_equal. apply div_by_zero_diff; apply sub_diag.
Qed.

(** X14.  Two kinds of rows do not come out of [normalize_tensors]
    normalized but as NaN in every entry: a row with a NaN entry (the
    minimum of the row is then NaN), and a row whose entries are all
    equal, whatever the value (the range [max - min] is then zero, and
    every entry becomes 0/0). *)
Theorem degenerate_rows_normalize_to_nan (a a' : Matrix) (i : nat)
    (row : Vector) :
  normalize_tensors a = Some a' ->
  nth_error a i = Some row ->
  (exists v, In v row /\ F64.isnan v = true)
  \/ (exists v, row = repeat v (length row)) ->
  nth_error a' i = Some (repeat S754_nan (length row)).
Proof.
  intros Ha Hi Hrow.
  destruct (normalize_tensors_row a i Ha Hi) as (row' & Hi' & Hr).
  rewrite Hi'. f_equal. clear - Hr Hrow.
  destruct row as [|x rest]; [discriminate|].
  unfold normalize_row in Hr. cbn [ndarray_min ndarray_max] in Hr.
  injection Hr as <-.
  destruct Hrow as [(v & Hin & Hv)|(v & Hc)].
  - rewrite (fold_min_nan rest x).
    2:{ destruct Hin as [->|Hin]; [left; exact Hv|right; eauto]. }
    apply (map_nan_range (x :: rest)).
  - cbn [length repeat] in Hc. injection Hc as <- Hrest.
    remember (length rest) as n eqn:Hn. clear Hn. subst rest.
    rewrite fold_min_constant, fold_max_constant.
    cbn [length]. rewrite repeat_length.
    apply (map_zero_range (S n)).
Qed.

(** *** Which strategies get a memory, and what they read from it *)

Section MemoryReads.

Context {M R : Type}.
Context `{Session M} `{NumpyRandom R} `{ErUtils M R}.

(** X15.  Among the valid methods, [use_episodic_memory] (lines 150-153)
    is set exactly for the five whose step reads or writes the episodic
    memory: A-GEM, MER and the three whose name contains ['ER-'].  So the
    buffers of lines 185-194 exist whenever a step uses them, and the
    other seven methods (S-GEM among them) run without a memory; the
    anchor buffers exist for ER-Hindsight-Anchors. *)
Theorem memory_is_allocated_for_the_strategies_that_use_it (model : Model) :
  In (model_imp_method model) MODELS ->
  (uses_episodic_memory model = true
   <-> In (model_imp_method model) memory_strategies)
  /\ (model_imp_method model = "ER-Hindsight-Anchors"%string ->
      uses_episodic_memory model = true).
Proof.
  intros Hin. unfold uses_episodic_memory.
  cbn [MODELS In] in Hin.
  repeat (destruct Hin as [Hm|Hin]; [rewrite <- Hm; clear Hm|]);
    try destruct Hin;
    (split;
     [ split;
       [ intros Hu; first [ discriminate Hu
                          | cbn; tauto ]
       | intros Hs; first [ reflexivity
                          | cbn in Hs;
                            repeat (destruct Hs as [Hs|Hs];
                                    [discriminate Hs|]);
                            destruct Hs ] ]
     | intros Hh; first [ reflexivity | discriminate Hh ] ]).
Qed.

Lemma take_in_bounds {A} (a : list A) (idx : list nat) :
  (forall i, In i idx -> i < length a) -> take a idx <> None.
Proof.
  induction idx as [|i rest IH]; intros Hin; cbn [take].
  - discriminate.
  - destruct (nth_error a i) eqn:Ei.
    + destruct (take a rest) eqn:Et; [discriminate|].
      exfalso. apply IH; [|reflexivity].
      intros j Hj. apply Hin. right. exact Hj.
    + apply nth_error_None in Ei.
      specialize (Hin i (or_introl eq_refl)). lia.
Qed.

Lemma reservoir_sample_below (Hspec : NumpyRandomSpec R) (args : Args)
    (ems : nat) (s : State M R) idx i :
  outcome (er_reservoir_mem_indices args ems s) = Normal idx ->
  In i idx -> i < filled_so_far (examples_seen_so_far (mem s)) ems.
Proof.
  unfold er_reservoir_mem_indices. intros Ho Hin.
  rewrite (bind_normal _ _ _ (a:=mem s)) in Ho by reflexivity.
  cbn [outcome final gets] in Ho.
  fold (filled_so_far (examples_seen_so_far (mem s)) ems) in Ho.
  destruct (sample_indices_spec Hspec
              (filled_so_far (examples_seen_so_far (mem s)) ems)
              (eps_mem_batch args) s) as (idx' & Ho' & _ & Hs & _).
  rewrite (bind_normal _ _ _ Ho') in Ho. cbn [outcome] in Ho.
  destruct (final (sample_indices _ _ s)) as [m g d me an ph].
  revert Ho. unfold do_np_random_shuffle. py_run. intros Ho.
  injection Ho as <-.
  apply (Permutation_in _ (shuffle_perm Hspec idx' g)) in Hin.
  destruct Hs as (_ & _ & Hr). apply Hr, Hin.
Qed.

(** X16.  Reading the sampled rows of the memory never runs past the
    buffers.  ER-Ring, ER-Hindsight-Anchors, ER-Reservoir and MER cap the
    number of resident examples at [episodic_mem_size], so their samples
    index a buffer of that size safely whatever the counters are; A-GEM
    uses [episodic_filled_counter] as it is and is safe as long as the
    counter has not passed the size of the buffer; the anchors read in
    task [t] lie below [anchors_counter = t * TOTAL_CLASSES]. *)
Theorem memory_reads_stay_in_bounds (Hspec : NumpyRandomSpec R)
    (args : Args) (ems ac : nat) (s : State M R) :
  (ems <= length (episodic_images (mem s)) ->
   forall idx,
     outcome (er_ring_mem_indices args ems s) = Normal idx
     \/ outcome (er_reservoir_mem_indices args ems s) = Normal idx ->
     take (episodic_images (mem s)) idx <> None)
  /\ (episodic_filled_counter (mem s) <= length (episodic_images (mem s)) ->
      forall idx,
        outcome (agem_mem_sample_mask args s) = Normal idx ->
        take (episodic_images (mem s)) idx <> None)
  /\ (ac <= length (anchor_images (anc s)) ->
      forall idx,
        outcome (anchor_mem_indices args ac s) = Normal idx ->
        take (anchor_images (anc s)) idx <> None).
Proof.
  split; [|split].
  - intros Hlen idx Ho. apply take_in_bounds. intros i Hin.
    destruct Ho as [Ho|Ho].
    + revert Ho. unfold er_ring_mem_indices. intros Ho.
      rewrite (bind_normal _ _ _ (a:=mem s)) in Ho by reflexivity.
      cbn [outcome final gets] in Ho.
      fold (filled_so_far (episodic_filled_counter (mem s)) ems) in Ho.
      destruct (sample_indices_spec Hspec
                  (filled_so_far (episodic_filled_counter (mem s)) ems)
                  (eps_mem_batch args) s) as (idx' & Ho' & _ & Hs & _).
      rewrite Ho' in Ho. injection Ho as <-.
      destruct Hs as (_ & _ & Hr). apply Hr in Hin.
      unfold filled_so_far in Hin.
      destruct (episodic_filled_counter (mem s) <=? ems) eqn:El;
        [apply Nat.leb_le in El|]; lia.
    + assert (Hr : i < filled_so_far (examples_seen_so_far (mem s)) ems).
      { eapply reservoir_sample_below; [exact Hspec|exact Ho|exact Hin]. }
      unfold filled_so_far in Hr.
      destruct (examples_seen_so_far (mem s) <=? ems) eqn:El;
        [apply Nat.leb_le in El|]; lia.
  - intros Hlen idx Ho. apply take_in_bounds. intros i Hin.
    assert (Hc : i < episodic_filled_counter (mem s)).
    { eapply ring_sample_below_counter with (ems := ems);
        [exact Hspec|left; exact Ho|exact Hin]. }
    lia.
  - intros Hlen idx Ho. apply take_in_bounds. intros i Hin.
    unfold anchor_mem_indices in Ho.
    destruct (sample_indices_spec Hspec ac (eps_mem_batch args) s)
      as (idx' & Ho' & _ & Hs & _).
    rewrite Ho' in Ho. injection Ho as <-.
    destruct Hs as (_ & _ & Hr). apply Hr in Hin. lia.
Qed.

End MemoryReads.

(** *** The runs of an experiment, lines 146, 156-160, 516-521 *)

Section Experiment.

Context {M R : Type}.
Context `{Session M} `{NumpyRandom R} `{ErUtils M R}.

Lemma filter_task_events (l : list Event) :
  Forall (fun e => task_event e = true) l ->
  filter (fun e => negb (task_event e)) l = [].
Proof.
  induction 1 as [|e l He Hl IH]; cbn; [reflexivity|].
  rewrite He. exact IH.
Qed.

Lemma runs_prologues (model : Model) (args : Args) (uem : bool)
    (runids : list nat) (s : State M R) (runs : list (list Ftask)) :
  outcome (for_each runids (train_run model args uem) s) = Normal runs ->
  length runs = length runids
  /\ filter (fun e => negb (task_event e))
       (events (for_each runids (train_run model args uem) s))
     = flat_map (run_prologue model args) runids.
Proof.
  revert s runs. induction runids as [|r rest IH]; intros s runs Hv.
  - cbn in Hv. injection Hv as <-. cbn. auto.
  - cbn [for_each] in Hv |- *.
    apply bind_normal_inv in Hv as (ys & Hy & Hv & _ & Hev).
    apply bind_normal_inv in Hv as (zs & Hz & Hv & _ & Hev').
    cbn in Hv. injection Hv as <-. rewrite Hev, Hev'. cbn [events ret].
    rewrite app_nil_r, filter_app.
    destruct (IH _ _ Hz) as (Hl & Hf). rewrite Hf.
    destruct (train_run_runs model args uem r s) as (He & _ & Ho).
    rewrite Ho in Hy.
    destruct (outcome (run_tasks model args uem r s)) as [evals|c|e];
      try discriminate.
    injection Hy as <-. split.
    + rewrite length_app, Hl. reflexivity.
    + cbn [flat_map]. f_equal. rewrite He, filter_app.
      rewrite (filter_task_events (run_tasks_events model args uem r s)).
      reflexivity.
Qed.

(** X17.  An experiment that completes returns one entry per run, and
    outside the tasks its runs make exactly the four opening calls of each
    run, in run order: run [r] seeds the generator with
    [random_seed + r], builds the datasets, initializes the variables and
    runs the init ops.  The seeds of the runs of an experiment are
    therefore consecutive, and a model is never re-initialized nor a
    dataset rebuilt inside a run. *)
Theorem every_run_is_seeded_and_initialized_once (model : Model)
    (args : Args) (s : State M R) (runs : list (list Ftask)) :
  outcome (train_task_sequence model args s) = Normal runs ->
  length runs = num_runs args
  /\ filter (fun e => negb (task_event e))
       (events (train_task_sequence model args s))
     = flat_map (run_prologue model args) (np_arange (num_runs args)).
Proof.
  unfold train_task_sequence. intros Hv.
  destruct (runs_prologues _ _ _ _ _ Hv) as (Hl & Hf).
  split.
  - rewrite Hl. unfold np_arange. apply length_seq.
  - exact Hf.
Qed.

End Experiment.

Lemma every_run_is_seeded_and_initialized_once_witness :
  filter (fun e => negb (task_event e))
    (events (train_task_sequence (model_of (toy_args "VAN") 1)
               (toy_args "VAN") (toy_state [])))
  = [ev_np_random_seed 0; ev_construct_permute_mnist 1;
     ev_global_variables_initializer; ev_init_updates].
Proof.
  refine (proj2 (@every_run_is_seeded_and_initialized_once
                   _ _ _ _ _ (model_of (toy_args "VAN") 1) (toy_args "VAN")
                   (toy_state []) _ _)).
  vm_compute. reflexivity.
Defined.

(** *** Evaluation and the inter-task update, lines 485-512 and 523-553 *)

Section TaskEnd.

Context {M R : Type}.
Context `{Session M} `{NumpyRandom R} `{ErUtils M R}.

(** X18.  [test_task_sequence] evaluates every task of the datasets
    once, in task order, on the test split of the task, with
    [keep_prob = 1] and an all-ones output mask, and returns the
    accuracies in that order: one per task, whether the task has been
    trained or not.  It only reads the session: the session, the
    generator and the buffers are as before.  Its last argument is not
    used. *)
Theorem evaluation_reads_and_changes_nothing (model : Model)
    (datasets : list TaskData) (cross_validate_mode : bool)
    (s : State M R) :
  outcome (test_task_sequence model (test_datasets datasets)
             cross_validate_mode s)
  = Normal (map (fun t => accuracy_eval
                            {| feed_x := Some (images (test t));
                               feed_y_ := Some (labels (test t));
                               feed_sample_weights := None;
                               feed_training_iters := None;
                               feed_train_step := None;
                               feed_keep_prob := Some F64.one;
                               feed_output_mask :=
                                 Some (repeat F64.one TOTAL_CLASSES);
                               feed_learning_rate := None;
                               feed_phi_hat_alpha := None;
                               feed_anchor_points := None;
                               feed_mer_beta := None |} (sess s))
              datasets)
  /\ final (test_task_sequence model (test_datasets datasets)
              cross_validate_mode s) = s
  /\ events (test_task_sequence model (test_datasets datasets)
               cross_validate_mode s)
     = map (fun t => ev_accuracy_eval
                       (eval_feed (images (test t)) (labels (test t))
                          (np_ones TOTAL_CLASSES))) datasets
  /\ test_task_sequence model (test_datasets datasets) cross_validate_mode s
     = test_task_sequence model (test_datasets datasets)
         (negb cross_validate_mode) s.
Proof.
  destruct (test_task_sequence_datasets model datasets cross_validate_mode
              s) as (Ho & Hf & He).
  split; [exact Ho|]. split; [exact Hf|]. split; [exact He|].
  reflexivity.
Qed.

Lemma filter_none {A} (p : A -> bool) (l : list A) :
  Forall (fun e => p e = false) l -> filter p l = [].
Proof.
  induction 1 as [|e l He Hl IH]; cbn; [reflexivity|].
  rewrite He. exact IH.
Qed.

(** X19.  A task that completes makes the inter-task update
    ([model.task_updates], lines 487-489) exactly once, for itself, unless
    it is the last task of the datasets, which makes none. *)
Theorem last_task_makes_no_task_update (model : Model) (args : Args)
    (uem : bool) (datasets : list TaskData) (ems task : nat)
    (s : State M R) (v : list Ftask) :
  outcome (train_task model args uem datasets ems task s) = Normal v ->
  filter is_task_updates
    (events (train_task model args uem datasets ems task s))
  = if task <? length datasets - 1 then [ev_task_updates task] else [].
Proof.
  unfold train_task. intros Hv.
  apply bind_normal_inv in Hv as ([] & _ & Hv & _ & ->).
  rewrite filter_app.
  rewrite (filter_none is_task_updates
             (l:=events ((when (0 <? task) then do_restore) s)))
    by (destruct (0 <? task), s; repeat constructor).
  cbn [app].
  set (s1 := final ((when (0 <? task) then do_restore) s)) in *.
  clearbody s1. revert Hv. unfold train_and_evaluate_task. intros Hv.
  apply bind_normal_inv in Hv as (loaded & Hl & Hv & _ & ->).
  destruct loaded as [[[[tti tx] ty] tw]|];
    [|exfalso; exact (load_task_loads _ _ _ _ Hl eq_refl)].
  apply bind_normal_inv in Hv as (num_iters & _ & Hv & _ & ->).
  apply bind_normal_inv in Hv as (ftask & _ & Hv & _ & ->).
  apply bind_normal_inv in Hv as ([] & _ & Hv & _ & ->).
  apply bind_normal_inv in Hv as ([] & _ & Hv & _ & ->).
  apply bind_normal_inv in Hv as ([] & _ & Hv & _ & ->).
  apply bind_normal_inv in Hv as (ftask' & _ & Hv & _ & ->).
  apply bind_normal_inv in Hv as ([] & _ & _ & _ & ->).
  rewrite !filter_app.
  repeat match goal with
         | |- context [filter is_task_updates (events (?part ?st))] =>
             lazymatch part with
             | (if _ then do_task_updates _ _ _ else _) => fail
             | _ => rewrite (filter_none is_task_updates
                               (l:=events (part st)))
                      by (refine (proj2
                                    ((_ : keeps (fun _ : State M R => tt)
                                            (fun e => is_task_updates e
                                                      = false) part) st));
                          calls_go)
             end
         end.
  cbn [app MEASURE_PERF_ON_EPS_MEMORY]. rewrite app_nil_r, orb_false_r.
  destruct (task <? length datasets - 1).
  - match goal with
    | |- context [events (do_task_updates ?t ?i ?l ?st)] =>
        destruct st; reflexivity
    end.
  - reflexivity.
Qed.

End TaskEnd.

Lemma last_task_makes_no_task_update_witness :
  filter is_task_updates
    (events (train_task (model_of (toy_args "VAN") 2) (toy_args "VAN") false
               [toy_task; toy_task] 0 1 (toy_state [])))
  = [].
Proof.
  refine (@last_task_makes_no_task_update _ _ _ _ _
            (model_of (toy_args "VAN") 2) (toy_args "VAN") false
            [toy_task; toy_task] 0 1 (toy_state []) _ _).
  vm_compute. reflexivity.
Defined.

(** *** The properties above on the toy experiment *)

Lemma shuffling_keeps_examples_paired_witness :
  exists x y w,
    outcome (shuffled_examples (toy_args "VAN") toy_task (toy_state []))
      = Normal (x, y, w)
    /\ length x = 3 /\ length y = length x /\ w = np_ones (length x).
Proof.
  destruct (@shuffling_keeps_examples_paired _ _ _ toy_random_spec
              (toy_args "VAN") toy_task (toy_state []) eq_refl)
    as (x & y & w & p & Ho & _ & _ & Hx & Hy & Hw & _).
  exists x, y, w. auto.
Defined.

Lemma main_sets_up_trains_and_reports_witness :
  In (log_dir (toy_args "VAN"))
     (dirs (final (main (toy_args "VAN") (toy_state [])))).
Proof.
  assert (Ha : In (arch (toy_args "VAN")) VALID_ARCHS)
    by (left; reflexivity).
  assert (Hi : In (imp_method (toy_args "VAN")) MODELS)
    by (left; reflexivity).
  assert (Ho : In (optim (toy_args "VAN")) VALID_OPTIMS)
    by (left; reflexivity).
  destruct (@main_sets_up_trains_and_reports _ _ _ _ _
              (toy_args "VAN") (toy_state []) Ha Hi Ho)
    as (_ & _ & Hin & _).
  exact Hin.
Defined.

Lemma accuracies_of_a_run_are_square_witness :
  exists evals,
    outcome (train_run (model_of (toy_args "VAN") 2) (toy_args "VAN") false 0
               (toy_state [])) = Normal [evals]
    /\ length evals = 2
    /\ Forall (task_accuracies (toy_args "VAN") 2) evals.
Proof.
  eassert (Ho : outcome (train_run (model_of (toy_args "VAN") 2)
                           (toy_args "VAN") false 0 (toy_state []))
                = Normal _) by (vm_compute; reflexivity).
  destruct (@accuracies_of_a_run_are_square _ _ _ _ _
              (model_of (toy_args "VAN") 2) (toy_args "VAN") false 0
              (toy_state []) _ Ho) as (evals & He & Hl & Hall).
  exists evals. rewrite Ho, He. auto.
Defined.

Lemma degenerate_rows_normalize_to_nan_witness :
  normalize_tensors [[F64.one; F64.one]; [F64.zero; S754_nan; F64.one]]
  = Some [[S754_nan; S754_nan]; [S754_nan; S754_nan; S754_nan]]
  /\ nth_error [[S754_nan; S754_nan]; [S754_nan; S754_nan; S754_nan]] 1
     = Some (repeat S754_nan 3).
Proof.
  split; [reflexivity|].
  apply (@degenerate_rows_normalize_to_nan
           [[F64.one; F64.one]; [F64.zero; S754_nan; F64.one]]
           [[S754_nan; S754_nan]; [S754_nan; S754_nan; S754_nan]] 1
           [F64.zero; S754_nan; F64.one]).
  - reflexivity.
  - reflexivity.
  - left. exists S754_nan. split; [right; left; reflexivity|reflexivity].
Defined.

Lemma memory_is_allocated_for_the_strategies_that_use_it_witness :
  uses_episodic_memory (model_of (toy_args "ER-Ring") 1) = true
  /\ ~ In (model_imp_method (model_of (toy_args "S-GEM") 1))
         memory_strategies.
Proof.
  split.
  - apply (proj1 (@memory_is_allocated_for_the_strategies_that_use_it
                    (model_of (toy_args "ER-Ring") 1)
                    (proj1 (str_mem_In "ER-Ring" MODELS) eq_refl))).
    do 3 right. left. reflexivity.
  - intros Hin.
    apply (proj1 (@memory_is_allocated_for_the_strategies_that_use_it
                    (model_of (toy_args "S-GEM") 1)
                    (proj1 (str_mem_In "S-GEM" MODELS) eq_refl))) in Hin.
    discriminate Hin.
Defined.

Lemma memory_reads_stay_in_bounds_witness :
  take (episodic_images (mem (toy_memory_state 5 2))) [3; 4] <> None.
Proof.
  refine (proj1 (memory_reads_stay_in_bounds toy_random_spec
                   (toy_args "ER-Ring") 10 0 (toy_memory_state 5 2))
            _ [3; 4] (or_introl _)).
  - vm_compute. lia.
  - reflexivity.
Defined.

(** *** Experience replay, lines 366-414 *)

Section Replay.

Context {M R : Type}.
Context `{Session M} `{NumpyRandom R} `{ErUtils M R}.





End Replay.

(** *** The hindsight-anchor step, lines 416-445 *)

Section HindsightStep.

Context {M R : Type}.
Context `{Session M} `{NumpyRandom R} `{ErUtils M R}.

(** X22.  An iteration of ER-Hindsight-Anchors that completes has
    trained on the sampled memory rows followed by the current batch, with
    [phi_hat_alpha] fed 0.5.  In the first task the step is the plain one
    and the batch is then offered to the anchor buffer (one slot per
    class, from row [anchors_counter]); in a later task the step is the
    anchored one, fed in addition the anchors at the sampled anchor
    indices, and the anchor buffer is not written.  In both cases the
    running averages of the images and then the ring buffer are updated
    with the batch, a loss is returned and [phi_hat] is bound.  The
    anchor indices are drawn before the memory indices, in every task:
    the memory sample comes from the generator the anchor sample left. *)
Theorem hindsight_iteration_calls (n fua : nat) (args : Args)
    (ems task ac num_iters iters : nat) (mask : Vector) (x y : Matrix)
    (feed_dict : FeedDict) (s : State M R) (v : option float) :
  let r :=
    strategy_step {| model_num_tasks := n;
                     model_imp_method := "ER-Hindsight-Anchors";
                     model_fisher_update_after := fua |}
      args ems task ac num_iters iters mask x y feed_dict s in
  let feed ex ey :=
    with_phi_hat_alpha F64.half
      (train_feed (ex ++ x) (ey ++ y) None num_iters iters mask
         (learning_rate args)) in
  let tail :=
    [ev_update_avg_image_vectors x y;
     ev_update_fifo_buffer episodic_buffer x y (mem_size args)
       (episodic_filled_counter (mem s))] in
  outcome r = Normal v ->
  exists idx ex ey,
    outcome (er_ring_mem_indices args ems
               (final (anchor_mem_indices args ac s))) = Normal idx
    /\ take (episodic_images (mem s)) idx = Some ex
    /\ take (episodic_labels (mem s)) idx = Some ey
    /\ (task = 0 ->
        events r
        = ev_sess_run [model_phi_hat; model_train; model_reg_loss]
            (feed ex ey)
          :: ev_update_fifo_buffer anchor_buffer x y 1 ac :: tail)
    /\ (0 < task ->
        exists anchor_idx pts,
          outcome (anchor_mem_indices args ac s) = Normal anchor_idx
          /\ take (anchor_images (anc s)) anchor_idx = Some pts
          /\ events r
             = ev_sess_run [model_phi_hat; model_train_anchor;
                            model_anchor_loss; model_task_loss;
                            model_final_anchor_loss]
                 (with_anchor_points pts (feed ex ey))
               :: tail)
    /\ v <> None
    /\ phi_hat (final r) <> None.
Proof.
  cbv zeta.
  change (strategy_step
            {| model_num_tasks := n;
               model_imp_method := "ER-Hindsight-Anchors";
               model_fisher_update_after := fua |}
            args ems task ac num_iters iters mask x y feed_dict)
    with (bound (step_ER_Hindsight_Anchors args ems task ac num_iters iters
                   mask x y)).
  unfold bound, step_ER_Hindsight_Anchors, anchor_mem_indices,
    er_ring_mem_indices, sample_indices, do_np_random_choice, do_sess_run,
    do_update_fifo_anchors, do_update_avg_image_vectors,
    do_update_fifo_episodic.
  destruct s as [m g d me an ph]. py_run.
  destruct (ac <=? eps_mem_batch args); py_run;
    match goal with
    | |- context [?c <=? eps_mem_batch args] =>
        destruct (c <=? eps_mem_batch args)
    end; py_run;
    (destruct (take (episodic_images me) _) as [ex|] eqn:Ex; py_run;
       [|discriminate]);
    (destruct (take (episodic_labels me) _) as [ey|] eqn:Ey; py_run;
       [|discriminate]);
    (destruct (Nat.eqb_spec task 0) as [Ht|Ht]; py_run;
     [|destruct (take (anchor_images an) _) as [pts|] eqn:Ep; py_run;
       [|discriminate]]);
    repeat match goal with
           | |- context [update_fifo_buffer ?a ?b ?c ?e ?f ?h ?i ?j] =>
               destruct (update_fifo_buffer a b c e f h i j)
                 as [[[? ?] ?]|]; py_run; try discriminate
           end;
    intros Hv; injection Hv as <-;
    eexists _, ex, ey;
    (split; [reflexivity|]); (split; [exact Ex|]); (split; [exact Ey|]);
    (split; [intros Hz; first [reflexivity | congruence]|]);
    (split; [intros Hpos; first [lia | eexists _, pts;
                                       (split; [reflexivity|]);
                                       (split; [exact Ep|]); reflexivity]|]);
    split; discriminate.
Qed.

End HindsightStep.

Lemma hindsight_iteration_calls_witness :
  events (strategy_step toy_hindsight_model
            (toy_args "ER-Hindsight-Anchors") 10 0 0 3 0 (np_ones 10)
            [pixel_image 0] [one_hot 0] no_feed toy_hindsight_state)
  = [ev_sess_run [model_phi_hat; model_train; model_reg_loss]
       (with_phi_hat_alpha F64.half
          (train_feed [pixel_image 0] [one_hot 0] None 3 0 (np_ones 10)
             F64.point_one));
     ev_update_fifo_buffer anchor_buffer [pixel_image 0] [one_hot 0] 1 0;
     ev_update_avg_image_vectors [pixel_image 0] [one_hot 0];
     ev_update_fifo_buffer episodic_buffer [pixel_image 0] [one_hot 0] 1 0].
Proof.
  eassert (Ho : outcome (strategy_step toy_hindsight_model
                           (toy_args "ER-Hindsight-Anchors") 10 0 0 3 0
                           (np_ones 10) [pixel_image 0] [one_hot 0] no_feed
                           toy_hindsight_state) = Normal _)
    by (vm_compute; reflexivity).
  destruct (@hindsight_iteration_calls _ _ _ _ _ 1 10
              (toy_args "ER-Hindsight-Anchors") 10 0 0 3 0 (np_ones 10)
              [pixel_image 0] [one_hot 0] no_feed toy_hindsight_state _ Ho)
    as (idx & ex & ey & Hi & Hx & Hy & Hz & _).
  vm_compute in Hx, Hy, Hi. injection Hi as <-.
  vm_compute in Hx, Hy. injection Hx as <-. injection Hy as <-.
  exact (Hz eq_refl).
Defined.
